(** * Ore and ice arbitrage with limit orders: the order matcher, the spread
    evaluator, the opportunity attempter, the scanner and the deduplicator
    of [Example_11_Ore_and_Ice_Arbitrage_with_Limit_Orders.ipynb].

    Numbers.  Volumes, identifiers and times are integers ([Z]).  Prices,
    rates and money amounts are Python floats in the notebook; they are
    modelled as exact rationals ([Q]), compared with [==] as Python compares
    numbers.  Rounding of floating point arithmetic is outside the model.

    Objects.  Every element of an order list is a pandas [Series] object that
    the matcher updates in place ([next_order['volume'] -= amount]).  These
    objects live in a [heap]; an order list is a list of references into it.
    A [DataFrame] is never written by the notebook and is a plain list of
    rows.

    Collaborators.  [TradingUtil.check_range] is a parameter: a function of
    its arguments that answers or raises. *)

From Stdlib Require Import ZArith QArith Lia Lqa Bool Sorted.
From stdpp Require Import base list strings gmap.

Local Open Scope Z_scope.

(** ** Numbers *)

(** [a < b] on floats, as a boolean. *)
Definition Qltb (a b : Q) : bool := negb (Qle_bool b a).

(** Python's [int(x)]: truncation towards zero. *)
Definition py_int (x : Q) : Z := Z.quot (Qnum x) (Z.pos (Qden x)).

(** Python's [min(a, b)]: the first argument unless the second is smaller. *)
Definition py_min (a b : Q) : Q := if Qltb b a then b else a.

(** The result of a numpy division: numpy yields a non finite value (inf or
    nan) and a RuntimeWarning when the divisor is zero. *)
Inductive quotient : Type :=
  | Finite (q : Q)
  | DivByZero.

Definition np_div (a b : Q) : quotient :=
  if Qeq_bool b 0 then DivByZero else Finite (a / b).

(** ** Outcomes *)

(** The exceptions the notebook can raise.  [RangeCheckError] stands for
    whatever [TradingUtil.check_range] raises. *)
Inductive exn : Type :=
  | IndexError
  | KeyError
  | ZeroDivisionError
  | TypeError
  | RangeCheckError.

(** A computation returns a value or raises; [OutOfFuel] is the model's
    mark for a [while True] loop cut off before it ended. *)
Inductive outcome (A : Type) : Type :=
  | Ok (a : A)
  | Raise (e : exn)
  | OutOfFuel.

Arguments Ok {A} a.
Arguments Raise {A} e.
Arguments OutOfFuel {A}.

(** ** Data model *)

(** One row of the order book, also the content of a [Series] object;
    [order_type_id] is the column [type_id]. *)
Record Order : Type := mkOrder {
  order_type_id : Z;
  location_id : Z;
  buy : bool;
  price : Q;
  volume : Z;
  min_volume : Z;
  order_range : string
}.

(** [next_order['volume'] = v] *)
Definition set_volume (o : Order) (v : Z) : Order :=
  mkOrder (order_type_id o) (location_id o) (buy o) (price o) v (min_volume o)
          (order_range o).

(** [dict(price=..., volume=..., market=...)] *)
Record order_record : Type := mkRecord {
  rec_price : Q;
  rec_volume : Q;
  market : bool
}.

(** [np.sum([ x['price'] * x['volume'] for x in l ])] *)
Definition order_value (l : list order_record) : Q :=
  foldr (fun x acc => (rec_price x * rec_volume x + acc)%Q) 0%Q l.

(** Total of the [volume] fields of a list of records. *)
Definition filled_volume (l : list order_record) : Q :=
  foldr (fun x acc => (rec_volume x + acc)%Q) 0%Q l.

(** ** The object store *)

Abbreviation ref := nat (only parsing).
Abbreviation heap := (list Order) (only parsing).

#[global] Instance Order_inhabited : Inhabited Order :=
  populate (mkOrder 0 0 false 0%Q 0 0 EmptyString).

(** The object a reference denotes.  A Python list holds its objects, so a
    reference taken from an order list always denotes a live object; the
    default of the total lookup is never observed on such lists. *)
Definition deref (h : heap) (r : ref) : Order := h !!! r.

(** A DataFrame: its rows in order. *)
Abbreviation DataFrame := (list Order) (only parsing).

(** [[next_order[1] for next_order in df.iterrows()]]: [iterrows] builds a
    new [Series] for every row, so the list holds fresh objects. *)
Definition iterrows (df : DataFrame) (h : heap) : list ref * heap :=
  (seq (length h) (length df), h ++ df).

(** Outcome of the external range checker [TradingUtil.check_range]: it
    returns [True], returns [False], or raises when a location cannot be
    resolved. *)
Inductive range_check : Type :=
  | InRange
  | NotInRange
  | RangeError.

(** ** Reference data and results *)

(** An entry of [material_map]: one refined material of a source type. *)
Record TypeMaterial : Type := mkMaterial {
  materialTypeID : Z;
  quantity : Z
}.

(** A Python dict with integer keys, in insertion order. *)
Abbreviation dict V := (list (Z * V)) (only parsing).

(** [d[k]]; [None] is a KeyError. *)
Fixpoint dict_get {V : Type} (d : dict V) (k : Z) : option V :=
  match d with
  | [] => None
  | (k', v) :: d' => if k' =? k then Some v else dict_get d' k
  end.

(** [d[k] = v]: an existing key keeps its place. *)
Fixpoint dict_set {V : Type} (d : dict V) (k : Z) (v : V) : dict V :=
  match d with
  | [] => [(k, v)]
  | (k', v') :: d' =>
      if k' =? k then (k', v) :: d' else (k', v') :: dict_set d' k v
  end.

(** [d.keys()] and [d.values()] *)
Definition keys {V : Type} (d : dict V) : list Z := map fst d.
Definition values {V : Type} (d : dict V) : list V := map snd d.

(** An entry of [source_types]. *)
Record SourceType : Type := mkSourceType {
  typeID : Z;
  typeName : string;
  portionSize : Z;
  material_map : dict TypeMaterial
}.

(** One row of the market history: the volume traded in a day. *)
Record SummaryRow : Type := mkSummary {
  summary_type_id : Z;
  summary_volume : Z
}.

(** The structure [spread_return] returns. *)
Record spread : Type := mkSpread {
  spread_value : Q;
  best_bid : option Q;
  best_ask : option Q
}.

(** The dict [attempt_opportunity] returns. *)
Record Opportunity : Type := mkOpportunity {
  gross : Q;
  cost : Q;
  profit : Q;
  margin : quotient;
  buy_orders : list order_record;
  sell_orders : dict (list order_record)
}.

(** An opportunity once [find_opportunities] has set its [time] and [type]. *)
Record found : Type := mkFound {
  opp : Opportunity;
  time : Z;
  type : string
}.

(** The local variables of [attempt_opportunity] that its loops update;
    [gross_total] and [cost_total] are the variables [gross] and [cost]. *)
Record locals : Type := mkLocals {
  buy_order_map : dict (list ref);
  all_sell_orders : dict (list order_record);
  limit_order_max : dict Q;
  spread_data : dict spread;
  all_buy_orders : list order_record;
  gross_total : Q;
  cost_total : Q
}.

(** ** Computations on the object store *)

Definition M (A : Type) : Type := heap -> outcome A * heap.

Definition ret {A : Type} (a : A) : M A := fun h => (Ok a, h).

Definition bind {A B : Type} (c : M A) (k : A -> M B) : M B :=
  fun h =>
    match c h with
    | (Ok a, h') => k a h'
    | (Raise e, h') => (Raise e, h')
    | (OutOfFuel, h') => (OutOfFuel, h')
    end.

Definition raise {A : Type} (e : exn) : M A := fun h => (Raise e, h).

Definition out_of_fuel {A : Type} : M A := fun h => (OutOfFuel, h).

(** A call that cannot raise. *)
Definition call {A : Type} (c : heap -> A * heap) : M A :=
  fun h => let (a, h') := c h in (Ok a, h').

(** Reading the store. *)
Definition read {A : Type} (f : heap -> A) : M A := fun h => (Ok (f h), h).

(** A lookup that raises [e] when it fails. *)
Definition lookup_or {A : Type} (e : exn) (o : option A) : M A :=
  match o with
  | Some a => ret a
  | None => raise e
  end.

Notation "x <- c ;; k" := (bind c (fun x => k))
  (at level 100, c at next level, right associativity).

(** ** Snapshot extractor

    Selecting rows with a boolean mask copies them, and [iterrows] builds
    the [Series] objects of the result from the copy: the orders of the
    lists returned here are objects of their own. *)

Definition extract_sell_orders (snapshot : DataFrame) (type_id station_id : Z)
    (h : heap) : list ref * heap :=
  let by_type := filter (fun o => order_type_id o = type_id) snapshot in
  let by_loc := filter (fun o => location_id o = station_id) by_type in
  let by_side := filter (fun o => buy o = false) by_loc in
  iterrows by_side h.

Definition extract_buy_orders (snapshot : DataFrame) (type_id : Z)
    (h : heap) : list ref * heap :=
  let by_type := filter (fun o => order_type_id o = type_id) snapshot in
  let by_side := filter (fun o => buy o = true) by_type in
  iterrows by_side h.

(** ** Order compression *)

(** [order_map[price] = volume] or [order_map[price] += volume]; the keys
    are float prices. *)
Fixpoint order_map_add (order_map : list (Q * Q)) (p v : Q) : list (Q * Q) :=
  match order_map with
  | [] => [(p, v)]
  | (k, w) :: rest =>
      if Qeq_bool k p then (k, (w + v)%Q) :: rest
      else (k, w) :: order_map_add rest p v
  end.

(** Insertion into a list sorted by price; [sorted] is stable. *)
Fixpoint insert_by_price (reverse : bool) (x : order_record)
    (l : list order_record) : list order_record :=
  match l with
  | [] => [x]
  | y :: l' =>
      if (if reverse then Qle_bool (rec_price y) (rec_price x)
          else Qle_bool (rec_price x) (rec_price y))
      then x :: y :: l'
      else y :: insert_by_price reverse x l'
  end.

(** [sorted(orders, key=lambda x: x['price'], reverse=reverse)] *)
Definition sorted_by_price (reverse : bool) (orders : list order_record)
    : list order_record :=
  foldr (insert_by_price reverse) [] orders.

Definition compress_order_list (order_list : list order_record)
    (ascending : bool) : list order_record :=
  let order_map :=
    fold_left (fun m o => order_map_add m (rec_price o) (rec_volume o))
              order_list [] in
  let market := forallb market order_list in
  let orders := map (fun kv => mkRecord (fst kv) (snd kv) market) order_map in
  sorted_by_price (negb ascending) orders.

(** ** Deduplicator *)

(** [datetime.timedelta(minutes=5)], times being counted in seconds. *)
Definition five_minutes : Z := 300.

(** The inner loop of [clean_opportunities] over the times of one type. *)
Fixpoint stamp_loop (times : list Z) (last : option Z) (stamp_list : list Z)
    : list Z :=
  match times with
  | [] => stamp_list
  | i :: rest =>
      let stamp_list :=
        match last with
        | None => stamp_list ++ [i]
        | Some l =>
            if five_minutes <? i - l then stamp_list ++ [i] else stamp_list
        end in
      stamp_loop rest (Some i) stamp_list
  end.

(** [[x['time'] for x in opps if x['type'] == next_type]] *)
Definition times_of (next_type : string) (opps : list found) : list Z :=
  map time (filter (fun x => type x = next_type) opps).

(** The dict [stamp_map], filled for every type of [set(x['type'] ...)]. *)
Definition build_stamp_map (opps : list found) : gmap string (list Z) :=
  let types : gset string := list_to_set (map type opps) in
  list_to_map
    (map (fun next_type => (next_type, stamp_loop (times_of next_type opps) None []))
         (elements types)).

(** The second loop: [if opp['time'] in stamp_map[type]]; a type missing
    from [stamp_map] would be a KeyError. *)
Fixpoint rebuild (stamp_map : gmap string (list Z)) (opps : list found)
    (new_opps : list found) : outcome (list found) :=
  match opps with
  | [] => Ok new_opps
  | o :: rest =>
      match stamp_map !! type o with
      | None => Raise KeyError
      | Some stamps =>
          if bool_decide (time o ∈ stamps)
          then rebuild stamp_map rest (new_opps ++ [o])
          else rebuild stamp_map rest new_opps
      end
  end.

Definition clean_opportunities (opps : list found) : outcome (list found) :=
  rebuild (build_stamp_map opps) opps [].

(** ** Aggregates *)

(** [np.sum([x['profit'] for x in opps])] and the like. *)
Definition total_profit (opps : list found) : Q :=
  foldr (fun x acc => (profit (opp x) + acc)%Q) 0%Q opps.

Definition total_cost (opps : list found) : Q :=
  foldr (fun x acc => (cost (opp x) + acc)%Q) 0%Q opps.

(** [total_return = total_profit / total_cost] *)
Definition total_return (opps : list found) : quotient :=
  np_div (total_profit opps) (total_cost opps).

(** ** Example data *)

(** A range checker: an order of range "station" is reached from its own
    station only, an order of range "region" from everywhere, and any other
    range cannot be resolved. *)
Definition example_check (region location order_location : Z)
    (range : string) : range_check :=
  if String.eqb range "station" then
    if order_location =? location then InRange else NotInRange
  else if String.eqb range "region" then InRange
  else RangeError.

(** The sell order of the specification: price 100, volume 50, minimum 1. *)
Definition ore_order : Order := mkOrder 1 60 false 100 50 1 "region".

(** A buy order in range and one whose range check raises. *)
Definition station_bid : Order := mkOrder 34 60 true 100 50 1 "station".
Definition citadel_bid : Order := mkOrder 34 61 true 101 50 1 "citadel".

(** One ore (type 1, portion 100) refined into one material (type 34, four
    units a portion), with a best ask of 105 and a best bid of 100. *)
Definition example_snapshot : DataFrame :=
  [ mkOrder 1 60 false 1 250 1 "region";
    mkOrder 34 60 false 105 500 1 "region";
    mkOrder 34 61 true 101 10000 1 "citadel";
    mkOrder 34 60 true 100 10000 1 "station" ].

(** The same market with ore offered for nothing and no ask for the
    material. *)
Definition free_ore_snapshot : DataFrame :=
  [ mkOrder 1 60 false 0 100 1 "region";
    mkOrder 34 60 true 100 10000 1 "station" ].

Definition example_types : dict SourceType :=
  [(1, mkSourceType 1 "Veldspar" 100 [(34, mkMaterial 34 4)])].

Definition example_summary : list SummaryRow := [mkSummary 34 100000].

(** Three opportunities of one type, five minutes apart. *)
Definition example_opportunity : Opportunity :=
  mkOpportunity 2 1 1 (Finite 1) [] [].

Definition three_in_a_row : list found :=
  [ mkFound example_opportunity 0 "Veldspar";
    mkFound example_opportunity 300 "Veldspar";
    mkFound example_opportunity 600 "Veldspar" ].

(** Three opportunities of one type that are not in time order. *)
Definition out_of_order : list found :=
  [ mkFound example_opportunity 600 "Veldspar";
    mkFound example_opportunity 0 "Veldspar";
    mkFound example_opportunity 420 "Veldspar" ].

(** Opportunities of two types as the scanner lists them, in time order. *)
Definition scanned_opportunities : list found :=
  [ mkFound example_opportunity 0 "Veldspar";
    mkFound example_opportunity 100 "Scordite";
    mkFound example_opportunity 300 "Veldspar";
    mkFound example_opportunity 900 "Veldspar";
    mkFound example_opportunity 1000 "Scordite" ].

(** The source type of [example_types] and the state of one round. *)
Definition example_source : SourceType :=
  mkSourceType 1 "Veldspar" 100 [(34, mkMaterial 34 4)].

Definition example_spreads : dict spread :=
  [(34, mkSpread (5 # 100) (Some 100%Q) (Some 105%Q))].

Definition example_store : heap :=
  [mkOrder 1 60 false 1 250 1 "region"; station_bid].

(** Totals of a loop that recorded one round of gross 198 and cost 0. *)
Definition free_ore_totals : locals :=
  mkLocals [] [(34, [mkRecord 100 2 true])] [] []
           [mkRecord 0 100 true] 198 0.


(** ** Orders of a report *)

(** The place of two records of different prices in a list sorted by
    [sorted(..., reverse=reverse)]. *)
Definition price_before (reverse : bool) (x y : order_record) : Prop :=
  if reverse then (rec_price y < rec_price x)%Q
  else (rec_price x < rec_price y)%Q.

(** ** Runs of opportunities *)

(** Times that are each more than five minutes after the one before,
    [prev] being the time before the first. *)
Fixpoint spaced (prev : option Z) (times : list Z) : bool :=
  match times with
  | [] => true
  | i :: rest =>
      match prev with
      | Some l => (five_minutes <? i - l) && spaced (Some i) rest
      | None => spaced (Some i) rest
      end
  end.

(** ** Orders of the book after a match *)

(** [o'] is [o] with a volume that is not larger, and not negative unless
    the volume of [o] was. *)
Definition lowered (o o' : Order) : Prop :=
  o' = set_volume o (volume o') /\
  volume o' <= volume o /\
  (0 <= volume o -> 0 <= volume o').

(** A range checker that finds every order in range. *)
Definition everywhere (region location order_location : Z) (range : string)
    : range_check := InRange.

(** ** Money and volume of the orders of a report *)

(** The total of [f] over the values of a dict. *)
Definition dict_sum {V : Type} (f : V -> Q) (d : dict V) : Q :=
  foldr (fun kv acc => (f (snd kv) + acc)%Q) 0%Q d.

(** The value of the sales of all materials. *)
Definition sales_value (d : dict (list order_record)) : Q :=
  dict_sum order_value d.

(** What a list of sales brings in: each record its [price * volume] less
    the sales tax, and less the broker fee as well when it is a limit
    order. *)
Definition proceeds (tax_rate broker_fee : Q) (l : list order_record) : Q :=
  foldr (fun x acc =>
           ((if market x then 1 - tax_rate else 1 - tax_rate - broker_fee)
            * (rec_price x * rec_volume x) + acc)%Q) 0%Q l.

Definition sales_proceeds (tax_rate broker_fee : Q)
    (d : dict (list order_record)) : Q :=
  dict_sum (proceeds tax_rate broker_fee) d.

(** Whether a material is sold with limit orders:
    [spread_data[m]['spread_return'] > limit_threshold]. *)
Definition sells_with_limit (threshold : Q) (spreads : dict spread) (m : Z)
    : bool :=
  match dict_get spreads m with
  | Some sr => Qltb threshold (spread_value sr)
  | None => false
  end.

(** The records of every material are limit orders when the material is
    sold with limit orders and market orders when it is not. *)
Definition flagged (threshold : Q) (spreads : dict spread)
    (d : dict (list order_record)) : Prop :=
  Forall (fun kv =>
            Forall (fun x =>
                      market x = negb (sells_with_limit threshold spreads
                                                        (fst kv)))
                   (snd kv)) d.

(** ** Volumes of the sales of a material *)

(** [int(type_map[type_id]['material_map'][m]['quantity'] * efficiency)],
    the volume of material [m] that one portion of the source gives. *)
Definition sell_volume_of (source : SourceType) (efficiency : Q) (m : Z) : Z :=
  match dict_get (material_map source) m with
  | Some mat => py_int (inject_Z (quantity mat) * efficiency)
  | None => 0
  end.

(** The volume recorded for material [m] in a dict of sales. *)
Definition sold_volume (d : dict (list order_record)) (m : Z) : Q :=
  match dict_get d m with
  | Some recs => filled_volume recs
  | None => 0%Q
  end.

(** What is left of the limit order budget of material [m]. *)
Definition budget_left (d : dict Q) (m : Z) : Q :=
  match dict_get d m with
  | Some b => b
  | None => 0%Q
  end.

(** The budget a material starts with: the volume of its first row in the
    market summary times [volume_limit]. *)
Definition volume_cap (market_summary : list SummaryRow) (volume_limit : Q)
    (m : Z) : option Q :=
  match head (filter (fun r => summary_type_id r = m) market_summary) with
  | Some row => Some (inject_Z (summary_volume row) * volume_limit)%Q
  | None => None
  end.

(** One sale of material [m], with the budgets before and after it: a sale
    with limit orders has a positive volume within the volume of a portion
    and within the budget, which it lowers by its volume; a sale to the
    market has the volume of a portion and leaves the budget alone. *)
Definition sale_within (threshold : Q) (spreads : dict spread)
    (source : SourceType) (efficiency : Q) (budgets budgets' : dict Q)
    (m : Z) (recs : list order_record) : Prop :=
  let sv := inject_Z (sell_volume_of source efficiency m) in
  if sells_with_limit threshold spreads m then
    exists budget b',
      dict_get budgets m = Some budget /\ dict_get budgets' m = Some b' /\
      (0 < filled_volume recs)%Q /\ (filled_volume recs <= sv)%Q /\
      (filled_volume recs <= budget)%Q /\
      (b' == budget - filled_volume recs)%Q
  else
    (filled_volume recs == sv)%Q /\ dict_get budgets' m = dict_get budgets m.

(** The sales and the budget of material [m] after [n] recorded rounds,
    [l] being the state before them and [l'] the state after. *)
Definition material_after (threshold : Q) (spreads : dict spread)
    (source : SourceType) (efficiency : Q) (n : nat) (l l' : locals)
    (m : Z) : Prop :=
  let sv := inject_Z (sell_volume_of source efficiency m) in
  let rounds_done := inject_Z (Z.of_nat n) in
  let sold := sold_volume (all_sell_orders l) m in
  let sold' := sold_volume (all_sell_orders l') m in
  if sells_with_limit threshold spreads m then
    (sold' <= sold + rounds_done * sv)%Q /\
    (sold' + budget_left (limit_order_max l') m
     == sold + budget_left (limit_order_max l) m)%Q /\
    (n <> 0%nat -> (0 <= budget_left (limit_order_max l') m)%Q)
  else (sold' == sold + rounds_done * sv)%Q.

(** ** More example data *)

(** An order book of two snapshots, five minutes apart, each with the rows
    of [example_snapshot]. *)
Definition example_book : list (Z * Order) :=
  map (pair 300) example_snapshot ++ map (pair 0) example_snapshot.

(** A sell order with a minimum volume of 80 and one that is sold out. *)
Definition block_order : Order := mkOrder 1 60 false 90 500 80 "region".
Definition spent_order : Order := mkOrder 1 60 false 80 0 1 "region".

(** ** Runs that do not raise *)

(** [c] never raises, and what it returns satisfies [P]. *)
Definition returns {A : Type} (P : A -> Prop) (c : M A) : Prop :=
  forall h, match fst (c h) with
            | Ok a => P a
            | Raise _ => False
            | OutOfFuel => True
            end.

(** A spread structure without a best ask is the neutral one: its spread
    is zero. *)
Definition spread_priced (sr : spread) : Prop :=
  best_ask sr = None -> spread_value sr = 0%Q.

(** The dicts of the attempter are filled for the same materials, which
    are materials of the source type, and every spread structure is as
    [spread_return] builds it. *)
Definition ready (source : SourceType) (l : locals) : Prop :=
  keys (spread_data l) = keys (buy_order_map l) /\
  keys (limit_order_max l) = keys (buy_order_map l) /\
  keys (all_sell_orders l) = keys (buy_order_map l) /\
  NoDup (keys (buy_order_map l)) /\
  Forall (fun kv => spread_priced (snd kv)) (spread_data l) /\
  (forall k, k ∈ keys (buy_order_map l) ->
             exists mat, dict_get (material_map source) k = Some mat).

(** [c] returns a result on every store. *)
Definition completes {A : Type} (c : M A) : Prop :=
  forall h, exists a h', c h = (Ok a, h').

Section Strategy.

(** [TradingUtil.check_range(region, location, order_location, order_range, config)] *)
Variable check_range : Z -> Z -> Z -> string -> range_check.

(** ** Order matcher *)

(** The loop of [attempt_buy_type_list]; [buy_volume] and [potential] are
    the loop variables. *)
Fixpoint buy_loop (sell_order_list : list ref) (buy_volume : Z)
    (potential : list order_record) (h : heap) : list order_record * heap :=
  match sell_order_list with
  | [] => ([], h)
  | next_order :: rest =>
      let o := deref h next_order in
      let '(buy_volume, potential, h) :=
        if (min_volume o <=? buy_volume) && (0 <? volume o) then
          let amount := Z.min buy_volume (volume o) in
          let order_record := mkRecord (price o) (inject_Z amount) true in
          (buy_volume - amount, potential ++ [order_record],
           <[next_order := set_volume o (volume o - amount)]> h)
        else (buy_volume, potential, h) in
      if buy_volume =? 0 then (potential, h)
      else buy_loop rest buy_volume potential h
  end.

Definition attempt_buy_type_list (buy_volume : Z) (sell_order_list : list ref)
    (h : heap) : list order_record * heap :=
  buy_loop sell_order_list buy_volume [] h.

(** The [try] block of [attempt_sell_type_list] for one order: [and]
    evaluates the range check last, and the check raises before anything is
    updated. *)
Definition sell_try (sell_region_id sell_location_id : Z) (next_order : ref)
    (sell_volume : Z) (potential : list order_record) (h : heap)
    : outcome (Z * list order_record * heap) :=
  let o := deref h next_order in
  if (min_volume o <=? sell_volume) && (0 <? volume o) then
    match check_range sell_region_id sell_location_id (location_id o)
                      (order_range o) with
    | InRange =>
        let amount := Z.min sell_volume (volume o) in
        let order_record := mkRecord (price o) (inject_Z amount) true in
        Ok (sell_volume - amount, potential ++ [order_record],
            <[next_order := set_volume o (volume o - amount)]> h)
    | NotInRange => Ok (sell_volume, potential, h)
    | RangeError => Raise RangeCheckError
    end
  else Ok (sell_volume, potential, h).

Fixpoint sell_loop (sell_region_id sell_location_id : Z)
    (buy_order_list : list ref) (sell_volume : Z)
    (potential : list order_record) (h : heap) : list order_record * heap :=
  match buy_order_list with
  | [] => ([], h)
  | next_order :: rest =>
      let '(sell_volume, potential, h) :=
        match sell_try sell_region_id sell_location_id next_order
                       sell_volume potential h with
        | Ok s => s
        | _ => (sell_volume, potential, h)   (* except: pass *)
        end in
      if sell_volume =? 0 then (potential, h)
      else sell_loop sell_region_id sell_location_id rest sell_volume
                     potential h
  end.

Definition attempt_sell_type_list (sell_region_id sell_location_id : Z)
    (sell_volume : Z) (buy_order_list : list ref) (h : heap)
    : list order_record * heap :=
  sell_loop sell_region_id sell_location_id buy_order_list sell_volume [] h.

(** ** Spread evaluator *)

(** The [try] block of the best bid search for one order. *)
Definition bid_try (region_id station_id : Z) (next_order : ref) (h : heap)
    : outcome (option Q) :=
  let o := deref h next_order in
  match check_range region_id station_id (location_id o) (order_range o) with
  | InRange => Ok (Some (price o))
  | NotInRange => Ok None
  | RangeError => Raise RangeCheckError
  end.

Fixpoint best_bid_loop (region_id station_id : Z) (buy_orders : list ref)
    (h : heap) : option Q :=
  match buy_orders with
  | [] => None
  | next_order :: rest =>
      match bid_try region_id station_id next_order h with
      | Ok (Some bid) => Some bid                       (* break *)
      | _ => best_bid_loop region_id station_id rest h  (* except: pass *)
      end
  end.

(** [dict(spread_return=0, best_bid=None, best_ask=None)] *)
Definition neutral_spread : spread := mkSpread 0%Q None None.

(** Prices read from a [Series] are Python floats: dividing by a zero best
    bid raises. *)
Definition spread_return (snapshot : DataFrame)
    (type_id station_id region_id : Z) : M spread :=
  sell_orders <- call (extract_sell_orders snapshot type_id station_id) ;;
  match sell_orders with
  | [] => ret neutral_spread
  | first :: _ =>
      ask <- read (fun h => price (deref h first)) ;;
      buy_orders <- call (extract_buy_orders snapshot type_id) ;;
      found_bid <- read (best_bid_loop region_id station_id buy_orders) ;;
      match found_bid with
      | None => ret neutral_spread
      | Some bid =>
          if Qeq_bool bid 0 then raise ZeroDivisionError
          else ret (mkSpread ((ask - bid) / bid)%Q (Some bid) (Some ask))
      end
  end.

(** ** Opportunity attempter *)

(** [limit_threshold = broker_fee / (1 - tax_rate - broker_fee)] *)
Definition limit_threshold (tax_rate broker_fee : Q) : Q :=
  (broker_fee / (1 - tax_rate - broker_fee))%Q.

(** [for i in sell_orders.keys(): all_sell_orders[i].extend(sell_orders[i])];
    [None] is a KeyError. *)
Fixpoint extend_all (all_sell : dict (list order_record))
    (sell_orders : dict (list order_record))
    : option (dict (list order_record)) :=
  match sell_orders with
  | [] => Some all_sell
  | (i, sold) :: rest =>
      match dict_get all_sell i with
      | None => None
      | Some l => extend_all (dict_set all_sell i (l ++ sold)) rest
      end
  end.

Section Attempt.

Variable snapshot : DataFrame.
Variables type_id region_id station_id : Z.
Variable type_map : dict SourceType.
Variables tax_rate efficiency station_tax broker_fee : Q.
Variable market_summary : list SummaryRow.
Variable volume_limit : Q.

(** The first loop, over [material_map.values()]. *)
Fixpoint setup_materials (mats : list TypeMaterial) (l : locals) : M locals :=
  match mats with
  | [] => ret l
  | next_mat :: rest =>
      let mat_type_id := materialTypeID next_mat in
      orders <- call (extract_buy_orders snapshot mat_type_id) ;;
      row <- lookup_or IndexError
               (head (filter (fun r => summary_type_id r = mat_type_id)
                             market_summary)) ;;
      sr <- spread_return snapshot mat_type_id station_id region_id ;;
      setup_materials rest
        (mkLocals
           (dict_set (buy_order_map l) mat_type_id orders)
           (dict_set (all_sell_orders l) mat_type_id [])
           (dict_set (limit_order_max l) mat_type_id
                     (inject_Z (summary_volume row) * volume_limit)%Q)
           (dict_set (spread_data l) mat_type_id sr)
           (all_buy_orders l) (gross_total l) (cost_total l))
  end.

Section Rounds.

Variable threshold : Q.
Variable source : SourceType.
Variable required_volume : Z.
Variable sell_order_list : list ref.
Variable buy_orders_of : dict (list ref).
Variable spreads : dict spread.

(** The sale of one refined material: whether limit orders were chosen,
    the list [sold] and the limit order budgets.  A limit order priced at a
    missing best ask makes the later [x['price'] * x['volume']] a
    TypeError. *)
Definition sell_material (next_mat_id : Z) (budgets : dict Q)
    : M (bool * list order_record * dict Q) :=
  sr_data <- lookup_or KeyError (dict_get spreads next_mat_id) ;;
  let limit_sell := Qltb threshold (spread_value sr_data) in
  mat <- lookup_or KeyError (dict_get (material_map source) next_mat_id) ;;
  let sell_volume := py_int (inject_Z (quantity mat) * efficiency)%Q in
  if limit_sell then
    budget <- lookup_or KeyError (dict_get budgets next_mat_id) ;;
    let amount := py_min (inject_Z sell_volume) budget in
    if Qltb 0 amount then
      ask <- lookup_or TypeError (best_ask sr_data) ;;
      ret (true, [mkRecord ask amount false],
           dict_set budgets next_mat_id (budget - amount)%Q)
    else ret (true, [], budgets)
  else
    orders <- lookup_or KeyError (dict_get buy_orders_of next_mat_id) ;;
    sold <- call (attempt_sell_type_list region_id station_id sell_volume
                                         orders) ;;
    ret (false, sold, budgets).

(** The loop over [buy_order_map.keys()].  The result is [None] after the
    [break] that leaves [sell_orders = []]. *)
Fixpoint sell_materials (mat_ids : list Z) (current_gross current_cost : Q)
    (sell_orders : dict (list order_record)) (budgets : dict Q)
    : M (option (Q * Q * dict (list order_record)) * dict Q) :=
  match mat_ids with
  | [] => ret (Some (current_gross, current_cost, sell_orders), budgets)
  | next_mat_id :: rest =>
      r <- sell_material next_mat_id budgets ;;
      let '(limit_sell, sold, budgets) := r in
      match sold with
      | [] => ret (None, budgets)
      | _ :: _ =>
          let gross_ratio :=
            (if limit_sell then 1 - tax_rate - broker_fee
             else 1 - tax_rate)%Q in
          sell_materials rest
            (current_gross + gross_ratio * order_value sold)%Q
            (current_cost + station_tax * order_value sold)%Q
            (dict_set sell_orders next_mat_id sold) budgets
      end
  end.

(** What one pass of the [while True] loop decides: one of its three
    [break]s, or a round to record. *)
Inductive round : Type :=
  | NoPurchase
  | NoSale
  | NoProfit (current_gross current_cost : Q)
  | Profitable (bought : list order_record)
               (sell_orders : dict (list order_record))
               (current_gross current_cost : Q) (budgets : dict Q).

(** One pass of the [while True] loop up to the profit test. *)
Definition attempt_round (budgets : dict Q) : M round :=
  bought <- call (attempt_buy_type_list required_volume sell_order_list) ;;
  match bought with
  | [] => ret NoPurchase
  | _ :: _ =>
      r <- sell_materials (keys buy_orders_of) 0%Q (order_value bought) []
                          budgets ;;
      match r with
      | (None, _) => ret NoSale
      | (Some (_, _, []), _) => ret NoSale
      | (Some (current_gross, current_cost, sell_orders), budgets) =>
          if Qltb current_cost current_gross
          then ret (Profitable bought sell_orders current_gross current_cost
                               budgets)
          else ret (NoProfit current_gross current_cost)
      end
  end.

(** Recording a profitable round. *)
Definition commit (l : locals) (bought : list order_record)
    (sell_orders : dict (list order_record)) (current_gross current_cost : Q)
    (budgets : dict Q) : M locals :=
  all_sell <- lookup_or KeyError (extend_all (all_sell_orders l) sell_orders) ;;
  ret (mkLocals (buy_order_map l) all_sell budgets (spread_data l)
                (all_buy_orders l ++ bought)
                (gross_total l + current_gross)%Q
                (cost_total l + current_cost)%Q).

(** The [while True] loop. *)
Fixpoint rounds (fuel : nat) (l : locals) : M locals :=
  match fuel with
  | O => out_of_fuel
  | S fuel =>
      r <- attempt_round (limit_order_max l) ;;
      match r with
      | Profitable bought sell_orders current_gross current_cost budgets =>
          l <- commit l bought sell_orders current_gross current_cost budgets ;;
          rounds fuel l
      | _ => ret l                                       (* break *)
      end
  end.

End Rounds.

(** The report built once the loop has ended. *)
Definition report (l : locals) : option Opportunity :=
  let gross := gross_total l in
  let cost := cost_total l in
  if Qltb cost gross then
    Some (mkOpportunity gross cost (gross - cost)%Q
            (np_div (gross - cost) cost)
            (compress_order_list (all_buy_orders l) true)
            (map (fun kv => (fst kv, compress_order_list (snd kv) false))
                 (all_sell_orders l)))
  else None.

(** [attempt_opportunity] up to the end of its [while True] loop.
    [tax_rate] and [broker_fee] are Python floats: a zero divisor raises. *)
Definition attempt_loop (fuel : nat) : M locals :=
  if Qeq_bool (1 - tax_rate - broker_fee) 0 then raise ZeroDivisionError
  else
    source <- lookup_or KeyError (dict_get type_map type_id) ;;
    let required_volume := portionSize source in
    sell_order_list <- call (extract_sell_orders snapshot type_id station_id) ;;
    l <- setup_materials (values (material_map source))
                         (mkLocals [] [] [] [] [] 0%Q 0%Q) ;;
    rounds (limit_threshold tax_rate broker_fee) source required_volume
           sell_order_list (buy_order_map l) (spread_data l) fuel l.

Definition attempt_opportunity (fuel : nat) : M (option Opportunity) :=
  l <- attempt_loop fuel ;;
  ret (report l).

End Attempt.

(** ** Opportunity scanner *)

(** [order_book.groupby(order_book.index)]: the snapshots in increasing
    time order, each with its rows in the order of the book. *)
Fixpoint insert_key (k : Z) (ks : list Z) : list Z :=
  match ks with
  | [] => [k]
  | k' :: rest =>
      if k <? k' then k :: ks
      else if k =? k' then ks
      else k' :: insert_key k rest
  end.

Definition groupby (order_book : list (Z * Order)) : list (Z * DataFrame) :=
  map (fun k => (k, map snd (filter (fun r => fst r = k) order_book)))
      (foldr insert_key [] (map fst order_book)).

Section Scanner.

Variable order_book : list (Z * Order).
Variable type_map : dict SourceType.
Variables station_id region_id : Z.
Variables efficiency sales_tax station_tax broker_fee : Q.
Variable market_summary : list SummaryRow.
Variable volume_limit : Q.
Variable fuel : nat.

(** The loop over [type_map.values()] for one snapshot. *)
Fixpoint scan_types (snapshot_time : Z) (snapshot : DataFrame)
    (source_types : list SourceType) (opportunities : list found)
    : M (list found) :=
  match source_types with
  | [] => ret opportunities
  | source_type :: rest =>
      o <- attempt_opportunity snapshot (typeID source_type) region_id
             station_id type_map sales_tax efficiency station_tax broker_fee
             market_summary volume_limit fuel ;;
      match o with
      | Some o =>
          scan_types snapshot_time snapshot rest
            (opportunities ++ [mkFound o snapshot_time (typeName source_type)])
      | None => scan_types snapshot_time snapshot rest opportunities
      end
  end.

(** The loop over the snapshots. *)
Fixpoint scan_snapshots (groups : list (Z * DataFrame))
    (opportunities : list found) : M (list found) :=
  match groups with
  | [] => ret opportunities
  | snapshot_group :: rest =>
      opportunities <- scan_types (fst snapshot_group) (snd snapshot_group)
                                  (values type_map) opportunities ;;
      scan_snapshots rest opportunities
  end.

Definition find_opportunities : M (list found) :=
  scan_snapshots (groupby order_book) [].

End Scanner.

(** ** Specification functions *)

(** The volume still to fill once every order of the list has been offered
    the remaining volume, whether or not the matcher stopped before. *)
Fixpoint buy_remaining (sell_order_list : list ref) (buy_volume : Z)
    (h : heap) : Z :=
  match sell_order_list with
  | [] => buy_volume
  | next_order :: rest =>
      let o := deref h next_order in
      if (min_volume o <=? buy_volume) && (0 <? volume o) then
        let amount := Z.min buy_volume (volume o) in
        buy_remaining rest (buy_volume - amount)
          (<[next_order := set_volume o (volume o - amount)]> h)
      else buy_remaining rest buy_volume h
  end.

(** Whether a buy order takes part of the volume offered to it: its minimum
    volume is met, it has volume left and its range covers the seller. *)
Definition sell_accepts (sell_region_id sell_location_id sell_volume : Z)
    (o : Order) : bool :=
  (min_volume o <=? sell_volume) && (0 <? volume o) &&
  match check_range sell_region_id sell_location_id (location_id o)
                    (order_range o) with
  | InRange => true
  | _ => false
  end.

Fixpoint sell_remaining (sell_region_id sell_location_id : Z)
    (buy_order_list : list ref) (sell_volume : Z) (h : heap) : Z :=
  match buy_order_list with
  | [] => sell_volume
  | next_order :: rest =>
      let o := deref h next_order in
      if sell_accepts sell_region_id sell_location_id sell_volume o then
        let amount := Z.min sell_volume (volume o) in
        sell_remaining sell_region_id sell_location_id rest
          (sell_volume - amount)
          (<[next_order := set_volume o (volume o - amount)]> h)
      else
        sell_remaining sell_region_id sell_location_id rest sell_volume h
  end.

(** The range checker with every failure turned into "not in range". *)
Definition swallow (r : range_check) : range_check :=
  match r with
  | RangeError => NotInRange
  | r => r
  end.

(** Total of the volumes the orders of a list still offer. *)
Definition available (h : heap) (orders : list ref) : Z :=
  foldr (fun r acc => Z.max 0 (volume (deref h r)) + acc) 0 orders.

(** The same total for the rows of a DataFrame. *)
Definition offered (rows : DataFrame) : Z :=
  foldr (fun o acc => Z.max 0 (volume o) + acc) 0 rows.

(** ** Running a computation behind older objects

    [p] holds the objects that exist before a computation starts.  The
    computation started on [p ++ k] is compared with the one started on [k]:
    every reference it creates or receives is moved by [length p]. *)

Definition shift_list (p : heap) (l : list ref) : list ref :=
  map (Nat.add (length p)) l.

Definition shift_dict (p : heap) (d : dict (list ref)) : dict (list ref) :=
  map (fun kv => (fst kv, shift_list p (snd kv))) d.

Definition shift_locals (p : heap) (l : locals) : locals :=
  mkLocals (shift_dict p (buy_order_map l)) (all_sell_orders l)
           (limit_order_max l) (spread_data l) (all_buy_orders l)
           (gross_total l) (cost_total l).

Definition outcome_map {A B : Type} (f : A -> B) (r : outcome A) : outcome B :=
  match r with
  | Ok a => Ok (f a)
  | Raise e => Raise e
  | OutOfFuel => OutOfFuel
  end.

(** [c1] on a store that starts with [p] does what [c2] does without [p],
    leaves [p] as it is, and returns the result of [c2] moved by [sh]. *)
Definition framed {A : Type} (p : heap) (sh : A -> A) (c1 c2 : M A) : Prop :=
  forall k : heap,
    c1 (p ++ k) = (outcome_map sh (fst (c2 k)), p ++ snd (c2 k)).

(** ** Frames and termination *)

(** The objects of [orders] are the same in [h'] as in [h]. *)
Definition keeps (orders : list ref) (h h' : heap) : Prop :=
  forall r, r ∈ orders -> deref h' r = deref h r.

(** Every run of [c] relates the store it starts on to the one it leaves. *)
Definition preserves {A : Type} (P : heap -> heap -> Prop) (c : M A) : Prop :=
  forall h, P h (snd (c h)).

(** [c] ends without asking for more fuel. *)
Definition finishes {A : Type} (c : M A) : Prop :=
  forall h, fst (c h) <> OutOfFuel.

(** The rows [extract_sell_orders] turns into objects. *)
Definition sell_rows (snapshot : DataFrame) (type_id station_id : Z)
    : DataFrame :=
  filter (fun o => buy o = false)
    (filter (fun o => location_id o = station_id)
       (filter (fun o => order_type_id o = type_id) snapshot)).

(** Passes of the [while True] loop that are enough for a source type to
    run dry: each recorded round buys [portionSize] units. *)
Definition enough_fuel (snapshot : DataFrame) (type_id station_id : Z) : nat :=
  S (Z.to_nat (offered (sell_rows snapshot type_id station_id))).

(** ** Deduplication, in words *)

(** The times of a list that start a run: the first one, and every one more
    than five minutes after the time before it; [last] is the time before
    the list. *)
Fixpoint run_starts (last : option Z) (times : list Z) : list Z :=
  match times with
  | [] => []
  | i :: rest =>
      match last with
      | Some l =>
          if five_minutes <? i - l then i :: run_starts (Some i) rest
          else run_starts (Some i) rest
      | None => i :: run_starts (Some i) rest
      end
  end.

(** Deduplication against the opportunity of the same type seen last,
    retained or not. *)
Fixpoint dedup_after_previous (last_seen : gmap string Z) (opps : list found)
    : list found :=
  match opps with
  | [] => []
  | o :: rest =>
      match last_seen !! type o with
      | Some t =>
          if five_minutes <? time o - t
          then o :: dedup_after_previous (<[type o := time o]> last_seen) rest
          else dedup_after_previous (<[type o := time o]> last_seen) rest
      | None => o :: dedup_after_previous (<[type o := time o]> last_seen) rest
      end
  end.

(** Deduplication as the specification words it, against the opportunity of
    the same type retained last: an opportunity within five minutes of it
    is dropped. *)
Fixpoint dedup_after_retained (last_kept : gmap string Z) (opps : list found)
    : list found :=
  match opps with
  | [] => []
  | o :: rest =>
      match last_kept !! type o with
      | Some t =>
          if five_minutes <? time o - t
          then o :: dedup_after_retained (<[type o := time o]> last_kept) rest
          else dedup_after_retained last_kept rest
      | None => o :: dedup_after_retained (<[type o := time o]> last_kept) rest
      end
  end.

(** The time before what follows a list. *)
Definition time_before (prev : option Z) (times : list Z) : option Z :=
  match last times with
  | Some t => Some t
  | None => prev
  end.

(** Strictly increasing times, as a test. *)
Fixpoint increasing (times : list Z) : bool :=
  match times with
  | [] => true
  | x :: rest =>
      match rest with
      | [] => true
      | y :: _ => (x <? y) && increasing rest
      end
  end.

(** The opportunities of every type are in strictly increasing time order,
    as the scanner lists them. *)
Definition increasing_per_type (opps : list found) : bool :=
  forallb (fun ty => increasing (times_of ty opps)) (map type opps).


(** An order that a request for up to [top] units leaves aside: its minimum
    volume is above [top], it has no volume left, or the range check does
    not answer that the seller is in range. *)
Definition out_of_reach (sell_region_id sell_location_id top : Z) (o : Order)
    : Prop :=
  top < min_volume o \/ volume o <= 0 \/
  check_range sell_region_id sell_location_id (location_id o) (order_range o)
  <> InRange.

(** The rows [extract_buy_orders] turns into objects. *)
Definition buy_rows (snapshot : DataFrame) (type_id : Z) : DataFrame :=
  filter (fun o => buy o = true)
    (filter (fun o => order_type_id o = type_id) snapshot).

(** The price of the first row whose range check answers that the station
    is in range; a row whose check answers no, or raises, is passed over. *)
Fixpoint first_in_range (region_id station_id : Z) (rows : DataFrame)
    : option Q :=
  match rows with
  | [] => None
  | o :: rest =>
      match check_range region_id station_id (location_id o)
                        (order_range o) with
      | InRange => Some (price o)
      | _ => first_in_range region_id station_id rest
      end
  end.

(** The entry the scanner lists for a snapshot and a source type: the
    opportunity an attempt on that snapshot returns, if it returns one,
    with the time of the snapshot and the name of the type. *)
Definition scan_entry (type_map : dict SourceType) (station_id region_id : Z)
    (efficiency sales_tax station_tax broker_fee : Q)
    (market_summary : list SummaryRow) (volume_limit : Q) (fuel : nat)
    (snapshot_group : Z * DataFrame) (source_type : SourceType)
    : option found :=
  match fst (attempt_opportunity (snd snapshot_group) (typeID source_type)
               region_id station_id type_map sales_tax efficiency
               station_tax broker_fee market_summary volume_limit fuel [])
  with
  | Ok (Some o) =>
      Some (mkFound o (fst snapshot_group) (typeName source_type))
  | _ => None
  end.

(** * Properties *)

(** ** Order matcher *)

Lemma filled_volume_app (a b : list order_record) :
  (filled_volume (a ++ b) == filled_volume a + filled_volume b)%Q.
Proof.
  induction a as [|x a IH]; simpl.
  - ring.
  - rewrite IH. ring.
Qed.

Lemma filled_volume_snoc (a : list order_record) (p : Q) (n : Z) (m : bool) :
  (filled_volume (a ++ [mkRecord p (inject_Z n) m])
   == filled_volume a + inject_Z n)%Q.
Proof. rewrite filled_volume_app. simpl. ring. Qed.

Lemma buy_loop_filled (l : list ref) :
  forall (v : Z) (pot : list order_record) (h : heap),
    fst (buy_loop l v pot h) <> [] ->
    (filled_volume (fst (buy_loop l v pot h))
     == filled_volume pot + inject_Z v)%Q.
Proof.
  induction l as [|r l IH]; intros v pot h; simpl.
  - intros H. now contradiction H.
  - destruct ((min_volume (deref h r) <=? v) && (0 <? volume (deref h r)))
      eqn:Hc.
    + destruct (v - Z.min v (volume (deref h r)) =? 0) eqn:Hz; simpl.
      * intros _. apply Z.eqb_eq in Hz.
        rewrite filled_volume_snoc.
        replace (Z.min v (volume (deref h r))) with v by lia.
        reflexivity.
      * intros H. rewrite (IH _ _ _ H), filled_volume_snoc.
        rewrite <- Qplus_assoc, <- inject_Z_plus.
        now replace (Z.min v (volume (deref h r))
                     + (v - Z.min v (volume (deref h r)))) with v by lia.
    + destruct (v =? 0) eqn:Hz; simpl.
      * intros _. apply Z.eqb_eq in Hz. subst v. simpl. ring.
      * apply IH.
Qed.

Lemma buy_remaining_zero (l : list ref) :
  forall h : heap, buy_remaining l 0 h = 0.
Proof.
  induction l as [|r l IH]; intros h; simpl; [reflexivity|].
  destruct ((min_volume (deref h r) <=? 0) && (0 <? volume (deref h r)))
    eqn:Hc; [|apply IH].
  apply andb_prop in Hc as [_ Hv]. apply Z.ltb_lt in Hv.
  replace (0 - Z.min 0 (volume (deref h r))) with 0 by lia.
  apply IH.
Qed.

Lemma buy_loop_exhausted (l : list ref) :
  forall (v : Z) (pot : list order_record) (h : heap),
    buy_remaining l v h <> 0 -> fst (buy_loop l v pot h) = [].
Proof.
  induction l as [|r l IH]; intros v pot h; simpl; [reflexivity|].
  destruct ((min_volume (deref h r) <=? v) && (0 <? volume (deref h r))).
  - destruct (v - Z.min v (volume (deref h r)) =? 0) eqn:Hz.
    + apply Z.eqb_eq in Hz. rewrite Hz, buy_remaining_zero.
      intros H. now contradiction H.
    + apply IH.
  - destruct (v =? 0) eqn:Hz.
    + apply Z.eqb_eq in Hz. subst v. rewrite buy_remaining_zero.
      intros H. now contradiction H.
    + apply IH.
Qed.

Lemma sell_loop_cons (region location : Z) (r : ref) (l : list ref) (v : Z)
    (pot : list order_record) (h : heap) :
  sell_loop region location (r :: l) v pot h =
  if sell_accepts region location v (deref h r) then
    let amount := Z.min v (volume (deref h r)) in
    let pot' := pot ++ [mkRecord (price (deref h r)) (inject_Z amount) true] in
    let h' := <[r := set_volume (deref h r) (volume (deref h r) - amount)]> h in
    if v - amount =? 0 then (pot', h')
    else sell_loop region location l (v - amount) pot' h'
  else if v =? 0 then (pot, h)
  else sell_loop region location l v pot h.
Proof.
  simpl. unfold sell_try, sell_accepts.
  destruct ((min_volume (deref h r) <=? v) && (0 <? volume (deref h r)));
    simpl; [|reflexivity].
  now destruct (check_range region location (location_id (deref h r))
                            (order_range (deref h r))).
Qed.

Lemma sell_accepts_volume (region location v : Z) (o : Order) :
  sell_accepts region location v o = true -> 0 < volume o.
Proof.
  unfold sell_accepts. intros H.
  apply andb_prop in H as [H _]. apply andb_prop in H as [_ H].
  now apply Z.ltb_lt.
Qed.

Lemma sell_loop_filled (region location : Z) (l : list ref) :
  forall (v : Z) (pot : list order_record) (h : heap),
    fst (sell_loop region location l v pot h) <> [] ->
    (filled_volume (fst (sell_loop region location l v pot h))
     == filled_volume pot + inject_Z v)%Q.
Proof.
  induction l as [|r l IH]; intros v pot h.
  - simpl. intros H. now contradiction H.
  - rewrite sell_loop_cons.
    destruct (sell_accepts region location v (deref h r)) eqn:Hc; cbv zeta.
    + destruct (v - Z.min v (volume (deref h r)) =? 0) eqn:Hz; simpl.
      * intros _. apply Z.eqb_eq in Hz.
        rewrite filled_volume_snoc.
        replace (Z.min v (volume (deref h r))) with v by lia.
        reflexivity.
      * intros H. rewrite (IH _ _ _ H), filled_volume_snoc.
        rewrite <- Qplus_assoc, <- inject_Z_plus.
        now replace (Z.min v (volume (deref h r))
                     + (v - Z.min v (volume (deref h r)))) with v by lia.
    + destruct (v =? 0) eqn:Hz; simpl.
      * intros _. apply Z.eqb_eq in Hz. subst v. simpl. ring.
      * apply IH.
Qed.

Lemma sell_remaining_zero (region location : Z) (l : list ref) :
  forall h : heap, sell_remaining region location l 0 h = 0.
Proof.
  induction l as [|r l IH]; intros h; simpl; [reflexivity|].
  destruct (sell_accepts region location 0 (deref h r)) eqn:Hc; [|apply IH].
  apply sell_accepts_volume in Hc.
  replace (0 - Z.min 0 (volume (deref h r))) with 0 by lia.
  apply IH.
Qed.

Lemma sell_loop_exhausted (region location : Z) (l : list ref) :
  forall (v : Z) (pot : list order_record) (h : heap),
    sell_remaining region location l v h <> 0 ->
    fst (sell_loop region location l v pot h) = [].
Proof.
  induction l as [|r l IH]; intros v pot h; [reflexivity|].
  rewrite sell_loop_cons. simpl sell_remaining.
  destruct (sell_accepts region location v (deref h r)); cbv zeta.
  - destruct (v - Z.min v (volume (deref h r)) =? 0) eqn:Hz.
    + apply Z.eqb_eq in Hz. rewrite Hz, sell_remaining_zero.
      intros H. now contradiction H.
    + apply IH.
  - destruct (v =? 0) eqn:Hz.
    + apply Z.eqb_eq in Hz. subst v. rewrite sell_remaining_zero.
      intros H. now contradiction H.
    + apply IH.
Qed.

(** Writing a smaller volume into an object cannot raise what a list of
    orders offers. *)
Lemma available_insert_le (h : heap) (r : ref) (o : Order) (l : list ref) :
  volume o <= volume (deref h r) ->
  available (<[r := o]> h) l <= available h l.
Proof.
  intros Hle. induction l as [|r' l IH]; simpl; [lia|].
  assert (volume (deref (<[r := o]> h) r') <= volume (deref h r')).
  { unfold deref in *. rewrite list_lookup_total_insert.
    destruct (decide (r = r' /\ (r < length h)%nat)) as [[-> _]|_]; lia. }
  lia.
Qed.

Lemma buy_remaining_short (l : list ref) :
  forall (v : Z) (h : heap),
    0 <= v -> v - available h l <= buy_remaining l v h.
Proof.
  induction l as [|r l IH]; intros v h Hv; simpl; [lia|].
  destruct ((min_volume (deref h r) <=? v) && (0 <? volume (deref h r)))
    eqn:Hc.
  - apply andb_prop in Hc as [_ Hvol]. apply Z.ltb_lt in Hvol.
    set (a := Z.min v (volume (deref h r))).
    pose proof (IH (v - a)
                  (<[r := set_volume (deref h r) (volume (deref h r) - a)]> h))
      as Hrest.
    pose proof (available_insert_le h r
                  (set_volume (deref h r) (volume (deref h r) - a)) l)
      as Hmono.
    simpl in Hmono. lia.
  - pose proof (IH v h Hv). lia.
Qed.

Lemma sell_remaining_short (region location : Z) (l : list ref) :
  forall (v : Z) (h : heap),
    0 <= v -> v - available h l <= sell_remaining region location l v h.
Proof.
  induction l as [|r l IH]; intros v h Hv; simpl; [lia|].
  destruct (sell_accepts region location v (deref h r)) eqn:Hc.
  - apply sell_accepts_volume in Hc.
    set (a := Z.min v (volume (deref h r))).
    pose proof (IH (v - a)
                  (<[r := set_volume (deref h r) (volume (deref h r) - a)]> h))
      as Hrest.
    pose proof (available_insert_le h r
                  (set_volume (deref h r) (volume (deref h r) - a)) l)
      as Hmono.
    simpl in Hmono. lia.
  - pose proof (IH v h Hv). lia.
Qed.

Lemma available_not_negative (h : heap) (l : list ref) : 0 <= available h l.
Proof. induction l as [|r l IH]; simpl; lia. Qed.

(** C1.  The order matcher fills all or nothing: a non empty list of fills
    has volumes that add up to the required volume exactly, and when the
    order list is exhausted with volume still to fill the result is empty;
    so it is when the orders of the list offer less than the required
    volume.  All of it holds for [attempt_buy_type_list] and
    [attempt_sell_type_list], on every order list and every store. *)
Theorem order_matcher_all_or_nothing :
  forall (region location required : Z) (orders : list ref) (h : heap),
    (fst (attempt_buy_type_list required orders h) <> [] ->
     (filled_volume (fst (attempt_buy_type_list required orders h))
      == inject_Z required)%Q) /\
    (0 < buy_remaining orders required h ->
     fst (attempt_buy_type_list required orders h) = []) /\
    (available h orders < required ->
     fst (attempt_buy_type_list required orders h) = []) /\
    (fst (attempt_sell_type_list region location required orders h)
       <> [] ->
     (filled_volume
        (fst (attempt_sell_type_list region location required
                                     orders h))
      == inject_Z required)%Q) /\
    (0 < sell_remaining region location orders required h ->
     fst (attempt_sell_type_list region location required orders h)
     = []) /\
    (available h orders < required ->
     fst (attempt_sell_type_list region location required orders h)
     = []).
Proof.
  intros region location v l h. unfold attempt_buy_type_list,
    attempt_sell_type_list.
  pose proof (available_not_negative h l) as Hav.
  repeat split.
  - intros H. rewrite (buy_loop_filled _ _ _ _ H). simpl. ring.
  - intros H. apply buy_loop_exhausted. lia.
  - intros H. apply buy_loop_exhausted.
    pose proof (buy_remaining_short l v h). lia.
  - intros H. rewrite (sell_loop_filled _ _ _ _ _ _ H). simpl. ring.
  - intros H. apply sell_loop_exhausted. lia.
  - intros H. apply sell_loop_exhausted.
    pose proof (sell_remaining_short region location l v h). lia.
Qed.

(** ** Lists *)

Lemma filter_agree {A : Type} (P Q : A -> Prop)
    `{!forall x, Decision (P x)} `{!forall x, Decision (Q x)} (l : list A) :
  (forall x, x ∈ l -> P x <-> Q x) -> filter P l = filter Q l.
Proof.
  induction l as [|x l IH]; intros Hagree; [reflexivity|].
  rewrite !filter_cons.
  rewrite IH by (intros y Hy; apply Hagree; now apply list_elem_of_further).
  pose proof (Hagree x (list_elem_of_here x l)) as Hx.
  destruct (decide (P x)) as [HP|HP], (decide (Q x)) as [HQ|HQ];
    try reflexivity; tauto.
Qed.


(** ** Dicts *)

Lemma dict_get_set_eq {V : Type} (d : dict V) (k : Z) (v : V) :
  dict_get (dict_set d k v) k = Some v.
Proof.
  induction d as [|[k' v'] d IH]; simpl.
  - now rewrite Z.eqb_refl.
  - destruct (k' =? k) eqn:E; simpl; now rewrite E.
Qed.

Lemma dict_get_set_ne {V : Type} (d : dict V) (k k' : Z) (v : V) :
  k <> k' -> dict_get (dict_set d k v) k' = dict_get d k'.
Proof.
  intros Hne. induction d as [|[k0 v0] d IH]; simpl.
  - destruct (k =? k') eqn:E; [|reflexivity].
    apply Z.eqb_eq in E. contradiction.
  - destruct (k0 =? k) eqn:E; simpl.
    + apply Z.eqb_eq in E. subst k0.
      destruct (k =? k') eqn:E'; [|reflexivity].
      apply Z.eqb_eq in E'. contradiction.
    + now rewrite IH.
Qed.

Lemma dict_get_keys {V : Type} (d : dict V) (k : Z) :
  k ∈ keys d <-> exists v, dict_get d k = Some v.
Proof.
  clear check_range.
  unfold keys. induction d as [|[k' v'] d IH]; simpl.
  - split; [intros H; now apply elem_of_nil in H | intros [v H]; discriminate].
  - rewrite elem_of_cons. destruct (k' =? k) eqn:E.
    + apply Z.eqb_eq in E. subst k'. split; eauto.
    + apply Z.eqb_neq in E. rewrite IH. split; [|tauto].
      intros [H|H]; [congruence | exact H].
Qed.

Lemma dict_get_absent {V : Type} (d : dict V) (k : Z) :
  k ∉ keys d <-> dict_get d k = None.
Proof.
  clear check_range.
  rewrite dict_get_keys. destruct (dict_get d k) as [v|].
  - split; [intros H; contradiction H; eauto | discriminate].
  - split; [reflexivity | intros _ [v H]; discriminate].
Qed.

Lemma dict_set_fresh {V : Type} (d : dict V) (k : Z) (v : V) :
  k ∉ keys d -> dict_set d k v = d ++ [(k, v)].
Proof.
  unfold keys. induction d as [|[k' v'] d IH]; simpl; [reflexivity|].
  intros H. apply not_elem_of_cons in H as [Hne H].
  destruct (k' =? k) eqn:E.
  - apply Z.eqb_eq in E. congruence.
  - now rewrite IH.
Qed.

Lemma keys_dict_set_in {V : Type} (d : dict V) (k : Z) (v : V) :
  k ∈ keys d -> keys (dict_set d k v) = keys d.
Proof.
  unfold keys. induction d as [|[k' v'] d IH]; simpl.
  - intros H. now apply elem_of_nil in H.
  - intros H. destruct (k' =? k) eqn:E; simpl; [reflexivity|].
    apply Z.eqb_neq in E. apply elem_of_cons in H as [H|H]; [congruence|].
    now rewrite IH.
Qed.

Lemma keys_dict_set {V : Type} (d : dict V) (k : Z) (v : V) :
  keys (dict_set d k v)
  = if decide (k ∈ keys d) then keys d else keys d ++ [k].
Proof.
  destruct (decide (k ∈ keys d)) as [Hin|Hout].
  - now apply keys_dict_set_in.
  - rewrite dict_set_fresh by assumption. unfold keys.
    now rewrite map_app.
Qed.

Lemma keys_dict_set_NoDup {V : Type} (d : dict V) (k : Z) (v : V) :
  NoDup (keys d) -> NoDup (keys (dict_set d k v)).
Proof.
  intros H. rewrite keys_dict_set.
  destruct (decide (k ∈ keys d)) as [Hin|Hout]; [exact H|].
  apply NoDup_app. split; [exact H|]. split.
  - intros x Hx Hk. apply list_elem_of_singleton in Hk. now subst x.
  - apply NoDup_singleton.
Qed.

Lemma keys_dict_set_elem {V : Type} (d : dict V) (k k' : Z) (v : V) :
  k' ∈ keys (dict_set d k v) <-> k' = k \/ k' ∈ keys d.
Proof.
  clear check_range.
  rewrite keys_dict_set.
  destruct (decide (k ∈ keys d)) as [Hin|Hout].
  - split; [tauto|]. intros [->|H]; assumption.
  - rewrite elem_of_app, list_elem_of_singleton. tauto.
Qed.

(** ** Sums over orders *)

Lemma order_value_app (a b : list order_record) :
  (order_value (a ++ b) == order_value a + order_value b)%Q.
Proof.
  induction a as [|x a IH]; simpl.
  - ring.
  - rewrite IH. ring.
Qed.

Lemma proceeds_app (tax fee : Q) (a b : list order_record) :
  (proceeds tax fee (a ++ b) == proceeds tax fee a + proceeds tax fee b)%Q.
Proof.
  induction a as [|x a IH]; simpl.
  - ring.
  - rewrite IH. ring.
Qed.

Lemma proceeds_flagged (tax fee : Q) (flag : bool) (l : list order_record) :
  Forall (fun x => market x = flag) l ->
  (proceeds tax fee l
   == (if flag then 1 - tax else 1 - tax - fee) * order_value l)%Q.
Proof.
  induction 1 as [|x l Hx _ IH]; simpl.
  - ring.
  - rewrite IH, Hx. ring.
Qed.

Lemma dict_sum_app {V : Type} (f : V -> Q) (a b : dict V) :
  (dict_sum f (a ++ b) == dict_sum f a + dict_sum f b)%Q.
Proof.
  unfold dict_sum. induction a as [|x a IH]; simpl.
  - ring.
  - rewrite IH. ring.
Qed.

Lemma dict_sum_set {V : Type} (f : V -> Q) (d : dict V) (k : Z) (v v' : V) :
  dict_get d k = Some v ->
  (dict_sum f (dict_set d k v') == dict_sum f d - f v + f v')%Q.
Proof.
  unfold dict_sum. induction d as [|[k0 v0] d IH]; simpl; [discriminate|].
  destruct (k0 =? k) eqn:E; simpl.
  - intros H. injection H as ->. ring.
  - intros H. rewrite IH by assumption. ring.
Qed.

(** ** Numbers and computations *)

Lemma Qltb_lt (a b : Q) : Qltb a b = true <-> (a < b)%Q.
Proof.
  unfold Qltb. rewrite negb_true_iff. split; intros H.
  - apply Qnot_le_lt. intros Hle. apply Qle_bool_iff in Hle. congruence.
  - destruct (Qle_bool b a) eqn:E; [|reflexivity].
    apply Qle_bool_iff in E. exfalso. now apply (Qlt_not_le a b).
Qed.

Lemma Qltb_ge (a b : Q) : Qltb a b = false <-> (b <= a)%Q.
Proof.
  unfold Qltb. rewrite negb_false_iff. apply Qle_bool_iff.
Qed.

Lemma bind_ok {A B : Type} (c : M A) (k : A -> M B) (h : heap) (b : B)
    (h' : heap) :
  bind c k h = (Ok b, h') ->
  exists a h1, c h = (Ok a, h1) /\ k a h1 = (Ok b, h').
Proof.
  unfold bind. destruct (c h) as [[a|e|] h1]; intros H; try discriminate.
  now exists a, h1.
Qed.

Lemma lookup_or_ok {A : Type} (e : exn) (o : option A) (h : heap) (a : A)
    (h' : heap) :
  lookup_or e o h = (Ok a, h') -> o = Some a /\ h' = h.
Proof.
  destruct o as [x|]; simpl; unfold ret, raise; intros H; inversion H; auto.
Qed.

Lemma call_ok {A : Type} (c : heap -> A * heap) (h : heap) (a : A)
    (h' : heap) :
  call c h = (Ok a, h') -> c h = (a, h').
Proof.
  unfold call. destruct (c h) as [x h1]. intros H. now inversion H.
Qed.

Lemma ret_ok {A : Type} (x a : A) (h h' : heap) :
  ret x h = (Ok a, h') -> x = a /\ h' = h.
Proof. unfold ret. intros H. inversion H. auto. Qed.

Lemma bind_ret {A B : Type} (a : A) (k : A -> M B) (h : heap) :
  bind (ret a) k h = k a h.
Proof. reflexivity. Qed.

Lemma bind_call {A B : Type} (c : heap -> A * heap) (k : A -> M B)
    (h : heap) :
  bind (call c) k h = k (fst (c h)) (snd (c h)).
Proof. unfold bind, call. now destruct (c h). Qed.


(** ** Opportunity attempter *)

Section AttemptProperties.

Variable snapshot : DataFrame.
Variables type_id region_id station_id : Z.
Variable type_map : dict SourceType.
Variables tax_rate efficiency station_tax broker_fee : Q.
Variable market_summary : list SummaryRow.
Variable volume_limit : Q.

Section RoundProperties.

Variable threshold : Q.
Variable source : SourceType.
Variable required_volume : Z.
Variable sell_order_list : list ref.
Variable buy_orders_of : dict (list ref).
Variable spreads : dict spread.

Abbreviation the_round :=
  (attempt_round region_id station_id tax_rate efficiency station_tax
                 broker_fee threshold source required_volume sell_order_list
                 buy_orders_of spreads).
Abbreviation the_rounds :=
  (rounds region_id station_id tax_rate efficiency station_tax broker_fee
          threshold source required_volume sell_order_list buy_orders_of
          spreads).

Lemma attempt_round_profitable (budgets : dict Q) (h : heap)
    (b : list order_record) (s : dict (list order_record)) (g c : Q)
    (bud : dict Q) (h' : heap) :
  the_round budgets h = (Ok (Profitable b s g c bud), h') ->
  (c < g)%Q /\ b <> [] /\ s <> [] /\
  attempt_buy_type_list required_volume sell_order_list h
  = (b, snd (attempt_buy_type_list required_volume sell_order_list h)).
Proof.
  unfold attempt_round. intros H.
  apply bind_ok in H as (bought & h1 & Hbuy & H). apply call_ok in Hbuy.
  destruct bought as [|x bought]; [discriminate H|].
  apply bind_ok in H as (r & h2 & _ & H).
  destruct r as [[[[cg cc] so]|] bud']; [|discriminate H].
  destruct so as [|kv so]; [discriminate H|].
  destruct (Qltb cc cg) eqn:E; [|discriminate H].
  apply ret_ok in H as [H _]. inversion H; subst. apply Qltb_lt in E.
  repeat split; try easy. now rewrite Hbuy.
Qed.

Lemma attempt_round_no_profit (budgets : dict Q) (h : heap) (g c : Q)
    (h' : heap) :
  the_round budgets h = (Ok (NoProfit g c), h') -> (g <= c)%Q.
Proof.
  unfold attempt_round. intros H.
  apply bind_ok in H as (bought & h1 & _ & H).
  destruct bought as [|x bought]; [discriminate H|].
  apply bind_ok in H as (r & h2 & _ & H).
  destruct r as [[[[cg cc] so]|] bud']; [|discriminate H].
  destruct so as [|kv so]; [discriminate H|].
  destruct (Qltb cc cg) eqn:E; [discriminate H|].
  apply ret_ok in H as [H _]. inversion H; subst. now apply Qltb_ge in E.
Qed.

(** A pass that ends in one of the three [break]s ends the loop and leaves
    the running totals as they were. *)
Lemma rounds_break (fuel : nat) (l : locals) (h : heap) (r : round)
    (h1 : heap) :
  the_round (limit_order_max l) h = (Ok r, h1) ->
  (forall b s g c bud, r <> Profitable b s g c bud) ->
  the_rounds (S fuel) l h = (Ok l, h1).
Proof.
  intros Hr Hn. simpl. unfold bind. rewrite Hr.
  destruct r as [| | |b s g c bud]; try reflexivity.
  now contradiction (Hn b s g c bud).
Qed.

(** The rounds recorded by a run of the loop, as triples
    [(bought, current_gross, current_cost)]. *)
Lemma rounds_totals (fuel : nat) :
  forall (l : locals) (h : heap) (l' : locals) (h' : heap),
    the_rounds fuel l h = (Ok l', h') ->
    exists committed : list (list order_record * Q * Q),
      Forall (fun r => (snd r < snd (fst r))%Q /\ fst (fst r) <> [])
             committed /\
      (gross_total l'
       == gross_total l + foldr (fun r acc => snd (fst r) + acc) 0 committed)%Q
      /\
      (cost_total l'
       == cost_total l + foldr (fun r acc => snd r + acc) 0 committed)%Q /\
      all_buy_orders l'
      = all_buy_orders l ++ concat (map (fun r => fst (fst r)) committed) /\
      (committed = [] -> l' = l).
Proof.
  induction fuel as [|fuel IH]; intros l h l' h' H; simpl in H.
  - discriminate H.
  - apply bind_ok in H as (r & h1 & Hr & H).
    destruct r as [| | |b s g c bud].
    1-3: apply ret_ok in H as [<- _]; exists []; simpl; repeat split;
      [constructor | ring | ring | now rewrite app_nil_r].
    apply attempt_round_profitable in Hr as (Hlt & Hb & _).
    apply bind_ok in H as (l1 & h2 & Hcommit & H).
    unfold commit in Hcommit.
    apply bind_ok in Hcommit as (all_sell & h3 & _ & Hcommit).
    apply ret_ok in Hcommit as [<- _].
    apply IH in H as (cm & Hall & Hg & Hc & Hbuy & _).
    exists ((b, g, c) :: cm). simpl in *. repeat split.
    + constructor; [split; assumption | assumption].
    + rewrite Hg. ring.
    + rewrite Hc. ring.
    + rewrite Hbuy. now rewrite <- app_assoc.
    + discriminate.
Qed.

(** C3.  A round is recorded only when its gross strictly exceeds its cost:
    a pass of the loop that reaches the profit test is [Profitable] with
    [current_cost < current_gross] or [NoProfit] with
    [current_gross <= current_cost]; a pass that is not [Profitable] ends
    the loop with the running totals unchanged; and the totals at the end
    of the loop are those at its start plus the gross and cost of recorded
    rounds, each of them strictly profitable. *)
Theorem never_commits_unprofitable_round :
  (forall budgets h b s g c bud h',
     the_round budgets h = (Ok (Profitable b s g c bud), h') -> (c < g)%Q) /\
  (forall budgets h g c h',
     the_round budgets h = (Ok (NoProfit g c), h') -> (g <= c)%Q) /\
  (forall fuel l h r h1,
     the_round (limit_order_max l) h = (Ok r, h1) ->
     (forall b s g c bud, r <> Profitable b s g c bud) ->
     the_rounds (S fuel) l h = (Ok l, h1)) /\
  (forall fuel l h l' h',
     the_rounds fuel l h = (Ok l', h') ->
     exists committed : list (list order_record * Q * Q),
       Forall (fun r => (snd r < snd (fst r))%Q /\ fst (fst r) <> [])
              committed /\
       (gross_total l'
        == gross_total l
           + foldr (fun r acc => snd (fst r) + acc) 0 committed)%Q /\
       (cost_total l'
        == cost_total l + foldr (fun r acc => snd r + acc) 0 committed)%Q /\
       all_buy_orders l'
       = all_buy_orders l ++ concat (map (fun r => fst (fst r)) committed) /\
       (committed = [] -> l' = l)).
Proof.
  split; [|split; [|split]].
  - intros budgets h b s g c bud h' H.
    now apply attempt_round_profitable in H.
  - exact attempt_round_no_profit.
  - exact rounds_break.
  - exact rounds_totals.
Qed.

End RoundProperties.

End AttemptProperties.

(** ** Objects that exist before a computation are left alone *)

Section Frame.

Variable p : heap.

Lemma deref_shift (k : heap) (r : ref) :
  deref (p ++ k) (length p + r)%nat = deref k r.
Proof.
  unfold deref. rewrite lookup_total_app_r by lia.
  f_equal. lia.
Qed.

Lemma insert_shift (k : heap) (r : ref) (o : Order) :
  <[(length p + r)%nat := o]> (p ++ k) = p ++ <[r := o]> k.
Proof. apply insert_app_r. Qed.

Lemma framed_ret {A : Type} (sh : A -> A) (a : A) :
  framed p sh (ret (sh a)) (ret a).
Proof. intros k. reflexivity. Qed.

Lemma framed_raise {A : Type} (sh : A -> A) (e : exn) :
  framed p sh (raise e) (raise e).
Proof. intros k. reflexivity. Qed.

Lemma framed_out_of_fuel {A : Type} (sh : A -> A) :
  framed p sh out_of_fuel out_of_fuel.
Proof. intros k. reflexivity. Qed.

Lemma framed_bind {A B : Type} (sh : A -> A) (sh' : B -> B)
    (c1 c2 : M A) (k1 k2 : A -> M B) :
  framed p sh c1 c2 ->
  (forall a, framed p sh' (k1 (sh a)) (k2 a)) ->
  framed p sh' (bind c1 k1) (bind c2 k2).
Proof.
  intros Hc Hk k. unfold bind. rewrite Hc.
  destruct (c2 k) as [[a|e|] k']; simpl; try reflexivity.
  apply Hk.
Qed.

Lemma framed_lookup_or {A : Type} (sh : A -> A) (e : exn) (o : option A) :
  framed p sh (lookup_or e (option_map sh o)) (lookup_or e o).
Proof. destruct o; [apply framed_ret | apply framed_raise]. Qed.

Lemma framed_lookup_or_id {A : Type} (e : exn) (o : option A) :
  framed p id (lookup_or e o) (lookup_or e o).
Proof. destruct o; intros k; reflexivity. Qed.

Lemma framed_call {A : Type} (sh : A -> A) (c1 c2 : heap -> A * heap) :
  (forall k, c1 (p ++ k) = (sh (fst (c2 k)), p ++ snd (c2 k))) ->
  framed p sh (call c1) (call c2).
Proof.
  intros H k. unfold call. rewrite H. now destruct (c2 k).
Qed.

Lemma framed_read {A : Type} (sh : A -> A) (f1 f2 : heap -> A) :
  (forall k, f1 (p ++ k) = sh (f2 k)) ->
  framed p sh (read f1) (read f2).
Proof. intros H k. unfold read. now rewrite H. Qed.

Lemma iterrows_shift (df : DataFrame) (k : heap) :
  iterrows df (p ++ k)
  = (shift_list p (fst (iterrows df k)), p ++ snd (iterrows df k)).
Proof.
  unfold iterrows, shift_list. simpl.
  rewrite length_app, <- app_assoc. f_equal.
  symmetry. apply (fmap_add_seq (length p) (length k) (length df)).
Qed.

Lemma extract_sell_orders_shift (snapshot : DataFrame) (t s : Z) (k : heap) :
  extract_sell_orders snapshot t s (p ++ k)
  = (shift_list p (fst (extract_sell_orders snapshot t s k)),
     p ++ snd (extract_sell_orders snapshot t s k)).
Proof. apply iterrows_shift. Qed.

Lemma extract_buy_orders_shift (snapshot : DataFrame) (t : Z) (k : heap) :
  extract_buy_orders snapshot t (p ++ k)
  = (shift_list p (fst (extract_buy_orders snapshot t k)),
     p ++ snd (extract_buy_orders snapshot t k)).
Proof. apply iterrows_shift. Qed.

Lemma buy_loop_shift (l : list ref) :
  forall (v : Z) (pot : list order_record) (k : heap),
    buy_loop (shift_list p l) v pot (p ++ k)
    = (fst (buy_loop l v pot k), p ++ snd (buy_loop l v pot k)).
Proof.
  induction l as [|r l IH]; intros v pot k; simpl; [reflexivity|].
  rewrite deref_shift.
  destruct ((min_volume (deref k r) <=? v) && (0 <? volume (deref k r))).
  - rewrite insert_shift.
    destruct (v - Z.min v (volume (deref k r)) =? 0); [reflexivity|].
    apply IH.
  - destruct (v =? 0); [reflexivity|]. apply IH.
Qed.

Lemma sell_try_shift (region location : Z) (r : ref) (v : Z)
    (pot : list order_record) (k : heap) :
  sell_try region location (length p + r)%nat v pot (p ++ k)
  = outcome_map (fun s => (fst (fst s), snd (fst s), p ++ snd s))
                (sell_try region location r v pot k).
Proof.
  unfold sell_try. rewrite deref_shift.
  destruct ((min_volume (deref k r) <=? v) && (0 <? volume (deref k r)));
    [|reflexivity].
  destruct (check_range region location (location_id (deref k r))
                        (order_range (deref k r))); simpl; try reflexivity.
  now rewrite insert_shift.
Qed.

Lemma sell_loop_shift (region location : Z) (l : list ref) :
  forall (v : Z) (pot : list order_record) (k : heap),
    sell_loop region location (shift_list p l) v pot (p ++ k)
    = (fst (sell_loop region location l v pot k),
       p ++ snd (sell_loop region location l v pot k)).
Proof.
  induction l as [|r l IH]; intros v pot k; simpl; [reflexivity|].
  rewrite sell_try_shift.
  destruct (sell_try region location r v pot k) as [[[v' pot'] k']| |];
    simpl.
  - destruct (v' =? 0); [reflexivity|]. apply IH.
  - destruct (v =? 0); [reflexivity|]. apply IH.
  - destruct (v =? 0); [reflexivity|]. apply IH.
Qed.

Lemma best_bid_loop_shift (region station : Z) (l : list ref) (k : heap) :
  best_bid_loop region station (shift_list p l) (p ++ k)
  = best_bid_loop region station l k.
Proof.
  induction l as [|r l IH]; simpl; [reflexivity|].
  unfold bid_try. rewrite deref_shift.
  destruct (check_range region station (location_id (deref k r))
                        (order_range (deref k r))); auto.
Qed.

Lemma spread_return_framed (snapshot : DataFrame) (t s r : Z) :
  framed p id (spread_return snapshot t s r) (spread_return snapshot t s r).
Proof.
  unfold spread_return.
  apply framed_bind with (sh := shift_list p).
  { apply framed_call, extract_sell_orders_shift. }
  intros [|first rest]; simpl; [apply (framed_ret id)|].
  apply framed_bind with (sh := id).
  { apply framed_read. intros k. unfold id. now rewrite deref_shift. }
  intros ask. apply framed_bind with (sh := shift_list p).
  { apply framed_call, extract_buy_orders_shift. }
  intros buys. apply framed_bind with (sh := id).
  { apply framed_read. intros k. apply best_bid_loop_shift. }
  intros [bid|]; [|apply (framed_ret id)].
  unfold id. destruct (Qeq_bool bid 0);
    [apply framed_raise | apply (framed_ret id)].
Qed.

Lemma dict_get_shift (d : dict (list ref)) (k : Z) :
  dict_get (shift_dict p d) k = option_map (shift_list p) (dict_get d k).
Proof.
  induction d as [|[k' v] d IH]; simpl; [reflexivity|].
  destruct (k' =? k); [reflexivity | apply IH].
Qed.

Lemma dict_set_shift (d : dict (list ref)) (k : Z) (v : list ref) :
  dict_set (shift_dict p d) k (shift_list p v) = shift_dict p (dict_set d k v).
Proof.
  induction d as [|[k' v'] d IH]; simpl; [reflexivity|].
  destruct (k' =? k); simpl; [reflexivity | now rewrite IH].
Qed.

Lemma keys_shift (d : dict (list ref)) : keys (shift_dict p d) = keys d.
Proof.
  unfold keys, shift_dict. rewrite map_map. reflexivity.
Qed.

Section FrameAttempt.

Variable snapshot : DataFrame.
Variables type_id region_id station_id : Z.
Variable type_map : dict SourceType.
Variables tax_rate efficiency station_tax broker_fee : Q.
Variable market_summary : list SummaryRow.
Variable volume_limit : Q.

Lemma setup_materials_framed (mats : list TypeMaterial) :
  forall l : locals,
    framed p (shift_locals p)
      (setup_materials snapshot region_id station_id market_summary
                       volume_limit mats (shift_locals p l))
      (setup_materials snapshot region_id station_id market_summary
                       volume_limit mats l).
Proof.
  induction mats as [|m mats IH]; intros l; simpl.
  - apply framed_ret.
  - apply framed_bind with (sh := shift_list p).
    { apply framed_call, extract_buy_orders_shift. }
    intros orders. apply framed_bind with (sh := id).
    { apply framed_lookup_or_id. }
    intros row. apply framed_bind with (sh := id).
    { apply spread_return_framed. }
    intros sr. unfold id. rewrite dict_set_shift. apply (IH (mkLocals _ _ _ _ _ _ _)).
Qed.

Section FrameRounds.

Variable threshold : Q.
Variable source : SourceType.
Variable required_volume : Z.
Variable sell_order_list : list ref.
Variable buy_orders_of : dict (list ref).
Variable spreads : dict spread.

Lemma sell_material_framed (next_mat_id : Z) (budgets : dict Q) :
  framed p id
    (sell_material region_id station_id efficiency threshold source
                   (shift_dict p buy_orders_of) spreads next_mat_id budgets)
    (sell_material region_id station_id efficiency threshold source
                   buy_orders_of spreads next_mat_id budgets).
Proof.
  unfold sell_material.
  apply framed_bind with (sh := id); [apply framed_lookup_or_id|].
  intros sr. apply framed_bind with (sh := id); [apply framed_lookup_or_id|].
  intros mat. unfold id.
  destruct (Qltb threshold (spread_value sr)).
  - apply framed_bind with (sh := id); [apply framed_lookup_or_id|].
    intros budget. unfold id.
    destruct (Qltb 0 (py_min _ budget)); [|apply (framed_ret id)].
    apply framed_bind with (sh := id); [apply framed_lookup_or_id|].
    intros ask. apply (framed_ret id).
  - rewrite dict_get_shift.
    apply framed_bind with (sh := shift_list p); [apply framed_lookup_or|].
    intros orders. apply framed_bind with (sh := id).
    { apply framed_call. intros k. apply sell_loop_shift. }
    intros sold. apply (framed_ret id).
Qed.

Lemma sell_materials_framed (mat_ids : list Z) :
  forall (current_gross current_cost : Q)
         (sell_orders : dict (list order_record)) (budgets : dict Q),
    framed p id
      (sell_materials region_id station_id tax_rate efficiency station_tax
                      broker_fee threshold source (shift_dict p buy_orders_of)
                      spreads mat_ids current_gross current_cost sell_orders
                      budgets)
      (sell_materials region_id station_id tax_rate efficiency station_tax
                      broker_fee threshold source buy_orders_of spreads
                      mat_ids current_gross current_cost sell_orders budgets).
Proof.
  induction mat_ids as [|m mat_ids IH]; intros cg cc so budgets; simpl.
  - apply (framed_ret id).
  - apply framed_bind with (sh := id); [apply sell_material_framed|].
    intros [[limit_sell sold] budgets']. unfold id.
    destruct sold as [|x sold]; [apply (framed_ret id) | apply IH].
Qed.

Lemma attempt_round_framed (budgets : dict Q) :
  framed p id
    (attempt_round region_id station_id tax_rate efficiency station_tax
                   broker_fee threshold source required_volume
                   (shift_list p sell_order_list) (shift_dict p buy_orders_of)
                   spreads budgets)
    (attempt_round region_id station_id tax_rate efficiency station_tax
                   broker_fee threshold source required_volume sell_order_list
                   buy_orders_of spreads budgets).
Proof.
  unfold attempt_round.
  apply framed_bind with (sh := id).
  { apply framed_call. intros k. apply buy_loop_shift. }
  intros bought. unfold id.
  destruct bought as [|x bought]; [apply (framed_ret id)|].
  rewrite keys_shift.
  apply framed_bind with (sh := id); [apply sell_materials_framed|].
  intros [[[[cg cc] so]|] budgets']; unfold id; [|apply (framed_ret id)].
  destruct so as [|kv so]; [apply (framed_ret id)|].
  destruct (Qltb cc cg); apply (framed_ret id).
Qed.

Lemma commit_framed (l : locals) (bought : list order_record)
    (sell_orders : dict (list order_record)) (g c : Q) (budgets : dict Q) :
  framed p (shift_locals p)
    (commit (shift_locals p l) bought sell_orders g c budgets)
    (commit l bought sell_orders g c budgets).
Proof.
  unfold commit.
  apply framed_bind with (sh := id); [apply framed_lookup_or_id|].
  intros all_sell k. reflexivity.
Qed.

Lemma rounds_framed (fuel : nat) :
  forall l : locals,
    framed p (shift_locals p)
      (rounds region_id station_id tax_rate efficiency station_tax broker_fee
              threshold source required_volume (shift_list p sell_order_list)
              (shift_dict p buy_orders_of) spreads fuel (shift_locals p l))
      (rounds region_id station_id tax_rate efficiency station_tax broker_fee
              threshold source required_volume sell_order_list buy_orders_of
              spreads fuel l).
Proof.
  induction fuel as [|fuel IH]; intros l; simpl.
  - apply framed_out_of_fuel.
  - apply framed_bind with (sh := id); [apply attempt_round_framed|].
    intros [| | |b s g c bud]; unfold id; try apply framed_ret.
    apply framed_bind with (sh := shift_locals p); [apply commit_framed|].
    apply IH.
Qed.

End FrameRounds.

Lemma attempt_loop_framed (fuel : nat) :
  framed p (shift_locals p)
    (attempt_loop snapshot type_id region_id station_id type_map tax_rate
                  efficiency station_tax broker_fee market_summary
                  volume_limit fuel)
    (attempt_loop snapshot type_id region_id station_id type_map tax_rate
                  efficiency station_tax broker_fee market_summary
                  volume_limit fuel).
Proof.
  unfold attempt_loop.
  destruct (Qeq_bool (1 - tax_rate - broker_fee) 0); [apply framed_raise|].
  apply framed_bind with (sh := id); [apply framed_lookup_or_id|].
  intros source. unfold id.
  apply framed_bind with (sh := shift_list p).
  { apply framed_call, extract_sell_orders_shift. }
  intros sell_order_list.
  apply framed_bind with (sh := shift_locals p).
  { apply (setup_materials_framed _ (mkLocals [] [] [] [] [] 0%Q 0%Q)). }
  intros l. apply rounds_framed.
Qed.

Lemma report_shift (l : locals) : report (shift_locals p l) = report l.
Proof. reflexivity. Qed.

Lemma attempt_opportunity_framed (fuel : nat) :
  framed p id
    (attempt_opportunity snapshot type_id region_id station_id type_map
                         tax_rate efficiency station_tax broker_fee
                         market_summary volume_limit fuel)
    (attempt_opportunity snapshot type_id region_id station_id type_map
                         tax_rate efficiency station_tax broker_fee
                         market_summary volume_limit fuel).
Proof.
  unfold attempt_opportunity.
  apply framed_bind with (sh := shift_locals p); [apply attempt_loop_framed|].
  intros l. rewrite report_shift. apply (framed_ret id).
Qed.

End FrameAttempt.

Section FrameScanner.

Variable order_book : list (Z * Order).
Variable type_map : dict SourceType.
Variables station_id region_id : Z.
Variables efficiency sales_tax station_tax broker_fee : Q.
Variable market_summary : list SummaryRow.
Variable volume_limit : Q.
Variable fuel : nat.

Lemma scan_types_framed (snapshot_time : Z) (snapshot : DataFrame)
    (source_types : list SourceType) :
  forall opportunities : list found,
    framed p id
      (scan_types type_map station_id region_id efficiency sales_tax
                  station_tax broker_fee market_summary volume_limit fuel
                  snapshot_time snapshot source_types opportunities)
      (scan_types type_map station_id region_id efficiency sales_tax
                  station_tax broker_fee market_summary volume_limit fuel
                  snapshot_time snapshot source_types opportunities).
Proof.
  induction source_types as [|st sts IH]; intros opps; simpl.
  - apply (framed_ret id).
  - apply framed_bind with (sh := id); [apply attempt_opportunity_framed|].
    intros [o|]; apply IH.
Qed.

Lemma scan_snapshots_framed (groups : list (Z * DataFrame)) :
  forall opportunities : list found,
    framed p id
      (scan_snapshots type_map station_id region_id efficiency sales_tax
                      station_tax broker_fee market_summary volume_limit fuel
                      groups opportunities)
      (scan_snapshots type_map station_id region_id efficiency sales_tax
                      station_tax broker_fee market_summary volume_limit fuel
                      groups opportunities).
Proof.
  induction groups as [|g groups IH]; intros opps; simpl.
  - apply (framed_ret id).
  - apply framed_bind with (sh := id); [apply scan_types_framed|].
    intros opps'. apply IH.
Qed.

Lemma find_opportunities_framed :
  framed p id
    (find_opportunities order_book type_map station_id region_id efficiency
                        sales_tax station_tax broker_fee market_summary
                        volume_limit fuel)
    (find_opportunities order_book type_map station_id region_id efficiency
                        sales_tax station_tax broker_fee market_summary
                        volume_limit fuel).
Proof. apply scan_snapshots_framed. Qed.

End FrameScanner.

End Frame.

(** ** Opportunity scanner *)

Lemma outcome_map_id {A : Type} (r : outcome A) : outcome_map id r = r.
Proof. now destruct r. Qed.

(** A computation that is [framed] behind any store returns what it returns
    on the empty store and only adds objects. *)
Lemma framed_from_empty {A : Type} (c : M A) :
  (forall p, framed p id c c) ->
  forall h, c h = (fst (c []), h ++ snd (c [])).
Proof.
  intros H h. specialize (H h []). rewrite app_nil_r in H.
  now rewrite H, outcome_map_id.
Qed.

(** C7.  The scanner has no hidden state.  Started on any store of objects
    it returns the list it returns on the empty store and leaves every
    object that existed before as it was; so a second run on the same order
    book, type map and market summary, started on the store the first run
    left, returns the same list.  The same holds for every single attempt:
    the orders it consumes are objects it created itself. *)
Theorem scanner_is_idempotent :
  forall (order_book : list (Z * Order)) (type_map : dict SourceType)
         (station_id region_id : Z)
         (efficiency sales_tax station_tax broker_fee : Q)
         (market_summary : list SummaryRow) (volume_limit : Q) (fuel : nat),
    let scan :=
      find_opportunities order_book type_map station_id region_id efficiency
                         sales_tax station_tax broker_fee market_summary
                         volume_limit fuel in
    let attempt := fun (snapshot : DataFrame) (type_id : Z) =>
      attempt_opportunity snapshot type_id region_id station_id type_map
                          sales_tax efficiency station_tax broker_fee
                          market_summary volume_limit fuel in
    (forall h, fst (scan (snd (scan h))) = fst (scan h)) /\
    (forall h, fst (scan h) = fst (scan [])) /\
    (forall h, snd (scan h) = h ++ snd (scan [])) /\
    (forall snapshot type_id h,
       fst (attempt snapshot type_id h) = fst (attempt snapshot type_id [])) /\
    (forall snapshot type_id h,
       snd (attempt snapshot type_id h)
       = h ++ snd (attempt snapshot type_id [])).
Proof.
  intros order_book type_map station_id region_id efficiency sales_tax
    station_tax broker_fee market_summary volume_limit fuel scan attempt.
  assert (Hscan : forall h, scan h = (fst (scan []), h ++ snd (scan []))).
  { apply framed_from_empty. intros p. apply find_opportunities_framed. }
  assert (Hatt : forall snapshot type_id h,
             attempt snapshot type_id h
             = (fst (attempt snapshot type_id []),
                h ++ snd (attempt snapshot type_id []))).
  { intros snapshot type_id. apply framed_from_empty. intros p.
    apply attempt_opportunity_framed. }
  repeat split.
  - intros h. now rewrite (Hscan (snd (scan h))), (Hscan h).
  - intros h. now rewrite (Hscan h).
  - intros h. now rewrite (Hscan h).
  - intros snapshot type_id h. now rewrite (Hatt snapshot type_id h).
  - intros snapshot type_id h. now rewrite (Hatt snapshot type_id h).
Qed.

(** ** The loop of the attempter ends *)

Lemma deref_live (h : heap) (r : ref) :
  0 < volume (deref h r) -> (r < length h)%nat.
Proof.
  intros H. destruct (decide (r < length h)%nat) as [Hlt|Hge]; [exact Hlt|].
  exfalso. unfold deref in H.
  rewrite list_lookup_total_alt, lookup_ge_None_2 in H by lia.
  simpl in H. lia.
Qed.

(** References taken from a DataFrame denote live objects, and the matchers
    neither add nor remove objects. *)
Lemma iterrows_live (df : DataFrame) (h : heap) :
  Forall (fun r => (r < length (snd (iterrows df h)))%nat)
         (fst (iterrows df h)).
Proof.
  unfold iterrows. simpl. apply Forall_forall. intros r Hr.
  apply elem_of_seq in Hr. rewrite length_app. lia.
Qed.

Lemma buy_loop_length (l : list ref) :
  forall (v : Z) (pot : list order_record) (h : heap),
    length (snd (buy_loop l v pot h)) = length h.
Proof.
  induction l as [|r l IH]; intros v pot h; simpl; [reflexivity|].
  destruct ((min_volume (deref h r) <=? v) && (0 <? volume (deref h r))).
  - destruct (v - Z.min v (volume (deref h r)) =? 0); simpl.
    + apply length_insert.
    + rewrite IH. apply length_insert.
  - destruct (v =? 0); simpl; [reflexivity | apply IH].
Qed.

Lemma sell_loop_length (region location : Z) (l : list ref) :
  forall (v : Z) (pot : list order_record) (h : heap),
    length (snd (sell_loop region location l v pot h)) = length h.
Proof.
  induction l as [|r l IH]; intros v pot h; [reflexivity|].
  rewrite sell_loop_cons.
  destruct (sell_accepts region location v (deref h r)); cbv zeta.
  - destruct (v - Z.min v (volume (deref h r)) =? 0); simpl.
    + apply length_insert.
    + rewrite IH. apply length_insert.
  - destruct (v =? 0); simpl; [reflexivity | apply IH].
Qed.

Lemma deref_insert_eq (h : heap) (r : ref) (o : Order) :
  (r < length h)%nat -> deref (<[r := o]> h) r = o.
Proof. apply list_lookup_total_insert_eq. Qed.

Lemma deref_insert_ne (h : heap) (r r' : ref) (o : Order) :
  r <> r' -> deref (<[r := o]> h) r' = deref h r'.
Proof. apply list_lookup_total_insert_ne. Qed.

Lemma buy_loop_other (l : list ref) :
  forall (v : Z) (pot : list order_record) (h : heap) (r : ref),
    r ∉ l -> deref (snd (buy_loop l v pot h)) r = deref h r.
Proof.
  induction l as [|r0 l IH]; intros v pot h r Hr; simpl; [reflexivity|].
  apply not_elem_of_cons in Hr as [Hne Hr].
  destruct ((min_volume (deref h r0) <=? v) && (0 <? volume (deref h r0))).
  - destruct (v - Z.min v (volume (deref h r0)) =? 0); simpl.
    + now apply deref_insert_ne.
    + rewrite IH by assumption. now apply deref_insert_ne.
  - destruct (v =? 0); simpl; [reflexivity | now apply IH].
Qed.

Lemma sell_loop_other (region location : Z) (l : list ref) :
  forall (v : Z) (pot : list order_record) (h : heap) (r : ref),
    r ∉ l -> deref (snd (sell_loop region location l v pot h)) r = deref h r.
Proof.
  induction l as [|r0 l IH]; intros v pot h r Hr; [reflexivity|].
  rewrite sell_loop_cons.
  apply not_elem_of_cons in Hr as [Hne Hr].
  destruct (sell_accepts region location v (deref h r0)); cbv zeta.
  - destruct (v - Z.min v (volume (deref h r0)) =? 0); simpl.
    + now apply deref_insert_ne.
    + rewrite IH by assumption. now apply deref_insert_ne.
  - destruct (v =? 0); simpl; [reflexivity | now apply IH].
Qed.

Lemma available_ext (h h' : heap) (l : list ref) :
  keeps l h h' -> available h' l = available h l.
Proof.
  unfold keeps. induction l as [|r l IH]; intros H; simpl; [reflexivity|].
  rewrite H by apply list_elem_of_here.
  rewrite IH; [reflexivity|].
  intros r' Hr'. apply H. now apply list_elem_of_further.
Qed.

Lemma buy_loop_available (l : list ref) :
  forall (v : Z) (pot : list order_record) (h : heap),
    NoDup l -> 0 < v -> fst (buy_loop l v pot h) <> [] ->
    available (snd (buy_loop l v pot h)) l = available h l - v.
Proof.
  induction l as [|r l IH]; intros v pot h Hnd Hv; simpl.
  - intros H. now contradiction H.
  - apply NoDup_cons in Hnd as [Hr Hnd].
    assert (Hkeep : forall o, available (<[r := o]> h) l = available h l).
    { intros o. apply available_ext. intros r' Hr'.
      apply deref_insert_ne. intros ->. contradiction. }
    destruct ((min_volume (deref h r) <=? v) && (0 <? volume (deref h r)))
      eqn:Hc.
    + apply andb_prop in Hc as [_ Hvol]. apply Z.ltb_lt in Hvol.
      pose proof (deref_live _ _ Hvol) as Hlive.
      destruct (v - Z.min v (volume (deref h r)) =? 0) eqn:Hz; simpl.
      * intros _. apply Z.eqb_eq in Hz.
        rewrite deref_insert_eq, Hkeep by assumption. simpl. lia.
      * intros Hne. apply Z.eqb_neq in Hz.
        rewrite IH by (try assumption; lia).
        rewrite buy_loop_other, deref_insert_eq, Hkeep by assumption.
        simpl. lia.
    + destruct (v =? 0) eqn:Hz; simpl.
      * apply Z.eqb_eq in Hz. lia.
      * intros Hne. rewrite IH, buy_loop_other by assumption. lia.
Qed.

Lemma available_fresh (rows : DataFrame) :
  forall h : heap,
    available (h ++ rows) (seq (length h) (length rows)) = offered rows.
Proof.
  induction rows as [|o rows IH]; intros h; simpl; [reflexivity|].
  unfold deref at 1. rewrite list_lookup_total_middle by reflexivity.
  f_equal. specialize (IH (h ++ [o])).
  rewrite <- app_assoc, length_app in IH. simpl in IH.
  now rewrite Nat.add_1_r in IH.
Qed.

(** *** Composition *)

Lemma preserves_bind {A B : Type} (P : heap -> heap -> Prop)
    (c : M A) (k : A -> M B) :
  (forall h1 h2 h3, P h1 h2 -> P h2 h3 -> P h1 h3) ->
  preserves P c -> (forall a, preserves P (k a)) -> preserves P (bind c k).
Proof.
  intros Htrans Hc Hk h. unfold bind. specialize (Hc h).
  destruct (c h) as [[a|e|] h1]; simpl in *; try assumption.
  eapply Htrans; [exact Hc | apply Hk].
Qed.

Lemma preserves_pure {A : Type} (P : heap -> heap -> Prop) (c : M A) :
  (forall h, P h h) -> (forall h, snd (c h) = h) -> preserves P c.
Proof. intros Hrefl Hc h. rewrite Hc. apply Hrefl. Qed.

Lemma lookup_or_pure {A : Type} (e : exn) (o : option A) (h : heap) :
  snd (lookup_or e o h) = h.
Proof. now destruct o. Qed.

Lemma keeps_refl (l : list ref) (h : heap) : keeps l h h.
Proof. intros r _. reflexivity. Qed.

Lemma keeps_trans (l : list ref) (h1 h2 h3 : heap) :
  keeps l h1 h2 -> keeps l h2 h3 -> keeps l h1 h3.
Proof. intros H12 H23 r Hr. now rewrite H23, H12. Qed.

Lemma finishes_bind {A B : Type} (c : M A) (k : A -> M B) :
  finishes c -> (forall a, finishes (k a)) -> finishes (bind c k).
Proof.
  intros Hc Hk h. unfold bind. specialize (Hc h).
  destruct (c h) as [[a|e|] h1]; simpl in *; try easy. apply Hk.
Qed.

Lemma finishes_ret {A : Type} (a : A) : finishes (ret a).
Proof. intros h. discriminate. Qed.

Lemma finishes_raise {A : Type} (e : exn) : finishes (@raise A e).
Proof. intros h. discriminate. Qed.

Lemma finishes_lookup_or {A : Type} (e : exn) (o : option A) :
  finishes (lookup_or e o).
Proof. destruct o; [apply finishes_ret | apply finishes_raise]. Qed.

Lemma finishes_call {A : Type} (c : heap -> A * heap) : finishes (call c).
Proof. intros h. unfold call. destruct (c h). discriminate. Qed.

Lemma finishes_read {A : Type} (f : heap -> A) : finishes (read f).
Proof. intros h. discriminate. Qed.

Lemma spread_return_finishes (snapshot : DataFrame) (t s r : Z) :
  finishes (spread_return snapshot t s r).
Proof.
  unfold spread_return. apply finishes_bind; [apply finishes_call|].
  intros [|first rest]; [apply finishes_ret|].
  apply finishes_bind; [apply finishes_read|]. intros ask.
  apply finishes_bind; [apply finishes_call|]. intros buys.
  apply finishes_bind; [apply finishes_read|]. intros [bid|];
    [|apply finishes_ret].
  destruct (Qeq_bool bid 0); [apply finishes_raise | apply finishes_ret].
Qed.

Lemma preserves_lookup_or {A B : Type} (P : heap -> heap -> Prop) (e : exn)
    (o : option A) (k : A -> M B) :
  (forall h, P h h) ->
  (forall a, o = Some a -> preserves P (k a)) ->
  preserves P (bind (lookup_or e o) k).
Proof.
  intros Hrefl Hk h. destruct o as [a|]; simpl.
  - now apply Hk.
  - apply Hrefl.
Qed.

Lemma finishes_commit (l : locals) (b : list order_record)
    (s : dict (list order_record)) (g c : Q) (bud : dict Q) :
  finishes (commit l b s g c bud).
Proof.
  unfold commit. apply finishes_bind; [apply finishes_lookup_or|].
  intros a. apply finishes_ret.
Qed.

Lemma commit_pure (l : locals) (b : list order_record)
    (s : dict (list order_record)) (g c : Q) (bud : dict Q) (h : heap) :
  snd (commit l b s g c bud h) = h.
Proof. unfold commit, bind. now destruct (extend_all _ s). Qed.

Section Termination.

Variable snapshot : DataFrame.
Variables type_id region_id station_id : Z.
Variable type_map : dict SourceType.
Variables tax_rate efficiency station_tax broker_fee : Q.
Variable market_summary : list SummaryRow.
Variable volume_limit : Q.

Lemma setup_materials_finishes (mats : list TypeMaterial) :
  forall l : locals,
    finishes (setup_materials snapshot region_id station_id market_summary
                              volume_limit mats l).
Proof.
  induction mats as [|m mats IH]; intros l; simpl.
  - apply finishes_ret.
  - apply finishes_bind; [apply finishes_call|]. intros orders.
    apply finishes_bind; [apply finishes_lookup_or|]. intros row.
    apply finishes_bind; [apply spread_return_finishes|]. intros sr.
    apply IH.
Qed.

Section TerminationRounds.

Variable threshold : Q.
Variable source : SourceType.
Variable required_volume : Z.
Variable sell_order_list : list ref.
Variable buy_orders_of : dict (list ref).
Variable spreads : dict spread.

Hypothesis source_orders_distinct : NoDup sell_order_list.
Hypothesis material_orders_apart :
  forall k rs r,
    dict_get buy_orders_of k = Some rs -> r ∈ sell_order_list -> r ∉ rs.
Hypothesis required_positive : 0 < required_volume.

Abbreviation sell_one :=
  (sell_material region_id station_id efficiency threshold source
                 buy_orders_of spreads).
Abbreviation sell_all :=
  (sell_materials region_id station_id tax_rate efficiency station_tax
                  broker_fee threshold source buy_orders_of spreads).
Abbreviation one_round :=
  (attempt_round region_id station_id tax_rate efficiency station_tax
                 broker_fee threshold source required_volume sell_order_list
                 buy_orders_of spreads).
Abbreviation all_rounds :=
  (rounds region_id station_id tax_rate efficiency station_tax broker_fee
          threshold source required_volume sell_order_list buy_orders_of
          spreads).

Lemma sell_material_keeps (next_mat_id : Z) (budgets : dict Q) :
  preserves (keeps sell_order_list) (sell_one next_mat_id budgets).
Proof.
  pose proof (keeps_refl sell_order_list) as Hrefl.
  pose proof (keeps_trans sell_order_list) as Htrans.
  unfold sell_material.
  apply preserves_lookup_or; [exact Hrefl|]. intros sr _.
  apply preserves_lookup_or; [exact Hrefl|]. intros mat _.
  destruct (Qltb threshold (spread_value sr)).
  - apply preserves_lookup_or; [exact Hrefl|]. intros budget _.
    destruct (Qltb 0 (py_min _ budget)).
    + apply preserves_lookup_or; [exact Hrefl|]. intros ask _.
      now apply preserves_pure.
    + now apply preserves_pure.
  - apply preserves_lookup_or; [exact Hrefl|]. intros orders Horders.
    apply preserves_bind; [exact Htrans| |intros sold; now apply preserves_pure].
    intros h r Hr. unfold call, attempt_sell_type_list.
    destruct (sell_loop _ _ _ _ _ h) as [sold h'] eqn:E. simpl.
    change h' with (snd (sold, h')). rewrite <- E.
    apply sell_loop_other. now apply (material_orders_apart next_mat_id).
Qed.

Lemma sell_materials_keeps (mat_ids : list Z) :
  forall (cg cc : Q) (so : dict (list order_record)) (budgets : dict Q),
    preserves (keeps sell_order_list) (sell_all mat_ids cg cc so budgets).
Proof.
  induction mat_ids as [|m mat_ids IH]; intros cg cc so budgets; simpl.
  - apply preserves_pure; [apply keeps_refl | reflexivity].
  - apply preserves_bind;
      [apply keeps_trans | apply sell_material_keeps|].
    intros [[limit_sell sold] budgets'].
    destruct sold as [|x sold]; [|apply IH].
    apply preserves_pure; [apply keeps_refl | reflexivity].
Qed.

Lemma sell_material_finishes (next_mat_id : Z) (budgets : dict Q) :
  finishes (sell_one next_mat_id budgets).
Proof.
  unfold sell_material.
  apply finishes_bind; [apply finishes_lookup_or|]. intros sr.
  apply finishes_bind; [apply finishes_lookup_or|]. intros mat.
  destruct (Qltb threshold (spread_value sr)).
  - apply finishes_bind; [apply finishes_lookup_or|]. intros budget.
    destruct (Qltb 0 (py_min _ budget)); [|apply finishes_ret].
    apply finishes_bind; [apply finishes_lookup_or|]. intros ask.
    apply finishes_ret.
  - apply finishes_bind; [apply finishes_lookup_or|]. intros orders.
    apply finishes_bind; [apply finishes_call|]. intros sold.
    apply finishes_ret.
Qed.

Lemma sell_materials_finishes (mat_ids : list Z) :
  forall (cg cc : Q) (so : dict (list order_record)) (budgets : dict Q),
    finishes (sell_all mat_ids cg cc so budgets).
Proof.
  induction mat_ids as [|m mat_ids IH]; intros cg cc so budgets; simpl.
  - apply finishes_ret.
  - apply finishes_bind; [apply sell_material_finishes|].
    intros [[limit_sell sold] budgets'].
    destruct sold as [|x sold]; [apply finishes_ret | apply IH].
Qed.

Lemma attempt_round_finishes (budgets : dict Q) :
  finishes (one_round budgets).
Proof.
  unfold attempt_round. apply finishes_bind; [apply finishes_call|].
  intros [|x bought]; [apply finishes_ret|].
  apply finishes_bind; [apply sell_materials_finishes|].
  intros [[[[cg cc] so]|] budgets']; [|apply finishes_ret].
  destruct so as [|kv so]; [apply finishes_ret|].
  destruct (Qltb cc cg); apply finishes_ret.
Qed.

(** A recorded round takes [required_volume] units from the source orders. *)
Lemma attempt_round_consumes (budgets : dict Q) (h : heap)
    (b : list order_record) (s : dict (list order_record)) (g c : Q)
    (bud : dict Q) (h' : heap) :
  one_round budgets h = (Ok (Profitable b s g c bud), h') ->
  available h' sell_order_list
  = available h sell_order_list - required_volume.
Proof.
  unfold attempt_round. intros H.
  apply bind_ok in H as (bought & h1 & Hbuy & H). apply call_ok in Hbuy.
  destruct bought as [|x bought]; [discriminate H|].
  apply bind_ok in H as (r & h2 & Hsell & H).
  assert (h' = h2) as ->.
  { destruct r as [[[[cg cc] so]|] budgets']; [|discriminate H].
    destruct so as [|kv so]; [discriminate H|].
    destruct (Qltb cc cg); [|discriminate H].
    now apply ret_ok in H as [_ ->]. }
  pose proof (sell_materials_keeps (keys buy_orders_of) 0%Q
                (order_value (x :: bought)) [] budgets h1) as Hkeep.
  rewrite Hsell in Hkeep. simpl in Hkeep.
  rewrite (available_ext _ _ _ Hkeep).
  unfold attempt_buy_type_list in Hbuy.
  replace h1 with (snd (buy_loop sell_order_list required_volume [] h))
    by now rewrite Hbuy.
  apply buy_loop_available; try assumption.
  now rewrite Hbuy.
Qed.

Lemma rounds_finish (fuel : nat) :
  forall (l : locals) (h : heap),
    available h sell_order_list < Z.of_nat fuel ->
    fst (all_rounds fuel l h) <> OutOfFuel.
Proof.
  induction fuel as [|fuel IH]; intros l h Hfuel.
  - pose proof (available_not_negative h sell_order_list). lia.
  - simpl. unfold bind at 1.
    pose proof (attempt_round_finishes (limit_order_max l) h) as Hfin.
    destruct (one_round (limit_order_max l) h) as [[r|e|] h1] eqn:Hr;
      simpl in *; try easy.
    destruct r as [| | |b s g c bud]; try easy.
    apply attempt_round_consumes in Hr.
    unfold bind.
    pose proof (finishes_commit l b s g c bud h1) as Hfc.
    pose proof (commit_pure l b s g c bud h1) as Hpure.
    destruct (commit l b s g c bud h1) as [[l1|e|] h2]; simpl in *;
      try easy.
    subst h2. apply IH. lia.
Qed.

End TerminationRounds.

Lemma offered_nonneg (rows : DataFrame) : 0 <= offered rows.
Proof. induction rows as [|o rows IH]; simpl; lia. Qed.

(** With a positive portion size the loop ends within [enough_fuel]
    passes, whatever the store it starts on. *)
Lemma attempt_loop_finishes (fuel : nat) (source : SourceType) :
  dict_get type_map type_id = Some source ->
  0 < portionSize source ->
  (enough_fuel snapshot type_id station_id <= fuel)%nat ->
  finishes (attempt_loop snapshot type_id region_id station_id type_map
                         tax_rate efficiency station_tax broker_fee
                         market_summary volume_limit fuel).
Proof.
  intros Hsource Hportion Hfuel h. unfold attempt_loop.
  destruct (Qeq_bool (1 - tax_rate - broker_fee) 0); [discriminate|].
  rewrite Hsource. simpl lookup_or. rewrite bind_ret, bind_call.
  unfold extract_sell_orders, iterrows. cbn [fst snd].
  fold (sell_rows snapshot type_id station_id).
  set (rows := sell_rows snapshot type_id station_id) in *.
  set (h1 := h ++ rows).
  unfold bind.
  pose proof (setup_materials_framed h1 snapshot region_id station_id
                market_summary volume_limit (values (material_map source))
                (mkLocals [] [] [] [] [] 0%Q 0%Q) []) as Hset.
  rewrite app_nil_r in Hset. change (shift_locals h1 _) with
    (mkLocals [] [] [] [] [] 0%Q 0%Q) in Hset.
  rewrite Hset.
  pose proof (setup_materials_finishes (values (material_map source))
                (mkLocals [] [] [] [] [] 0%Q 0%Q) []) as Hfin.
  destruct (setup_materials _ _ _ _ _ _ _ []) as [[l0|e|] ext]; simpl in *;
    try easy.
  apply rounds_finish.
  - apply NoDup_seq.
  - intros k rs r Hrs Hr Hin.
    rewrite dict_get_shift in Hrs.
    destruct (dict_get (buy_order_map l0) k) as [rs0|]; [|discriminate].
    inversion Hrs; subst rs. unfold shift_list in Hin.
    apply list_elem_of_fmap in Hin as (r0 & -> & _).
    apply elem_of_seq in Hr. unfold h1 in Hr. rewrite length_app in Hr. lia.
  - exact Hportion.
  - rewrite (available_ext h1).
    + unfold h1. rewrite available_fresh.
      unfold enough_fuel in Hfuel. fold rows in Hfuel.
      pose proof (offered_nonneg rows). lia.
    + intros r Hr. apply elem_of_seq in Hr. unfold deref.
      apply lookup_total_app_l. unfold h1. rewrite length_app. lia.
Qed.

End Termination.

(** ** The report of an attempt *)

Lemma np_div_zero (a b : Q) : np_div a b = DivByZero <-> (b == 0)%Q.
Proof.
  unfold np_div. destruct (Qeq_bool b 0) eqn:E.
  - apply Qeq_bool_iff in E. tauto.
  - apply Qeq_bool_neq in E. split; [discriminate | tauto].
Qed.

Lemma report_some (l : locals) (o : Opportunity) :
  report l = Some o ->
  gross o = gross_total l /\ cost o = cost_total l /\
  profit o = (gross o - cost o)%Q /\
  margin o = np_div (profit o) (cost o) /\
  (cost o < gross o)%Q.
Proof.
  unfold report. destruct (Qltb (cost_total l) (gross_total l)) eqn:E;
    [|discriminate].
  intros H. inversion H; subst; simpl. apply Qltb_lt in E. auto.
Qed.

Lemma report_none (l : locals) :
  ~ (cost_total l < gross_total l)%Q -> report l = None.
Proof.
  unfold report. intros H.
  destruct (Qltb (cost_total l) (gross_total l)) eqn:E; [|reflexivity].
  apply Qltb_lt in E. contradiction.
Qed.

Lemma report_profit (l : locals) :
  (cost_total l < gross_total l)%Q ->
  exists o, report l = Some o /\ gross o = gross_total l /\
            cost o = cost_total l.
Proof.
  unfold report. intros H. apply Qltb_lt in H. rewrite H.
  eexists. split; [reflexivity|]. simpl. auto.
Qed.

(** C2.  An opportunity returned by [attempt_opportunity] has
    [profit = gross - cost], [margin = profit / cost] and [gross > cost];
    the result is built from the totals [l] the loop ends with: it is an
    opportunity with these totals when [gross > cost] and [None] in every
    other case.  With a positive portion size the loop ends, so a result or
    an exception is produced. *)
Theorem opportunity_record_invariant :
  forall (snapshot : DataFrame) (type_id region_id station_id : Z)
         (type_map : dict SourceType)
         (tax_rate efficiency station_tax broker_fee : Q)
         (market_summary : list SummaryRow) (volume_limit : Q),
    let attempt :=
      attempt_opportunity snapshot type_id region_id station_id type_map
                          tax_rate efficiency station_tax broker_fee
                          market_summary volume_limit in
    let loop :=
      attempt_loop snapshot type_id region_id station_id type_map tax_rate
                   efficiency station_tax broker_fee market_summary
                   volume_limit in
    (forall fuel h o h',
       attempt fuel h = (Ok (Some o), h') ->
       profit o = (gross o - cost o)%Q /\
       margin o = np_div (profit o) (cost o) /\
       (cost o < gross o)%Q) /\
    (forall fuel h l h',
       loop fuel h = (Ok l, h') ->
       attempt fuel h = (Ok (report l), h') /\
       ((cost_total l < gross_total l)%Q ->
        exists o, report l = Some o /\ gross o = gross_total l /\
                  cost o = cost_total l) /\
       (~ (cost_total l < gross_total l)%Q -> report l = None)) /\
    (forall source fuel h,
       dict_get type_map type_id = Some source ->
       0 < portionSize source ->
       (enough_fuel snapshot type_id station_id <= fuel)%nat ->
       fst (attempt fuel h) <> OutOfFuel).
Proof.
  intros snapshot type_id region_id station_id type_map tax_rate efficiency
    station_tax broker_fee market_summary volume_limit attempt loop.
  split; [|split].
  - intros fuel h o h' H. unfold attempt, attempt_opportunity in H.
    apply bind_ok in H as (l & h1 & _ & H). apply ret_ok in H as [H _].
    apply report_some in H. tauto.
  - intros fuel h l h' H. split; [|split].
    + unfold attempt, attempt_opportunity, bind. fold loop. now rewrite H.
    + apply report_profit.
    + apply report_none.
  - intros source fuel h Hs Hp Hf. unfold attempt, attempt_opportunity.
    apply finishes_bind; [|intros l; apply finishes_ret].
    now apply (attempt_loop_finishes _ _ _ _ _ _ _ _ _ _ _ _ source).
Qed.

(** C6, as the code has it.  Nothing guards a zero cost.  The margin of an
    opportunity is the quotient [(gross - cost) / cost] computed as it
    stands, and the aggregate return is [total_profit / total_cost] computed
    as it stands: the division is by zero exactly when the cost is zero. *)
Theorem zero_cost_is_not_guarded :
  (forall l o,
     report l = Some o ->
     margin o = np_div (gross o - cost o) (cost o) /\
     (margin o = DivByZero <-> (cost o == 0)%Q)) /\
  (forall opps,
     total_return opps = np_div (total_profit opps) (total_cost opps) /\
     (total_return opps = DivByZero <-> (total_cost opps == 0)%Q)).
Proof.
  split.
  - intros l o H. apply report_some in H as (_ & _ & Hp & Hm & _).
    rewrite Hm, Hp. split; [reflexivity | apply np_div_zero].
  - intros opps. split; [reflexivity | apply np_div_zero].
Qed.

(** ** The market summary *)

Lemma spread_return_raises (snapshot : DataFrame) (t s r : Z) (h : heap)
    (e : exn) (h' : heap) :
  spread_return snapshot t s r h = (Raise e, h') -> e = ZeroDivisionError.
Proof.
  unfold spread_return. rewrite bind_call.
  destruct (fst (extract_sell_orders snapshot t s h)) as [|first rest];
    [discriminate|].
  unfold bind at 1. unfold read at 1. rewrite bind_call.
  unfold bind, read.
  destruct (best_bid_loop _ _ _ _) as [bid|]; [|discriminate].
  destruct (Qeq_bool bid 0); [|discriminate].
  intros H. now inversion H.
Qed.

Lemma setup_materials_missing_row (snapshot : DataFrame)
    (region_id station_id : Z) (market_summary : list SummaryRow)
    (volume_limit : Q) (mats : list TypeMaterial) :
  forall (l : locals) (h : heap),
    (exists mat, mat ∈ mats /\
       filter (fun r => summary_type_id r = materialTypeID mat)
              market_summary = []) ->
    exists e h',
      setup_materials snapshot region_id station_id market_summary
                      volume_limit mats l h = (Raise e, h') /\
      (e = IndexError \/ e = ZeroDivisionError).
Proof.
  induction mats as [|m mats IH]; intros l h (mat & Hin & Hrow).
  - now apply elem_of_nil in Hin.
  - simpl. rewrite bind_call.
    destruct (filter (fun r => summary_type_id r = materialTypeID m)
                     market_summary) as [|row rows] eqn:Hm.
    + simpl. unfold bind, raise. eauto.
    + simpl. rewrite bind_ret. unfold bind at 1.
      pose proof (spread_return_finishes snapshot (materialTypeID m)
                    station_id region_id
                    (snd (extract_buy_orders snapshot (materialTypeID m) h)))
        as Hfin.
      destruct (spread_return _ _ _ _ _) as [[sr|e|] h1] eqn:Hsr;
        simpl in Hfin; try easy.
      * apply IH. exists mat. split; [|exact Hrow].
        apply elem_of_cons in Hin as [->|Hin]; [|exact Hin].
        rewrite Hrow in Hm. discriminate.
      * apply spread_return_raises in Hsr. eauto.
Qed.

(** C10.  When a refined material of the source type has no row in the
    market summary, the attempt raises: the budget lookup takes the first
    element of an empty list (IndexError), unless a division by zero came
    first.  It neither returns [None] nor ends gracefully.  When the first
    material of the map is the one without a row, the exception is the
    IndexError. *)
Theorem attempt_fails_without_summary_row :
  forall (snapshot : DataFrame) (type_id region_id station_id : Z)
         (type_map : dict SourceType)
         (tax_rate efficiency station_tax broker_fee : Q)
         (market_summary : list SummaryRow) (volume_limit : Q)
         (source : SourceType) (fuel : nat) (h : heap),
    dict_get type_map type_id = Some source ->
    (exists mat, mat ∈ values (material_map source) /\
       filter (fun r => summary_type_id r = materialTypeID mat)
              market_summary = []) ->
    (exists e h',
       attempt_opportunity snapshot type_id region_id station_id type_map
                           tax_rate efficiency station_tax broker_fee
                           market_summary volume_limit fuel h
       = (Raise e, h') /\
       (e = IndexError \/ e = ZeroDivisionError)) /\
    (forall mat rest,
       values (material_map source) = mat :: rest ->
       filter (fun r => summary_type_id r = materialTypeID mat)
              market_summary = [] ->
       ~ (1 - tax_rate - broker_fee == 0)%Q ->
       exists h',
         attempt_opportunity snapshot type_id region_id station_id type_map
                             tax_rate efficiency station_tax broker_fee
                             market_summary volume_limit fuel h
         = (Raise IndexError, h')).
Proof.
  intros snapshot type_id region_id station_id type_map tax_rate efficiency
    station_tax broker_fee market_summary volume_limit source fuel h
    Hsource Hmissing.
  unfold attempt_opportunity, attempt_loop. split.
  - destruct (Qeq_bool (1 - tax_rate - broker_fee) 0).
    { unfold bind, raise. eauto. }
    rewrite Hsource. simpl lookup_or. unfold bind at 1.
    rewrite bind_ret, bind_call. unfold bind at 1.
    destruct (setup_materials_missing_row snapshot region_id station_id
                market_summary volume_limit (values (material_map source))
                (mkLocals [] [] [] [] [] 0%Q 0%Q)
                (snd (extract_sell_orders snapshot type_id station_id h))
                Hmissing) as (e & h' & -> & He).
    eauto.
  - intros mat rest Hvals Hrow Hrate.
    destruct (Qeq_bool (1 - tax_rate - broker_fee) 0) eqn:E.
    { apply Qeq_bool_iff in E. contradiction. }
    rewrite Hsource. simpl lookup_or. unfold bind at 1.
    rewrite bind_ret, bind_call. unfold bind at 1.
    rewrite Hvals. simpl setup_materials. rewrite bind_call, Hrow.
    simpl. unfold bind, raise. eauto.
Qed.

(** ** Limit or market liquidation *)

Lemma sell_loop_market (region location : Z) (l : list ref) :
  forall (v : Z) (pot : list order_record) (h : heap),
    Forall (fun x => market x = true) pot ->
    Forall (fun x => market x = true)
           (fst (sell_loop region location l v pot h)).
Proof.
  induction l as [|r l IH]; intros v pot h Hpot; [constructor|].
  rewrite sell_loop_cons.
  destruct (sell_accepts region location v (deref h r)); cbv zeta.
  - assert (Forall (fun x => market x = true)
              (pot ++ [mkRecord (price (deref h r))
                         (inject_Z (Z.min v (volume (deref h r)))) true])).
    { apply Forall_app. split; [exact Hpot|]. now repeat constructor. }
    destruct (v - Z.min v (volume (deref h r)) =? 0); [assumption|].
    now apply IH.
  - destruct (v =? 0); [assumption | now apply IH].
Qed.

Lemma attempt_loop_unfold (snapshot : DataFrame)
    (type_id region_id station_id : Z) (type_map : dict SourceType)
    (tax_rate efficiency station_tax broker_fee : Q)
    (market_summary : list SummaryRow) (volume_limit : Q)
    (source : SourceType) (fuel : nat) (h : heap) :
  ~ (1 - tax_rate - broker_fee == 0)%Q ->
  dict_get type_map type_id = Some source ->
  attempt_loop snapshot type_id region_id station_id type_map tax_rate
               efficiency station_tax broker_fee market_summary volume_limit
               fuel h
  = let (sell_order_list, h1) :=
      extract_sell_orders snapshot type_id station_id h in
    match setup_materials snapshot region_id station_id market_summary
                          volume_limit (values (material_map source))
                          (mkLocals [] [] [] [] [] 0%Q 0%Q) h1 with
    | (Ok l, h2) =>
        rounds region_id station_id tax_rate efficiency station_tax
               broker_fee (limit_threshold tax_rate broker_fee) source
               (portionSize source) sell_order_list (buy_order_map l)
               (spread_data l) fuel l h2
    | (Raise e, h2) => (Raise e, h2)
    | (OutOfFuel, h2) => (OutOfFuel, h2)
    end.
Proof.
  intros Hrate Hsource. unfold attempt_loop.
  destruct (Qeq_bool (1 - tax_rate - broker_fee) 0) eqn:E.
  { apply Qeq_bool_iff in E. contradiction. }
  rewrite Hsource. simpl lookup_or. rewrite bind_ret, bind_call.
  destruct (extract_sell_orders snapshot type_id station_id h) as [sol h1].
  reflexivity.
Qed.

(** C4, with the threshold of the example as the code computes it.  Each
    time a refined material is sold, limit orders are chosen if and only if
    the spread return recorded for the material strictly exceeds the
    threshold; the records of the sale are then limit orders
    ([market = False]) and no order of the book is consumed, and otherwise
    they are market orders from [attempt_sell_type_list] and the limit
    order budgets are untouched.  The loop is run with
    [limit_threshold = broker_fee / (1 - tax_rate - broker_fee)] and the
    spread data computed before it.  With [tax_rate = 0.01] and
    [broker_fee = 0.025] the threshold is 5/193, which is 0.0259 to four
    decimal places, and a spread return of 0.05 selects limit orders. *)
Theorem limit_mode_iff_spread_exceeds_threshold :
  (forall (region_id station_id : Z) (efficiency threshold : Q)
          (source : SourceType) (buy_orders_of : dict (list ref))
          (spreads : dict spread) (next_mat_id : Z) (budgets : dict Q)
          (sr : spread) (h : heap) (limit_sell : bool)
          (sold : list order_record) (budgets' : dict Q) (h' : heap),
     dict_get spreads next_mat_id = Some sr ->
     sell_material region_id station_id efficiency threshold source
                   buy_orders_of spreads next_mat_id budgets h
     = (Ok (limit_sell, sold, budgets'), h') ->
     (limit_sell = true <-> (threshold < spread_value sr)%Q) /\
     Forall (fun x => market x = negb limit_sell) sold /\
     (limit_sell = true -> h' = h) /\
     (limit_sell = false -> budgets' = budgets)) /\
  (forall (snapshot : DataFrame) (type_id region_id station_id : Z)
          (type_map : dict SourceType)
          (tax_rate efficiency station_tax broker_fee : Q)
          (market_summary : list SummaryRow) (volume_limit : Q)
          (source : SourceType) (fuel : nat) (h : heap),
     ~ (1 - tax_rate - broker_fee == 0)%Q ->
     dict_get type_map type_id = Some source ->
     attempt_loop snapshot type_id region_id station_id type_map tax_rate
                  efficiency station_tax broker_fee market_summary
                  volume_limit fuel h
     = let (sell_order_list, h1) :=
         extract_sell_orders snapshot type_id station_id h in
       match setup_materials snapshot region_id station_id market_summary
                             volume_limit (values (material_map source))
                             (mkLocals [] [] [] [] [] 0%Q 0%Q) h1 with
       | (Ok l, h2) =>
           rounds region_id station_id tax_rate efficiency station_tax
                  broker_fee (limit_threshold tax_rate broker_fee) source
                  (portionSize source) sell_order_list (buy_order_map l)
                  (spread_data l) fuel l h2
       | (Raise e, h2) => (Raise e, h2)
       | (OutOfFuel, h2) => (OutOfFuel, h2)
       end) /\
  (limit_threshold (1 # 100) (25 # 1000) == 5 # 193)%Q /\
  ((259 # 10000) - (5 # 100000) < limit_threshold (1 # 100) (25 # 1000)
   /\ limit_threshold (1 # 100) (25 # 1000)
      < (259 # 10000) + (5 # 100000))%Q /\
  (forall value : Q,
     (value == 5 # 100)%Q ->
     Qltb (limit_threshold (1 # 100) (25 # 1000)) value = true).
Proof.
  split; [|split; [|split; [|split]]].
  - intros region_id station_id efficiency threshold source buy_orders_of
      spreads next_mat_id budgets sr h limit_sell sold budgets' h' Hsr H.
    unfold sell_material in H. rewrite Hsr in H. simpl lookup_or in H.
    rewrite bind_ret in H.
    apply bind_ok in H as (mat & h1 & Hmat & H).
    apply lookup_or_ok in Hmat as [_ ->].
    destruct (Qltb threshold (spread_value sr)) eqn:E.
    + apply bind_ok in H as (budget & h2 & Hb & H).
      apply lookup_or_ok in Hb as [_ ->].
      destruct (Qltb 0 (py_min _ budget)).
      * apply bind_ok in H as (ask & h3 & Ha & H).
        apply lookup_or_ok in Ha as [_ ->].
        apply ret_ok in H as [H ->]. inversion H; subst.
        apply Qltb_lt in E. repeat split; auto; try discriminate;
          try (now repeat constructor).
      * apply ret_ok in H as [H ->]. inversion H; subst.
        apply Qltb_lt in E. repeat split; auto; try discriminate.
    + apply bind_ok in H as (orders & h2 & Ho & H).
      apply lookup_or_ok in Ho as [_ ->].
      apply bind_ok in H as (sold' & h3 & Hsell & H).
      apply call_ok in Hsell. apply ret_ok in H as [H ->].
      inversion H; subst. apply Qltb_ge in E. repeat split; auto;
        try discriminate.
      * intros Hlt. exfalso. now apply (Qlt_not_le _ _ Hlt).
      * unfold attempt_sell_type_list in Hsell.
        replace sold with
          (fst (sell_loop region_id station_id orders
                  (py_int (inject_Z (quantity mat) * efficiency)) [] h))
          by now rewrite Hsell.
        apply sell_loop_market. constructor.
  - intros. now apply attempt_loop_unfold.
  - reflexivity.
  - split; reflexivity.
  - intros value Hv. apply Qltb_lt. rewrite Hv. reflexivity.
Qed.

(** ** Order matcher: the fills and the book *)

Lemma lowered_refl (o : Order) : lowered o o.
Proof. unfold lowered. destruct o; simpl. repeat split; auto; lia. Qed.

Lemma lowered_trans (o1 o2 o3 : Order) :
  lowered o1 o2 -> lowered o2 o3 -> lowered o1 o3.
Proof.
  unfold lowered. intros (E12 & L12 & P12) (E23 & L23 & P23).
  repeat split; [|lia|auto].
  rewrite E23. rewrite E12 at 1. reflexivity.
Qed.

Lemma lowered_insert (h : heap) (r r' : ref) (v : Z) :
  0 <= v -> v <= volume (deref h r) ->
  lowered (deref h r')
          (deref (<[r := set_volume (deref h r) (volume (deref h r) - v)]> h)
                 r').
Proof.
  intros Hv Hle. unfold deref in *. rewrite list_lookup_total_insert.
  destruct (decide (r = r' /\ (r < length h)%nat)) as [[-> _]|_];
    [|apply lowered_refl].
  unfold lowered. simpl. repeat split; lia.
Qed.

Lemma sell_loop_lowers (region location : Z) (l : list ref) :
  forall (v : Z) (pot : list order_record) (h : heap) (r : ref),
    0 <= v ->
    lowered (deref h r) (deref (snd (sell_loop region location l v pot h)) r).
Proof.
  induction l as [|r0 l IH]; intros v pot h r Hv; [apply lowered_refl|].
  rewrite sell_loop_cons.
  destruct (sell_accepts region location v (deref h r0)) eqn:Hc; cbv zeta.
  - apply sell_accepts_volume in Hc.
    assert (Hstep : lowered (deref h r)
              (deref (<[r0 := set_volume (deref h r0)
                          (volume (deref h r0)
                           - Z.min v (volume (deref h r0)))]> h) r))
      by (apply lowered_insert; lia).
    destruct (v - Z.min v (volume (deref h r0)) =? 0); simpl;
      [exact Hstep|].
    eapply lowered_trans; [exact Hstep|]. apply IH. lia.
  - destruct (v =? 0); simpl; [apply lowered_refl | now apply IH].
Qed.

(** The prices of the fills, in the order of the book. *)
Lemma price_insert (h : heap) (r r' : ref) (v : Z) :
  price (deref (<[r := set_volume (deref h r) v]> h) r')
  = price (deref h r').
Proof.
  unfold deref. rewrite list_lookup_total_insert.
  now destruct (decide (r = r' /\ (r < length h)%nat)) as [[-> _]|_].
Qed.

Lemma sell_loop_fills (region location : Z) (l : list ref) :
  forall (v : Z) (pot : list order_record) (h : heap),
    exists fills : list order_record,
      (fst (sell_loop region location l v pot h) = [] \/
       fst (sell_loop region location l v pot h) = pot ++ fills) /\
      map rec_price fills `sublist_of` map (fun r => price (deref h r)) l /\
      Forall (fun x => market x = true) fills /\
      (0 < v -> Forall (fun x => (0 < rec_volume x)%Q) fills).
Proof.
  induction l as [|r l IH]; intros v pot h.
  - exists []. simpl. split; [now left|]. split; [constructor|].
    split; [constructor|]. intros _. constructor.
  - rewrite sell_loop_cons.
    destruct (sell_accepts region location v (deref h r)) eqn:Hc; cbv zeta.
    + apply sell_accepts_volume in Hc.
      set (a := Z.min v (volume (deref h r))).
      set (x := mkRecord (price (deref h r)) (inject_Z a) true).
      set (h1 := <[r := set_volume (deref h r) (volume (deref h r) - a)]> h).
      assert (Hx : 0 < v -> (0 < rec_volume x)%Q).
      { intros Hv. simpl. change 0%Q with (inject_Z 0).
        rewrite <- Zlt_Qlt. unfold a. lia. }
      destruct (v - a =? 0) eqn:Hz.
      * exists [x]. split; [now right|]. split; [|split].
        -- simpl. apply sublist_skip, sublist_nil_l.
        -- now repeat constructor.
        -- intros Hv. constructor; [auto | constructor].
      * destruct (IH (v - a) (pot ++ [x]) h1)
          as (fills & Hres & Hsub & Hm & Hpos).
        exists (x :: fills). split; [|split; [|split]].
        -- destruct Hres as [->| ->]; [now left|right].
           now rewrite <- app_assoc.
        -- simpl. apply sublist_skip.
           rewrite (map_ext (fun r' => price (deref h1 r'))
                            (fun r' => price (deref h r'))) in Hsub;
             [exact Hsub|].
           intros r'. unfold h1. apply price_insert.
        -- now constructor.
        -- intros Hv. constructor; [auto|]. apply Hpos.
           apply Z.eqb_neq in Hz. unfold a in *. lia.
    + destruct (v =? 0) eqn:Hz.
      * exists []. rewrite app_nil_r. split; [now right|].
        split; [apply sublist_nil_l|]. split; [constructor|].
        intros _. constructor.
      * destruct (IH v pot h) as (fills & Hres & Hsub & Hm & Hpos).
        exists fills. split; [exact Hres|]. split; [|split; assumption].
        simpl. now apply sublist_cons.
Qed.

(** A filled request takes from the book exactly what it fills. *)
Lemma sell_loop_available (region location : Z) (l : list ref) :
  forall (v : Z) (pot : list order_record) (h : heap),
    NoDup l -> 0 < v -> fst (sell_loop region location l v pot h) <> [] ->
    available (snd (sell_loop region location l v pot h)) l
    = available h l - v.
Proof.
  induction l as [|r l IH]; intros v pot h Hnd Hv.
  - simpl. intros H. now contradiction H.
  - rewrite sell_loop_cons.
    apply NoDup_cons in Hnd as [Hr Hnd].
    assert (Hkeep : forall o, available (<[r := o]> h) l = available h l).
    { intros o. apply available_ext. intros r' Hr'.
      apply deref_insert_ne. intros ->. contradiction. }
    destruct (sell_accepts region location v (deref h r)) eqn:Hc; cbv zeta.
    + apply sell_accepts_volume in Hc.
      pose proof (deref_live _ _ Hc) as Hlive.
      destruct (v - Z.min v (volume (deref h r)) =? 0) eqn:Hz; simpl.
      * intros _. apply Z.eqb_eq in Hz.
        rewrite deref_insert_eq, Hkeep by assumption. simpl. lia.
      * intros Hne. apply Z.eqb_neq in Hz.
        rewrite IH by (try assumption; lia).
        rewrite sell_loop_other, deref_insert_eq, Hkeep by assumption.
        simpl. lia.
    + destruct (v =? 0) eqn:Hz; simpl.
      * apply Z.eqb_eq in Hz. lia.
      * intros Hne. rewrite IH, sell_loop_other by assumption. lia.
Qed.

(** Orders that cannot take part are left as they are. *)
Lemma sell_loop_skips (region location : Z) (l : list ref) :
  forall (v : Z) (pot : list order_record) (h : heap) (r : ref) (top : Z),
    0 <= v -> v <= top ->
    out_of_reach region location top (deref h r) ->
    deref (snd (sell_loop region location l v pot h)) r = deref h r.
Proof.
  induction l as [|r0 l IH]; intros v pot h r top Hv Htop Hr; [reflexivity|].
  rewrite sell_loop_cons.
  assert (Hno : sell_accepts region location v (deref h r) = false).
  { unfold sell_accepts, out_of_reach in *. destruct Hr as [Hr|[Hr|Hr]].
    - replace (min_volume (deref h r) <=? v) with false; [reflexivity|].
      symmetry. apply Z.leb_gt. lia.
    - replace (0 <? volume (deref h r)) with false;
        [now rewrite andb_false_r|].
      symmetry. apply Z.ltb_ge. lia.
    - destruct (check_range region location (location_id (deref h r))
                            (order_range (deref h r)));
        [now contradiction Hr | apply andb_false_r | apply andb_false_r]. }
  destruct (sell_accepts region location v (deref h r0)) eqn:Hc; cbv zeta.
  - assert (Hne : r0 <> r) by (intros ->; congruence).
    apply sell_accepts_volume in Hc.
    destruct (v - Z.min v (volume (deref h r0)) =? 0); simpl.
    + now apply deref_insert_ne.
    + rewrite (IH _ _ _ r top); rewrite ?deref_insert_ne by assumption;
        try lia; auto.
  - destruct (v =? 0); simpl; [reflexivity|]. now apply (IH _ _ _ r top).
Qed.

(** ** Snapshot extractor and spread evaluator: what they read *)

Lemma map_deref_fresh (rows : DataFrame) :
  forall h : heap,
    map (deref (h ++ rows)) (seq (length h) (length rows)) = rows.
Proof.
  induction rows as [|o rows IH]; intros h; simpl; [reflexivity|].
  unfold deref at 1. rewrite list_lookup_total_middle by reflexivity.
  f_equal. specialize (IH (h ++ [o])).
  rewrite <- app_assoc, length_app in IH. simpl in IH.
  now rewrite Nat.add_1_r in IH.
Qed.

Lemma best_bid_loop_rows (region station : Z) (refs : list ref) (h : heap) :
  best_bid_loop region station refs h
  = first_in_range region station (map (deref h) refs).
Proof.
  induction refs as [|r refs IH]; simpl; [reflexivity|].
  unfold bid_try.
  destruct (check_range region station (location_id (deref h r))
                        (order_range (deref h r))); simpl; auto.
Qed.

Lemma map_deref_old (h k : heap) (refs : list ref) :
  Forall (fun r => (r < length h)%nat) refs ->
  map (deref (h ++ k)) refs = map (deref h) refs.
Proof.
  induction 1 as [|r refs Hr _ IH]; simpl; [reflexivity|].
  rewrite IH. f_equal. unfold deref. now apply lookup_total_app_l.
Qed.

(** The spread evaluator as a function of the rows of the snapshot. *)
Lemma spread_return_rows (snapshot : DataFrame) (t s r : Z) (h : heap) :
  fst (spread_return snapshot t s r h)
  = match sell_rows snapshot t s with
    | [] => Ok neutral_spread
    | first :: _ =>
        match first_in_range r s (buy_rows snapshot t) with
        | None => Ok neutral_spread
        | Some bid =>
            if Qeq_bool bid 0 then Raise ZeroDivisionError
            else Ok (mkSpread ((price first - bid) / bid) (Some bid)
                              (Some (price first)))
        end
    end.
Proof.
  unfold spread_return. rewrite bind_call.
  unfold extract_sell_orders, iterrows. cbn [fst snd].
  fold (sell_rows snapshot t s).
  destruct (sell_rows snapshot t s) as [|first rest] eqn:Hrows;
    [reflexivity|].
  cbn [length seq]. unfold bind at 1. unfold read at 1.
  rewrite bind_call. unfold extract_buy_orders, iterrows. cbn [fst snd].
  fold (buy_rows snapshot t).
  unfold bind, read. rewrite best_bid_loop_rows, map_deref_fresh.
  replace (price (deref (h ++ first :: rest) (length h))) with (price first).
  - destruct (first_in_range r s (buy_rows snapshot t)) as [bid|];
      [|reflexivity].
    now destruct (Qeq_bool bid 0).
  - unfold deref. now rewrite list_lookup_total_middle.
Qed.

(** X12.  The spread evaluator reads the best ask and the best bid off the
    snapshot, whatever the store it runs on.  The best ask is the price of
    the first sell row of the type at the station and the best bid the
    price of the first buy row of the type whose range covers the station.
    When one of them is missing the result is the neutral structure
    (spread 0, no bid, no ask); otherwise the spread is
    [(ask - bid) / bid], unless the bid is zero, which raises
    ZeroDivisionError. *)
Theorem spread_return_reads_the_book :
  forall (snapshot : DataFrame) (type_id station_id region_id : Z)
         (h : heap),
    let result :=
      fst (spread_return snapshot type_id station_id region_id h) in
    let asks := sell_rows snapshot type_id station_id in
    let bid :=
      first_in_range region_id station_id (buy_rows snapshot type_id) in
    (asks = [] \/ bid = None -> result = Ok neutral_spread) /\
    (forall first rest b,
       asks = first :: rest -> bid = Some b ->
       ((b == 0)%Q -> result = Raise ZeroDivisionError) /\
       (~ (b == 0)%Q ->
        result = Ok (mkSpread ((price first - b) / b) (Some b)
                              (Some (price first))))).
Proof.
  intros snapshot t s r h. cbv zeta. rewrite spread_return_rows. split.
  - intros [-> | ->]; [reflexivity|].
    now destruct (sell_rows snapshot t s).
  - intros first rest b -> ->. split; intros Hb.
    + apply Qeq_bool_iff in Hb. now rewrite Hb.
    + destruct (Qeq_bool b 0) eqn:E; [|reflexivity].
      apply Qeq_bool_iff in E. contradiction.
Qed.

(** ** Opportunity attempter: the money of a report *)

Section Accounting.

Variable snapshot : DataFrame.
Variables type_id region_id station_id : Z.
Variable type_map : dict SourceType.
Variables tax_rate efficiency station_tax broker_fee : Q.
Variable market_summary : list SummaryRow.
Variable volume_limit : Q.

Section AccountingRounds.

Variable threshold : Q.
Variable source : SourceType.
Variable required_volume : Z.
Variable sell_order_list : list ref.
Variable buy_orders_of : dict (list ref).
Variable spreads : dict spread.

Abbreviation a_sale :=
  (sell_material region_id station_id efficiency threshold source
                 buy_orders_of spreads).
Abbreviation the_sales :=
  (sell_materials region_id station_id tax_rate efficiency station_tax
                  broker_fee threshold source buy_orders_of spreads).
Abbreviation a_round :=
  (attempt_round region_id station_id tax_rate efficiency station_tax
                 broker_fee threshold source required_volume sell_order_list
                 buy_orders_of spreads).
Abbreviation some_rounds :=
  (rounds region_id station_id tax_rate efficiency station_tax broker_fee
          threshold source required_volume sell_order_list buy_orders_of
          spreads).

(** The records of a sale are limit orders or market orders as the spread
    of the material decides. *)
Lemma sell_material_flags (m : Z) (budgets : dict Q) (h : heap)
    (limit_sell : bool) (sold : list order_record) (budgets' : dict Q)
    (h' : heap) :
  a_sale m budgets h = (Ok (limit_sell, sold, budgets'), h') ->
  limit_sell = sells_with_limit threshold spreads m /\
  Forall (fun x => market x = negb limit_sell) sold.
Proof.
  unfold sell_material, sells_with_limit. intros H.
  apply bind_ok in H as (sr & h1 & Hsr & H).
  apply lookup_or_ok in Hsr as [-> ->].
  apply bind_ok in H as (mat & h1 & Hmat & H).
  apply lookup_or_ok in Hmat as [_ ->].
  destruct (Qltb threshold (spread_value sr)) eqn:E.
  - apply bind_ok in H as (budget & h2 & Hb & H).
    apply lookup_or_ok in Hb as [_ ->].
    destruct (Qltb 0 (py_min _ budget)).
    + apply bind_ok in H as (ask & h3 & Ha & H).
      apply lookup_or_ok in Ha as [_ ->].
      apply ret_ok in H as [H _]. inversion H; subst.
      split; [reflexivity | now repeat constructor].
    + apply ret_ok in H as [H _]. inversion H; subst.
      split; [reflexivity | constructor].
  - apply bind_ok in H as (orders & h2 & Ho & H).
    apply lookup_or_ok in Ho as [_ ->].
    apply bind_ok in H as (sold' & h3 & Hsell & H).
    apply call_ok in Hsell. apply ret_ok in H as [H _].
    inversion H; subst. split; [reflexivity|].
    unfold attempt_sell_type_list in Hsell.
    replace sold with
      (fst (sell_loop region_id station_id orders
              (py_int (inject_Z (quantity mat) * efficiency)) [] h))
      by now rewrite Hsell.
    apply sell_loop_market. constructor.
Qed.

(** The loop over the materials: what it adds to the gross and to the cost
    of the round is what the sales it lists bring in and are charged. *)
Lemma sell_materials_accounts (mat_ids : list Z) :
  forall (cg cc : Q) (so : dict (list order_record)) (budgets : dict Q)
         (h : heap) (cg' cc' : Q) (so' : dict (list order_record))
         (budgets' : dict Q) (h' : heap),
    the_sales mat_ids cg cc so budgets h
    = (Ok (Some (cg', cc', so'), budgets'), h') ->
    NoDup mat_ids -> (forall m, m ∈ mat_ids -> m ∉ keys so) ->
    exists sales : dict (list order_record),
      so' = so ++ sales /\ keys sales = mat_ids /\
      Forall (fun kv => snd kv <> []) sales /\
      flagged threshold spreads sales /\
      (cg' == cg + sales_proceeds tax_rate broker_fee sales)%Q /\
      (cc' == cc + station_tax * sales_value sales)%Q.
Proof.
  induction mat_ids as [|m mat_ids IH];
    intros cg cc so budgets h cg' cc' so' budgets' h' H Hnd Hfresh.
  - simpl in H. apply ret_ok in H as [H _]. inversion H; subst.
    exists []. rewrite app_nil_r.
    repeat split; try constructor; unfold sales_proceeds, sales_value;
      simpl; ring.
  - simpl in H. apply bind_ok in H as (r & h1 & Hsale & H).
    destruct r as [[limit_sell sold] budgets1].
    apply sell_material_flags in Hsale as [Hlimit Hflags].
    destruct sold as [|x sold]; [apply ret_ok in H as [H _]; discriminate H|].
    apply NoDup_cons in Hnd as [Hm Hnd].
    rewrite dict_set_fresh in H
      by (apply Hfresh, list_elem_of_here).
    apply IH in H as (sales & -> & Hkeys & Hne & Hfl & Hg & Hc);
      [|exact Hnd|].
    + exists ((m, x :: sold) :: sales). rewrite <- app_assoc.
      split; [reflexivity|]. split; [unfold keys in *; simpl; congruence|].
      split; [constructor; [discriminate | exact Hne]|].
      split; [constructor; [simpl; now rewrite <- Hlimit | exact Hfl]|].
      unfold sales_proceeds, sales_value, dict_sum in *.
      cbn [foldr snd]. rewrite Hg, Hc.
      rewrite (proceeds_flagged tax_rate broker_fee (negb limit_sell)
                 (x :: sold) Hflags).
      split; destruct limit_sell; simpl negb; cbv iota; ring.
    + intros m' Hm' Hin. unfold keys in Hin. rewrite map_app in Hin.
      apply elem_of_app in Hin as [Hin|Hin].
      * apply (Hfresh m'); [now apply list_elem_of_further | exact Hin].
      * simpl in Hin. apply list_elem_of_singleton in Hin. now subst m'.
Qed.

(** A round that is recorded: its gross is what its sales bring in, its
    cost the price of the source it bought and the station tax on the
    value of its sales. *)
Lemma attempt_round_accounts (budgets : dict Q) (h : heap)
    (b : list order_record) (s : dict (list order_record)) (g c : Q)
    (bud : dict Q) (h' : heap) :
  a_round budgets h = (Ok (Profitable b s g c bud), h') ->
  NoDup (keys buy_orders_of) ->
  keys s = keys buy_orders_of /\
  Forall (fun kv => snd kv <> []) s /\
  flagged threshold spreads s /\
  (g == sales_proceeds tax_rate broker_fee s)%Q /\
  (c == order_value b + station_tax * sales_value s)%Q.
Proof.
  unfold attempt_round. intros H Hnd.
  apply bind_ok in H as (bought & h1 & _ & H).
  destruct bought as [|x bought]; [discriminate H|].
  apply bind_ok in H as (r & h2 & Hsell & H).
  destruct r as [[[[cg cc] so]|] budgets']; [|discriminate H].
  apply sell_materials_accounts in Hsell
    as (sales & Hso & Hkeys & Hne & Hfl & Hg & Hc);
    [|exact Hnd|intros m _; apply not_elem_of_nil].
  simpl in Hso. subst so.
  destruct sales as [|kv sales]; [discriminate H|].
  destruct (Qltb cc cg); [|discriminate H].
  apply ret_ok in H as [H _]. inversion H; subst.
  repeat split; try assumption. rewrite Hg. ring.
Qed.

(** Recording the sales of a round in [all_sell_orders]. *)
Lemma extend_all_accounts (s : dict (list order_record)) :
  forall a a' : dict (list order_record),
    extend_all a s = Some a' ->
    keys a' = keys a /\
    (sales_value a' == sales_value a + sales_value s)%Q /\
    (sales_proceeds tax_rate broker_fee a'
     == sales_proceeds tax_rate broker_fee a
        + sales_proceeds tax_rate broker_fee s)%Q /\
    (flagged threshold spreads a -> flagged threshold spreads s ->
     flagged threshold spreads a').
Proof.
  clear check_range.
  induction s as [|[i sold] s IH]; intros a a' H; simpl in H.
  - injection H as <-. unfold sales_value, sales_proceeds, dict_sum. simpl.
    repeat split; try ring. auto.
  - destruct (dict_get a i) as [l|] eqn:Hl; [|discriminate H].
    apply IH in H as (Hkeys & Hv & Hp & Hfl).
    assert (Hin : i ∈ keys a) by (apply dict_get_keys; eauto).
    rewrite keys_dict_set_in in Hkeys by assumption.
    split; [exact Hkeys|]. unfold sales_value, sales_proceeds in *.
    rewrite (dict_sum_set order_value _ _ l) in Hv by assumption.
    rewrite (dict_sum_set (proceeds tax_rate broker_fee) _ _ l) in Hp
      by assumption.
    rewrite order_value_app in Hv. rewrite proceeds_app in Hp.
    split; [|split].
    + rewrite Hv. unfold dict_sum. simpl. ring.
    + rewrite Hp. unfold dict_sum. simpl. ring.
    + intros Ha Hs. apply Forall_cons in Hs as [Hsold Hs].
      apply Hfl; [|exact Hs]. clear -Ha Hl Hsold. simpl in Hsold.
      induction a as [|[k v] a IHa]; simpl in *; [discriminate|].
      apply Forall_cons in Ha as [Hv Ha]. simpl in Hv.
      destruct (k =? i) eqn:E.
      * apply Z.eqb_eq in E. subst k. injection Hl as ->.
        constructor; [|exact Ha]. simpl. apply Forall_app. now split.
      * constructor; [exact Hv|]. now apply IHa.
Qed.

(** The totals of the loop and the orders it has recorded move together. *)
Lemma rounds_accounts (fuel : nat) :
  forall (l : locals) (h : heap) (l' : locals) (h' : heap),
    some_rounds fuel l h = (Ok l', h') ->
    NoDup (keys buy_orders_of) ->
    flagged threshold spreads (all_sell_orders l) ->
    flagged threshold spreads (all_sell_orders l') /\
    keys (all_sell_orders l') = keys (all_sell_orders l) /\
    (gross_total l' - gross_total l
     == sales_proceeds tax_rate broker_fee (all_sell_orders l')
        - sales_proceeds tax_rate broker_fee (all_sell_orders l))%Q /\
    (cost_total l' - cost_total l
     == order_value (all_buy_orders l') - order_value (all_buy_orders l)
        + station_tax * (sales_value (all_sell_orders l')
                         - sales_value (all_sell_orders l)))%Q.
Proof.
  induction fuel as [|fuel IH]; intros l h l' h' H Hnd Hfl; simpl in H.
  - discriminate H.
  - apply bind_ok in H as (r & h1 & Hr & H).
    destruct r as [| | |b s g c bud].
    1-3: apply ret_ok in H as [<- _]; repeat split; try assumption; ring.
    apply attempt_round_accounts in Hr as (_ & _ & Hfs & Hg & Hc);
      [|exact Hnd].
    apply bind_ok in H as (l1 & h2 & Hcommit & H).
    unfold commit in Hcommit.
    apply bind_ok in Hcommit as (all_sell & h3 & Hext & Hcommit).
    apply lookup_or_ok in Hext as [Hext _].
    apply ret_ok in Hcommit as [<- _].
    apply extend_all_accounts in Hext as (Hkeys & Hv & Hp & Hfl1).
    apply IH in H as (Hfl' & Hkeys' & Hg' & Hc'); [|exact Hnd|].
    + simpl in *. split; [exact Hfl'|]. split; [congruence|].
      rewrite order_value_app in Hc'. split; [lra|].
      rewrite Hv, Hc in Hc'. lra.
    + simpl. now apply Hfl1.
Qed.

End AccountingRounds.

Lemma dict_set_values {V : Type} (P : V -> Prop) (d : dict V) (k : Z)
    (v : V) :
  Forall (fun kv => P (snd kv)) d -> P v ->
  Forall (fun kv => P (snd kv)) (dict_set d k v).
Proof.
  intros Hd Hv. induction d as [|[k' v'] d IH]; simpl.
  - now repeat constructor.
  - apply Forall_cons in Hd as [Hk Hd].
    destruct (k' =? k); constructor; auto.
Qed.

(** The first loop leaves the totals and the recorded orders as they are
    and gives every material an empty list of sales. *)
Lemma setup_materials_starts (mats : list TypeMaterial) :
  forall (l : locals) (h : heap) (l' : locals) (h' : heap),
    setup_materials snapshot region_id station_id market_summary
                    volume_limit mats l h = (Ok l', h') ->
    NoDup (keys (buy_order_map l)) ->
    Forall (fun kv => snd kv = []) (all_sell_orders l) ->
    NoDup (keys (buy_order_map l')) /\
    Forall (fun kv => snd kv = []) (all_sell_orders l') /\
    all_buy_orders l' = all_buy_orders l /\
    gross_total l' = gross_total l /\ cost_total l' = cost_total l.
Proof.
  induction mats as [|m mats IH]; intros l h l' h' H Hnd Hempty; simpl in H.
  - apply ret_ok in H as [<- _]. auto.
  - apply bind_ok in H as (orders & h1 & _ & H).
    apply bind_ok in H as (row & h2 & _ & H).
    apply bind_ok in H as (sr & h3 & _ & H).
    apply IH in H; simpl in *.
    + exact H.
    + now apply keys_dict_set_NoDup.
    + now apply (dict_set_values (fun v => v = [])).
Qed.

(** The steps of a run of [attempt_opportunity] that returns. *)
Lemma attempt_loop_ok (fuel : nat) (h : heap) (l : locals) (h' : heap) :
  attempt_loop snapshot type_id region_id station_id type_map tax_rate
               efficiency station_tax broker_fee market_summary volume_limit
               fuel h = (Ok l, h') ->
  exists (source : SourceType) (l0 : locals) (h2 : heap),
    ~ (1 - tax_rate - broker_fee == 0)%Q /\
    dict_get type_map type_id = Some source /\
    setup_materials snapshot region_id station_id market_summary
                    volume_limit (values (material_map source))
                    (mkLocals [] [] [] [] [] 0%Q 0%Q)
                    (snd (extract_sell_orders snapshot type_id station_id h))
    = (Ok l0, h2) /\
    rounds region_id station_id tax_rate efficiency station_tax broker_fee
           (limit_threshold tax_rate broker_fee) source (portionSize source)
           (fst (extract_sell_orders snapshot type_id station_id h))
           (buy_order_map l0) (spread_data l0) fuel l0 h2
    = (Ok l, h').
Proof.
  unfold attempt_loop. intros H.
  destruct (Qeq_bool (1 - tax_rate - broker_fee) 0) eqn:E; [discriminate H|].
  apply Qeq_bool_neq in E.
  apply bind_ok in H as (source & h1 & Hsource & H).
  apply lookup_or_ok in Hsource as [Hsource ->].
  rewrite bind_call in H.
  apply bind_ok in H as (l0 & h2 & Hsetup & H).
  exists source, l0, h2. auto.
Qed.

Lemma flagged_empty (threshold : Q) (spreads : dict spread)
    (d : dict (list order_record)) :
  Forall (fun kv => snd kv = []) d ->
  flagged threshold spreads d /\
  (sales_value d == 0)%Q /\
  (sales_proceeds tax_rate broker_fee d == 0)%Q.
Proof.
  unfold flagged, sales_value, sales_proceeds, dict_sum.
  induction 1 as [|[k v] d Hv _ (IH1 & IH2 & IH3)]; simpl in *.
  - repeat split; try constructor.
  - subst v. repeat split.
    + constructor; [constructor | exact IH1].
    + rewrite IH2. reflexivity.
    + rewrite IH3. reflexivity.
Qed.

(** The totals the loop ends with are those of the orders it recorded. *)
Lemma attempt_loop_accounts (fuel : nat) (h : heap) (l : locals)
    (h' : heap) :
  attempt_loop snapshot type_id region_id station_id type_map tax_rate
               efficiency station_tax broker_fee market_summary volume_limit
               fuel h = (Ok l, h') ->
  exists spreads : dict spread,
    flagged (limit_threshold tax_rate broker_fee) spreads
            (all_sell_orders l) /\
    (gross_total l
     == sales_proceeds tax_rate broker_fee (all_sell_orders l))%Q /\
    (cost_total l
     == order_value (all_buy_orders l)
        + station_tax * sales_value (all_sell_orders l))%Q.
Proof.
  intros H. apply attempt_loop_ok in H
    as (source & l0 & h2 & _ & _ & Hsetup & Hrounds).
  apply setup_materials_starts in Hsetup
    as (Hnd & Hempty & Hbuy & Hg & Hc); [|constructor|constructor].
  simpl in Hbuy, Hg, Hc.
  destruct (flagged_empty (limit_threshold tax_rate broker_fee)
              (spread_data l0) _ Hempty) as (Hfl & Hv0 & Hp0).
  apply rounds_accounts in Hrounds as (Hfl' & _ & Hgross & Hcost);
    [|exact Hnd|exact Hfl].
  exists (spread_data l0). split; [exact Hfl'|].
  rewrite Hg, Hp0 in Hgross. rewrite Hc, Hbuy, Hv0 in Hcost.
  simpl in Hcost. split; lra.
Qed.

End Accounting.

(** ** Opportunity attempter: the volumes of a report *)

Lemma py_min_le (a b : Q) : (py_min a b <= a)%Q /\ (py_min a b <= b)%Q.
Proof.
  unfold py_min. destruct (Qltb b a) eqn:E.
  - apply Qltb_lt in E. split; [now apply Qlt_le_weak | apply Qle_refl].
  - apply Qltb_ge in E. split; [apply Qle_refl | exact E].
Qed.

Lemma dict_get_of_elem {V : Type} (d : dict V) (k : Z) (v : V) :
  NoDup (keys d) -> (k, v) ∈ d -> dict_get d k = Some v.
Proof.
  unfold keys. induction d as [|[k' v'] d IH]; simpl; intros Hnd Hin.
  - now apply elem_of_nil in Hin.
  - apply NoDup_cons in Hnd as [Hk Hnd].
    apply elem_of_cons in Hin as [Heq|Hin].
    + injection Heq as -> ->. now rewrite Z.eqb_refl.
    + destruct (k' =? k) eqn:E; [|now apply IH].
      apply Z.eqb_eq in E. subst k'. contradiction Hk.
      apply list_elem_of_fmap. now exists (k, v).
Qed.

Lemma dict_get_elem {V : Type} (d : dict V) (k : Z) (v : V) :
  dict_get d k = Some v -> (k, v) ∈ d.
Proof.
  induction d as [|[k' v'] d IH]; simpl; [discriminate|].
  destruct (k' =? k) eqn:E.
  - apply Z.eqb_eq in E. subst k'. intros H. injection H as ->.
    apply list_elem_of_here.
  - intros H. now apply list_elem_of_further, IH.
Qed.

Section Volumes.

Variable snapshot : DataFrame.
Variables type_id region_id station_id : Z.
Variable type_map : dict SourceType.
Variables tax_rate efficiency station_tax broker_fee : Q.
Variable market_summary : list SummaryRow.
Variable volume_limit : Q.

Section VolumesRounds.

Variable threshold : Q.
Variable source : SourceType.
Variable required_volume : Z.
Variable sell_order_list : list ref.
Variable buy_orders_of : dict (list ref).
Variable spreads : dict spread.

Abbreviation one_sale :=
  (sell_material region_id station_id efficiency threshold source
                 buy_orders_of spreads).
Abbreviation all_sales :=
  (sell_materials region_id station_id tax_rate efficiency station_tax
                  broker_fee threshold source buy_orders_of spreads).
Abbreviation this_round :=
  (attempt_round region_id station_id tax_rate efficiency station_tax
                 broker_fee threshold source required_volume sell_order_list
                 buy_orders_of spreads).
Abbreviation these_rounds :=
  (rounds region_id station_id tax_rate efficiency station_tax broker_fee
          threshold source required_volume sell_order_list buy_orders_of
          spreads).
Abbreviation within :=
  (sale_within threshold spreads source efficiency).
Abbreviation after_rounds :=
  (material_after threshold spreads source efficiency).

Lemma sell_material_volume (m : Z) (budgets : dict Q) (h : heap)
    (limit_sell : bool) (sold : list order_record) (budgets' : dict Q)
    (h' : heap) :
  one_sale m budgets h = (Ok (limit_sell, sold, budgets'), h') ->
  sold <> [] ->
  within budgets budgets' m sold /\
  (forall m', m' <> m -> dict_get budgets' m' = dict_get budgets m').
Proof.
  unfold sell_material, sale_within, sells_with_limit, sell_volume_of.
  intros H Hne.
  apply bind_ok in H as (sr & h1 & Hsr & H).
  apply lookup_or_ok in Hsr as [-> ->].
  apply bind_ok in H as (mat & h1 & Hmat & H).
  apply lookup_or_ok in Hmat as [-> ->].
  set (sv := py_int (inject_Z (quantity mat) * efficiency)) in *.
  destruct (Qltb threshold (spread_value sr)) eqn:E.
  - apply bind_ok in H as (budget & h2 & Hb & H).
    apply lookup_or_ok in Hb as [Hb ->].
    destruct (Qltb 0 (py_min (inject_Z sv) budget)) eqn:Ea.
    + apply bind_ok in H as (ask & h3 & Ha & H).
      apply lookup_or_ok in Ha as [_ ->].
      apply ret_ok in H as [H _]. inversion H; subst. split.
      * exists budget, (budget - py_min (inject_Z sv) budget)%Q.
        apply Qltb_lt in Ea.
        destruct (py_min_le (inject_Z sv) budget) as [Hsv Hbud].
        split; [exact Hb|]. split; [apply dict_get_set_eq|].
        simpl. repeat split; lra.
      * intros m' Hm'. now apply dict_get_set_ne.
    + apply ret_ok in H as [H _]. inversion H; subst. now contradiction Hne.
  - apply bind_ok in H as (orders & h2 & Ho & H).
    apply lookup_or_ok in Ho as [_ ->].
    apply bind_ok in H as (sold' & h3 & Hsell & H).
    apply call_ok in Hsell. apply ret_ok in H as [H _].
    inversion H; subst. split; [|reflexivity].
    split; [|reflexivity].
    unfold attempt_sell_type_list in Hsell.
    assert (Hsold : sold = fst (sell_loop region_id station_id orders sv [] h))
      by now rewrite Hsell.
    rewrite Hsold in *. rewrite (sell_loop_filled _ _ _ _ _ _ Hne).
    simpl. ring.
Qed.

Lemma sale_within_frame (budgets budgets1 budgets2 budgets3 : dict Q)
    (m : Z) (recs : list order_record) :
  dict_get budgets1 m = dict_get budgets m ->
  dict_get budgets3 m = dict_get budgets2 m ->
  within budgets1 budgets2 m recs -> within budgets budgets3 m recs.
Proof.
  unfold sale_within. intros H1 H2.
  destruct (sells_with_limit threshold spreads m).
  - intros (budget & b' & Hb & Hb' & Hrest). exists budget, b'.
    split; [congruence|]. split; [congruence | exact Hrest].
  - intros [Hv Hb]. split; [exact Hv | congruence].
Qed.

(** The loop over the materials, sale by sale. *)
Lemma sell_materials_volumes (mat_ids : list Z) :
  forall (cg cc : Q) (so : dict (list order_record)) (budgets : dict Q)
         (h : heap) (cg' cc' : Q) (so' : dict (list order_record))
         (budgets' : dict Q) (h' : heap),
    all_sales mat_ids cg cc so budgets h
    = (Ok (Some (cg', cc', so'), budgets'), h') ->
    NoDup mat_ids -> (forall m, m ∈ mat_ids -> m ∉ keys so) ->
    exists sales : dict (list order_record),
      so' = so ++ sales /\ keys sales = mat_ids /\
      (forall m, m ∉ mat_ids -> dict_get budgets' m = dict_get budgets m) /\
      Forall (fun kv => within budgets budgets' (fst kv) (snd kv)) sales.
Proof.
  induction mat_ids as [|m mat_ids IH];
    intros cg cc so budgets h cg' cc' so' budgets' h' H Hnd Hfresh.
  - simpl in H. apply ret_ok in H as [H _]. inversion H; subst.
    exists []. rewrite app_nil_r. repeat split; auto.
  - simpl in H. apply bind_ok in H as (r & h1 & Hsale & H).
    destruct r as [[limit_sell sold] budgets1].
    destruct sold as [|x sold]; [apply ret_ok in H as [H _]; discriminate H|].
    apply sell_material_volume in Hsale as [Hsale Hother];
      [|discriminate].
    apply NoDup_cons in Hnd as [Hm Hnd].
    rewrite dict_set_fresh in H
      by (apply Hfresh, list_elem_of_here).
    apply IH in H as (sales & -> & Hkeys & Hframe & Hsales);
      [|exact Hnd|].
    + exists ((m, x :: sold) :: sales). rewrite <- app_assoc.
      split; [reflexivity|]. split; [unfold keys in *; simpl; congruence|].
      split.
      * intros m' Hm'. apply not_elem_of_cons in Hm' as [Hne Hm'].
        rewrite Hframe by assumption. now apply Hother.
      * constructor.
        -- simpl. eapply sale_within_frame; [reflexivity| |exact Hsale].
           now apply Hframe.
        -- rewrite Forall_forall in *. intros [m' recs] Hin.
           specialize (Hsales _ Hin). simpl in *.
           assert (m' ∈ mat_ids).
           { rewrite <- Hkeys. unfold keys. apply list_elem_of_fmap.
             now exists (m', recs). }
           eapply sale_within_frame; [|reflexivity|exact Hsales].
           apply Hother. intros ->. contradiction.
    + intros m' Hm' Hin. unfold keys in Hin. rewrite map_app in Hin.
      apply elem_of_app in Hin as [Hin|Hin].
      * apply (Hfresh m'); [now apply list_elem_of_further | exact Hin].
      * simpl in Hin. apply list_elem_of_singleton in Hin. now subst m'.
Qed.

(** A recorded round buys one portion and sells every material once. *)
Lemma attempt_round_volumes (budgets : dict Q) (h : heap)
    (b : list order_record) (s : dict (list order_record)) (g c : Q)
    (bud : dict Q) (h' : heap) :
  this_round budgets h = (Ok (Profitable b s g c bud), h') ->
  NoDup (keys buy_orders_of) ->
  (filled_volume b == inject_Z required_volume)%Q /\
  keys s = keys buy_orders_of /\
  (forall m, m ∈ keys buy_orders_of ->
     exists recs, dict_get s m = Some recs /\ within budgets bud m recs).
Proof.
  unfold attempt_round. intros H Hnd.
  apply bind_ok in H as (bought & h1 & Hbuy & H). apply call_ok in Hbuy.
  destruct bought as [|x bought]; [discriminate H|].
  apply bind_ok in H as (r & h2 & Hsell & H).
  destruct r as [[[[cg cc] so]|] budgets']; [|discriminate H].
  apply sell_materials_volumes in Hsell
    as (sales & Hso & Hkeys & _ & Hsales);
    [|exact Hnd|intros m _; apply not_elem_of_nil].
  simpl in Hso. subst so.
  destruct sales as [|kv sales]; [discriminate H|].
  destruct (Qltb cc cg); [|discriminate H].
  apply ret_ok in H as [H _]. inversion H; subst.
  split; [|split; [exact Hkeys|]].
  - unfold attempt_buy_type_list in Hbuy.
    pose proof (buy_loop_filled sell_order_list required_volume [] h) as Hf.
    rewrite Hbuy in Hf. specialize (Hf ltac:(discriminate)).
    simpl in Hf |- *. lra.
  - intros m Hm. rewrite <- Hkeys in Hm.
    apply dict_get_keys in Hm as [recs Hrecs]. exists recs.
    split; [exact Hrecs|]. apply dict_get_elem in Hrecs.
    rewrite Forall_forall in Hsales. exact (Hsales _ Hrecs).
Qed.

Lemma inject_Z_succ (n : nat) :
  (inject_Z (Z.of_nat (S n)) == inject_Z (Z.of_nat n) + 1)%Q.
Proof.
  rewrite Nat2Z.inj_succ. unfold Z.succ. rewrite inject_Z_plus. reflexivity.
Qed.

(** Recording the sales of a round, material by material. *)
Lemma extend_all_volumes (s : dict (list order_record)) :
  forall a a' : dict (list order_record),
    extend_all a s = Some a' -> NoDup (keys s) ->
    forall m, (sold_volume a' m == sold_volume a m + sold_volume s m)%Q.
Proof.
  clear check_range.
  induction s as [|[i sold] s IH]; intros a a' H Hnd m; simpl in H.
  - injection H as <-. unfold sold_volume at 3. simpl. ring.
  - destruct (dict_get a i) as [l|] eqn:Hl; [|discriminate H].
    unfold keys in Hnd. simpl in Hnd. apply NoDup_cons in Hnd as [Hi Hnd].
    rewrite (IH _ _ H Hnd m). unfold sold_volume. simpl.
    destruct (i =? m) eqn:E.
    + apply Z.eqb_eq in E. subst m. rewrite dict_get_set_eq, Hl.
      apply dict_get_absent in Hi. rewrite Hi.
      rewrite filled_volume_app. ring.
    + apply Z.eqb_neq in E. rewrite dict_get_set_ne by assumption. ring.
Qed.

(** The rounds a run of the loop records. *)
Lemma rounds_volumes (fuel : nat) :
  forall (l : locals) (h : heap) (l' : locals) (h' : heap),
    these_rounds fuel l h = (Ok l', h') ->
    NoDup (keys buy_orders_of) ->
    exists n : nat,
      (filled_volume (all_buy_orders l')
       == filled_volume (all_buy_orders l)
          + inject_Z (Z.of_nat n) * inject_Z required_volume)%Q /\
      (n = 0%nat -> l' = l) /\
      (n <> 0%nat -> buy_orders_of <> []) /\
      (forall m, m ∈ keys buy_orders_of -> after_rounds n l l' m) /\
      (NoDup sell_order_list ->
       (forall k rs r,
          dict_get buy_orders_of k = Some rs -> r ∈ sell_order_list ->
          r ∉ rs) ->
       0 < required_volume ->
       Z.of_nat n * required_volume <= available h sell_order_list).
Proof.
  induction fuel as [|fuel IH]; intros l h l' h' H Hnd; simpl in H.
  - discriminate H.
  - apply bind_ok in H as (r & h1 & Hr & H).
    assert (Hbreak : ret l h1 = (Ok l', h') ->
      exists n : nat,
        (filled_volume (all_buy_orders l')
         == filled_volume (all_buy_orders l)
            + inject_Z (Z.of_nat n) * inject_Z required_volume)%Q /\
        (n = 0%nat -> l' = l) /\
        (n <> 0%nat -> buy_orders_of <> []) /\
        (forall m, m ∈ keys buy_orders_of -> after_rounds n l l' m) /\
        (NoDup sell_order_list ->
         (forall k rs r,
            dict_get buy_orders_of k = Some rs -> r ∈ sell_order_list ->
            r ∉ rs) ->
         0 < required_volume ->
         Z.of_nat n * required_volume <= available h sell_order_list)).
    { intros Hret. apply ret_ok in Hret as [<- _]. exists 0%nat.
      split; [simpl; ring|]. split; [reflexivity|].
      split; [intros Hn; now contradiction Hn|]. split.
      - intros m _. unfold material_after.
        destruct (sells_with_limit threshold spreads m); simpl;
          [|ring].
        split; [|split; [reflexivity | now intros]].
        apply Qle_lteq. right. ring.
      - intros _ _ _. pose proof (available_not_negative h sell_order_list).
        lia. }
    destruct r as [| | |b s g c bud]; try (now apply Hbreak). clear Hbreak.
    pose proof Hr as Hcons.
    pose proof (attempt_round_profitable _ _ _ _ _ _ _ _ _ _ _ _ _ _ _ _ _
                  _ _ _ Hr) as (_ & _ & Hsome & _).
    apply attempt_round_volumes in Hr as (Hfv & Hkeys & Hsales);
      [|exact Hnd].
    apply bind_ok in H as (l1 & h2 & Hcommit & H).
    pose proof (commit_pure l b s g c bud h1) as Hpure.
    rewrite Hcommit in Hpure. simpl in Hpure. subst h2.
    unfold commit in Hcommit.
    apply bind_ok in Hcommit as (all_sell & h3 & Hext & Hcommit).
    apply lookup_or_ok in Hext as [Hext _].
    apply ret_ok in Hcommit as [<- _].
    pose proof (extend_all_volumes _ _ _ Hext) as Hvol.
    rewrite Hkeys in Hvol. specialize (Hvol Hnd).
    apply IH in H as (n & Hbuy & Hzero & _ & Hmat & Hsupply); [|exact Hnd].
    exists (S n). simpl in Hbuy.
    split; [rewrite Hbuy, filled_volume_app, inject_Z_succ, Hfv; ring|].
    split; [discriminate|]. split.
    { intros _ Hnil. rewrite Hnil in Hkeys. now destruct s. }
    split.
    + intros m Hm. specialize (Hmat m Hm). specialize (Hvol m).
      destruct (Hsales m Hm) as (recs & Hrecs & Hin).
      unfold material_after, sale_within in *. cbv zeta in *.
      cbn [all_sell_orders limit_order_max] in Hmat.
      unfold sold_volume at 3 in Hvol. rewrite Hrecs in Hvol.
      destruct (sells_with_limit threshold spreads m).
      * destruct Hin as (budget & b' & Hb & Hb' & Hpos & Hsv & Hbud & Heq).
        destruct Hmat as (Hle & Hsum & Hleft).
        unfold budget_left at 2 in Hsum. rewrite Hb' in Hsum.
        unfold budget_left at 2. rewrite Hb.
        split; [rewrite inject_Z_succ; lra|]. split; [lra|]. intros _.
        destruct n as [|n]; [|apply Hleft; discriminate].
        rewrite (Hzero eq_refl). simpl. unfold budget_left.
        rewrite Hb'. lra.
      * destruct Hin as [Hsv _]. rewrite inject_Z_succ. lra.
    + intros Hsol Hapart Hpos.
      eapply attempt_round_consumes in Hcons; try eassumption.
      specialize (Hsupply Hsol Hapart Hpos). lia.
Qed.

End VolumesRounds.

Lemma keys_dict_set_same {V W : Type} (d : dict V) (d' : dict W) (k : Z)
    (v : V) (w : W) :
  keys d = keys d' -> keys (dict_set d k v) = keys (dict_set d' k w).
Proof. intros H. rewrite !keys_dict_set. now rewrite H. Qed.

(** The dicts the first loop fills have the same keys, the type ids of the
    materials, and every budget is the cap of its material. *)
Lemma setup_materials_keys (mats : list TypeMaterial) :
  forall (l : locals) (h : heap) (l' : locals) (h' : heap),
    setup_materials snapshot region_id station_id market_summary
                    volume_limit mats l h = (Ok l', h') ->
    keys (all_sell_orders l) = keys (buy_order_map l) ->
    keys (limit_order_max l) = keys (buy_order_map l) ->
    (forall m b, dict_get (limit_order_max l) m = Some b ->
                 volume_cap market_summary volume_limit m = Some b) ->
    keys (all_sell_orders l') = keys (buy_order_map l') /\
    keys (limit_order_max l') = keys (buy_order_map l') /\
    (forall m b, dict_get (limit_order_max l') m = Some b ->
                 volume_cap market_summary volume_limit m = Some b) /\
    (forall mat, mat ∈ mats ->
                 materialTypeID mat ∈ keys (buy_order_map l')) /\
    (forall k, k ∈ keys (buy_order_map l) -> k ∈ keys (buy_order_map l')) /\
    (forall k, k ∈ keys (buy_order_map l') ->
               k ∈ keys (buy_order_map l) \/
               exists mat, mat ∈ mats /\ materialTypeID mat = k).
Proof.
  induction mats as [|mat mats IH]; intros l h l' h' H Hsell Hmax Hcap;
    simpl in H.
  - apply ret_ok in H as [<- _]. repeat split; auto.
    intros mat Hmat. now apply elem_of_nil in Hmat.
  - apply bind_ok in H as (orders & h1 & _ & H).
    apply bind_ok in H as (row & h2 & Hrow & H).
    apply lookup_or_ok in Hrow as [Hrow _].
    apply bind_ok in H as (sr & h3 & _ & H).
    apply IH in H as (Hsell' & Hmax' & Hcap' & Hin & Hold & Hnew); simpl.
    + repeat split; try assumption.
      * intros mat' Hmat'. apply elem_of_cons in Hmat' as [->|Hmat'];
          [|now apply Hin].
        apply Hold. simpl. apply keys_dict_set_elem. now left.
      * intros k Hk. apply Hold. simpl. apply keys_dict_set_elem.
        now right.
      * intros k Hk. apply Hnew in Hk as [Hk|(mat' & Hmat' & <-)].
        -- simpl in Hk. apply keys_dict_set_elem in Hk as [->|Hk].
           ++ right. exists mat. split; [apply list_elem_of_here|].
              reflexivity.
           ++ now left.
        -- right. exists mat'. split; [|reflexivity].
           now apply list_elem_of_further.
    + now apply keys_dict_set_same.
    + now apply keys_dict_set_same.
    + intros m b.
      destruct (decide (materialTypeID mat = m)) as [<-|Hne].
      * rewrite dict_get_set_eq. intros Hb. injection Hb as <-.
        unfold volume_cap. now rewrite Hrow.
      * rewrite dict_get_set_ne by assumption. apply Hcap.
Qed.

Lemma sold_volume_empty (d : dict (list order_record)) (m : Z) :
  Forall (fun kv => snd kv = []) d -> sold_volume d m = 0%Q.
Proof.
  unfold sold_volume. induction 1 as [|[k v] d Hv _ IH]; simpl;
    [reflexivity|].
  simpl in Hv. subst v. now destruct (k =? m).
Qed.

Lemma flagged_get (threshold : Q) (spreads : dict spread)
    (d : dict (list order_record)) (m : Z) (recs : list order_record) :
  flagged threshold spreads d -> dict_get d m = Some recs ->
  Forall (fun x => market x = negb (sells_with_limit threshold spreads m))
         recs.
Proof.
  unfold flagged. intros Hfl Hget. apply dict_get_elem in Hget.
  rewrite Forall_forall in Hfl. exact (Hfl _ Hget).
Qed.

(** What the loop has recorded when it ends: [n] rounds, each of one
    portion of the source and of one sale of every material. *)
Lemma attempt_loop_volumes (fuel : nat) (h : heap) (l : locals)
    (h' : heap) :
  attempt_loop snapshot type_id region_id station_id type_map tax_rate
               efficiency station_tax broker_fee market_summary volume_limit
               fuel h = (Ok l, h') ->
  exists (source : SourceType) (spreads : dict spread) (n : nat),
    dict_get type_map type_id = Some source /\
    flagged (limit_threshold tax_rate broker_fee) spreads
            (all_sell_orders l) /\
    (filled_volume (all_buy_orders l)
     == inject_Z (Z.of_nat n) * inject_Z (portionSize source))%Q /\
    (n = 0%nat -> gross_total l = 0%Q /\ cost_total l = 0%Q) /\
    (n <> 0%nat -> all_sell_orders l <> []) /\
    (forall m, m ∈ keys (all_sell_orders l) <->
               exists mat, mat ∈ values (material_map source) /\
                           materialTypeID mat = m) /\
    (forall m, m ∈ keys (all_sell_orders l) ->
       let sold := sold_volume (all_sell_orders l) m in
       let portions :=
         (inject_Z (Z.of_nat n)
          * inject_Z (sell_volume_of source efficiency m))%Q in
       if sells_with_limit (limit_threshold tax_rate broker_fee) spreads m
       then (sold <= portions)%Q /\
            (n <> 0%nat ->
             exists cap, volume_cap market_summary volume_limit m = Some cap
                         /\ (sold <= cap)%Q)
       else (sold == portions)%Q) /\
    (0 < portionSize source ->
     Z.of_nat n * portionSize source
     <= offered (sell_rows snapshot type_id station_id)).
Proof.
  intros H. apply attempt_loop_ok in H
    as (source & l0 & h2 & _ & Hsource & Hsetup & Hrounds).
  unfold extract_sell_orders, iterrows in Hsetup, Hrounds.
  cbn [fst snd] in Hsetup, Hrounds.
  fold (sell_rows snapshot type_id station_id) in Hsetup, Hrounds.
  set (rows := sell_rows snapshot type_id station_id) in *.
  set (h1 := h ++ rows) in *.
  pose proof (setup_materials_framed h1 snapshot region_id station_id
                market_summary volume_limit (values (material_map source))
                (mkLocals [] [] [] [] [] 0%Q 0%Q) []) as Hframe.
  rewrite app_nil_r in Hframe.
  change (shift_locals h1 (mkLocals [] [] [] [] [] 0%Q 0%Q))
    with (mkLocals [] [] [] [] [] 0%Q 0%Q) in Hframe.
  rewrite Hsetup in Hframe.
  destruct (setup_materials _ _ _ _ _ _ _ []) as [[l00|e|] ext] eqn:Hzero;
    simpl in Hframe; try discriminate Hframe.
  injection Hframe as Hl0 Hh2.
  pose proof Hsetup as Hkeys.
  apply setup_materials_starts in Hsetup
    as (Hnd & Hempty & Hbuy & Hg & Hc); [|constructor|constructor].
  apply setup_materials_keys in Hkeys
    as (Hksell & Hkmax & Hcap & Hmats & _ & Hfrom);
    [|reflexivity|reflexivity|discriminate].
  simpl in Hbuy, Hg, Hc.
  destruct (flagged_empty tax_rate broker_fee
              (limit_threshold tax_rate broker_fee)
              (spread_data l0) _ Hempty) as (Hfl & _ & _).
  pose proof Hrounds as Hacc.
  apply rounds_accounts in Hacc as (Hfl' & Hkeys' & _ & _);
    [|exact Hnd|exact Hfl].
  apply rounds_volumes in Hrounds
    as (n & Hvol & Hsame & Hsome & Hmat & Hsupply); [|exact Hnd].
  exists source, (spread_data l0), n.
  split; [exact Hsource|]. split; [exact Hfl'|].
  split; [rewrite Hvol, Hbuy; simpl; ring|].
  split; [intros Hn; rewrite (Hsame Hn); auto|].
  split.
  { intros Hn Hnil. apply (Hsome Hn).
    rewrite Hnil in Hkeys'. rewrite Hksell in Hkeys'.
    now destruct (buy_order_map l0). }
  split.
  { intros m. rewrite Hkeys', Hksell. split.
    - intros Hm. apply Hfrom in Hm as [Hm|Hm]; [|exact Hm].
      now apply elem_of_nil in Hm.
    - intros (mat & Hin & <-). now apply Hmats. }
  split.
  - intros m Hm. rewrite Hkeys', Hksell in Hm. specialize (Hmat m Hm).
    unfold material_after in Hmat. cbv zeta in *.
    rewrite (sold_volume_empty _ m Hempty) in Hmat.
    destruct (sells_with_limit _ (spread_data l0) m); [|lra].
    destruct Hmat as (Hle & Hsum & Hleft). split; [lra|]. intros Hn.
    specialize (Hleft Hn). rewrite <- Hkmax in Hm.
    apply dict_get_keys in Hm as [cap Hget]. exists cap.
    split; [now apply Hcap|]. unfold budget_left at 2 in Hsum.
    rewrite Hget in Hsum. lra.
  - intros Hpos.
    assert (Hav : available h2 (seq (length h) (length rows))
                  = offered rows).
    { rewrite Hh2. rewrite (available_ext h1).
      - unfold h1. apply available_fresh.
      - intros r Hr. apply elem_of_seq in Hr. unfold deref.
        apply lookup_total_app_l. unfold h1. rewrite length_app. lia. }
    rewrite <- Hav. apply Hsupply; [apply NoDup_seq| |exact Hpos].
    intros k rs r Hrs Hr Hin. rewrite Hl0 in Hrs. simpl in Hrs.
    rewrite dict_get_shift in Hrs.
    destruct (dict_get (buy_order_map l00) k) as [rs0|]; [|discriminate].
    inversion Hrs; subst rs. unfold shift_list in Hin.
    apply list_elem_of_fmap in Hin as (r0 & -> & _).
    apply elem_of_seq in Hr. unfold h1 in Hr. rewrite length_app in Hr. lia.
Qed.

End Volumes.

(** ** Opportunity scanner: what the list holds *)

Section ScannerProperties.

Variable order_book : list (Z * Order).
Variable type_map : dict SourceType.
Variables station_id region_id : Z.
Variables efficiency sales_tax station_tax broker_fee : Q.
Variable market_summary : list SummaryRow.
Variable volume_limit : Q.
Variable fuel : nat.

Abbreviation attempt_on :=
  (fun (snapshot : DataFrame) (source_type : SourceType) =>
     attempt_opportunity snapshot (typeID source_type) region_id station_id
                         type_map sales_tax efficiency station_tax
                         broker_fee market_summary volume_limit fuel).
Abbreviation entry :=
  (scan_entry type_map station_id region_id efficiency sales_tax station_tax
              broker_fee market_summary volume_limit fuel).

Lemma attempt_from_empty (snapshot : DataFrame) (source_type : SourceType)
    (h : heap) :
  attempt_on snapshot source_type h
  = (fst (attempt_on snapshot source_type []),
     h ++ snd (attempt_on snapshot source_type [])).
Proof.
  apply framed_from_empty. intros p. apply attempt_opportunity_framed.
Qed.

(** The loop over the source types for one snapshot. *)
Lemma scan_types_entries (snapshot_time : Z) (snapshot : DataFrame)
    (source_types : list SourceType) :
  forall (opportunities : list found) (h : heap)
         (opportunities' : list found) (h' : heap),
    scan_types type_map station_id region_id efficiency sales_tax
               station_tax broker_fee market_summary volume_limit fuel
               snapshot_time snapshot source_types opportunities h
    = (Ok opportunities', h') ->
    opportunities'
    = opportunities ++ omap (entry (snapshot_time, snapshot)) source_types /\
    Forall (fun st => exists r, fst (attempt_on snapshot st []) = Ok r)
           source_types.
Proof.
  induction source_types as [|st sts IH]; intros opps h opps' h' H;
    simpl in H.
  - apply ret_ok in H as [<- _]. simpl. rewrite app_nil_r. auto.
  - apply bind_ok in H as (o & h1 & Hatt & H).
    rewrite attempt_from_empty in Hatt. injection Hatt as Hatt _.
    change (omap (entry (snapshot_time, snapshot)) (st :: sts))
      with (match entry (snapshot_time, snapshot) st with
            | Some f => f :: omap (entry (snapshot_time, snapshot)) sts
            | None => omap (entry (snapshot_time, snapshot)) sts
            end).
    unfold scan_entry at 1. cbn [fst snd]. rewrite Hatt.
    destruct o as [o|]; apply IH in H as [-> Hall].
    + rewrite <- app_assoc. split; [reflexivity|]. constructor; eauto.
    + split; [reflexivity|]. constructor; eauto.
Qed.

(** The loop over the snapshots. *)
Lemma scan_snapshots_entries (groups : list (Z * DataFrame)) :
  forall (opportunities : list found) (h : heap)
         (opportunities' : list found) (h' : heap),
    scan_snapshots type_map station_id region_id efficiency sales_tax
                   station_tax broker_fee market_summary volume_limit fuel
                   groups opportunities h
    = (Ok opportunities', h') ->
    opportunities'
    = opportunities
      ++ concat (map (fun g => omap (entry g) (values type_map)) groups) /\
    Forall (fun g =>
              Forall (fun st => exists r,
                        fst (attempt_on (snd g) st []) = Ok r)
                     (values type_map)) groups.
Proof.
  induction groups as [|[t snapshot] groups IH]; intros opps h opps' h' H;
    simpl in H.
  - apply ret_ok in H as [<- _]. simpl. rewrite app_nil_r. auto.
  - apply bind_ok in H as (opps1 & h1 & Htypes & H).
    apply scan_types_entries in Htypes as [-> Hall].
    apply IH in H as [-> Hrest]. simpl. rewrite <- app_assoc.
    split; [reflexivity|]. now constructor.
Qed.

(** The entries of a snapshot carry its time, and the names of source
    types in the order of the type map. *)
Lemma entries_of_snapshot (g : Z * DataFrame)
    (source_types : list SourceType) :
  Forall (fun f => time f = fst g) (omap (entry g) source_types) /\
  map type (omap (entry g) source_types)
  `sublist_of` map typeName source_types.
Proof.
  induction source_types as [|st sts [IHt IHn]]; simpl.
  - split; constructor.
  - change (omap (entry g) (st :: sts))
      with (match entry g st with
            | Some f => f :: omap (entry g) sts
            | None => omap (entry g) sts
            end).
    destruct (entry g st) as [f|] eqn:E.
    + unfold scan_entry in E.
      destruct (fst (attempt_opportunity _ _ _ _ _ _ _ _ _ _ _ _ []))
        as [[o|]| |]; try discriminate E.
      injection E as <-. simpl.
      split; [now constructor | now apply sublist_skip].
    + split; [exact IHt | now apply sublist_cons].
Qed.

End ScannerProperties.

(** ** Opportunity attempter: runs that do not raise *)

Lemma returns_ret {A : Type} (P : A -> Prop) (a : A) :
  P a -> returns P (ret a).
Proof. intros H h. exact H. Qed.

Lemma returns_bind {A B : Type} (P : A -> Prop) (Q : B -> Prop) (c : M A)
    (k : A -> M B) :
  returns P c -> (forall a, P a -> returns Q (k a)) -> returns Q (bind c k).
Proof.
  intros Hc Hk h. unfold bind. specialize (Hc h).
  destruct (c h) as [[a|e|] h1]; simpl in *; try easy. now apply Hk.
Qed.

Lemma returns_call {A : Type} (P : A -> Prop) (c : heap -> A * heap) :
  (forall h, P (fst (c h))) -> returns P (call c).
Proof. intros H h. unfold call. specialize (H h). now destruct (c h). Qed.

Lemma returns_lookup {A : Type} (P : A -> Prop) (e : exn) (o : option A)
    (a : A) :
  o = Some a -> P a -> returns P (lookup_or e o).
Proof. intros -> H h. exact H. Qed.

Lemma first_in_range_elem (region station : Z) (rows : DataFrame) (b : Q) :
  first_in_range region station rows = Some b ->
  exists o, o ∈ rows /\ price o = b.
Proof.
  induction rows as [|o rows IH]; simpl; [discriminate|].
  destruct (check_range region station (location_id o) (order_range o)).
  - intros H. injection H as <-. exists o.
    split; [apply list_elem_of_here | reflexivity].
  - intros H. apply IH in H as (o' & Ho' & Hp). exists o'.
    split; [now apply list_elem_of_further | exact Hp].
  - intros H. apply IH in H as (o' & Ho' & Hp). exists o'.
    split; [now apply list_elem_of_further | exact Hp].
Qed.

Lemma spread_return_returns (snapshot : DataFrame) (t s r : Z) :
  (forall o, o ∈ snapshot -> buy o = true -> ~ (price o == 0)%Q) ->
  returns spread_priced (spread_return snapshot t s r).
Proof.
  intros Hbids h. rewrite spread_return_rows.
  destruct (sell_rows snapshot t s) as [|first rest]; [now intros _|].
  destruct (first_in_range r s (buy_rows snapshot t)) as [bid|] eqn:Hbid;
    [|now intros _].
  apply first_in_range_elem in Hbid as (o & Ho & <-).
  unfold buy_rows in Ho.
  apply list_elem_of_filter in Ho as [Hbuy Ho].
  apply list_elem_of_filter in Ho as [_ Ho].
  destruct (Qeq_bool (price o) 0) eqn:E.
  - apply Qeq_bool_iff in E. now apply (Hbids o Ho Hbuy).
  - intros Hnone. discriminate Hnone.
Qed.

Section Safety.

Variable snapshot : DataFrame.
Variables type_id region_id station_id : Z.
Variable type_map : dict SourceType.
Variables tax_rate efficiency station_tax broker_fee : Q.
Variable market_summary : list SummaryRow.
Variable volume_limit : Q.
Variable source : SourceType.

Hypothesis bids_priced :
  forall o, o ∈ snapshot -> buy o = true -> ~ (price o == 0)%Q.

(** The first loop returns when every material is a key of the material
    map and has a row in the market summary. *)
Lemma setup_materials_returns (mats : list TypeMaterial) :
  forall l : locals,
    (forall mat, mat ∈ mats ->
       (exists mat', dict_get (material_map source) (materialTypeID mat)
                     = Some mat') /\
       (exists row,
          head (filter (fun r => summary_type_id r = materialTypeID mat)
                       market_summary) = Some row)) ->
    ready source l ->
    returns (ready source)
            (setup_materials snapshot region_id station_id market_summary
                             volume_limit mats l).
Proof.
  induction mats as [|mat mats IH]; intros l Hmats Hready; simpl.
  - now apply returns_ret.
  - destruct (Hmats mat (list_elem_of_here _ _)) as [[mat' Hkey] [row Hrow]].
    apply (returns_bind (fun _ => True)); [now apply returns_call|].
    intros orders _.
    apply (returns_bind (fun _ => True));
      [now apply (returns_lookup _ _ _ row)|].
    intros row' _.
    apply (returns_bind spread_priced);
      [now apply spread_return_returns|].
    intros sr Hsr. apply IH.
    + intros m Hm. apply Hmats. now apply list_elem_of_further.
    + destruct Hready as (Hks & Hkm & Hka & Hnd & Hsp & Hmat).
      unfold ready. simpl.
      split; [now apply keys_dict_set_same|].
      split; [now apply keys_dict_set_same|].
      split; [now apply keys_dict_set_same|].
      split; [now apply keys_dict_set_NoDup|].
      split; [now apply dict_set_values|].
      intros k Hk. apply keys_dict_set_elem in Hk as [->|Hk]; eauto.
Qed.

Section SafetyRounds.

Variable threshold : Q.
Variable required_volume : Z.
Variable sell_order_list : list ref.
Variable buy_orders_of : dict (list ref).
Variable spreads : dict spread.

Hypothesis threshold_not_negative : (0 <= threshold)%Q.
Hypothesis spreads_keys : keys spreads = keys buy_orders_of.
Hypothesis spreads_priced : Forall (fun kv => spread_priced (snd kv)) spreads.
Hypothesis materials_keyed :
  forall k, k ∈ keys buy_orders_of ->
            exists mat, dict_get (material_map source) k = Some mat.
Hypothesis materials_distinct : NoDup (keys buy_orders_of).

Abbreviation safe_sale :=
  (sell_material region_id station_id efficiency threshold source
                 buy_orders_of spreads).
Abbreviation safe_sales :=
  (sell_materials region_id station_id tax_rate efficiency station_tax
                  broker_fee threshold source buy_orders_of spreads).
Abbreviation safe_round :=
  (attempt_round region_id station_id tax_rate efficiency station_tax
                 broker_fee threshold source required_volume sell_order_list
                 buy_orders_of spreads).
Abbreviation safe_rounds :=
  (rounds region_id station_id tax_rate efficiency station_tax broker_fee
          threshold source required_volume sell_order_list buy_orders_of
          spreads).

Lemma sell_material_returns (m : Z) (budgets : dict Q) :
  m ∈ keys buy_orders_of -> keys budgets = keys buy_orders_of ->
  returns (fun r => keys (snd r) = keys buy_orders_of)
          (safe_sale m budgets).
Proof.
  intros Hm Hbud. unfold sell_material.
  assert (Hsr : m ∈ keys spreads) by now rewrite spreads_keys.
  apply dict_get_keys in Hsr as [sr Hsr].
  destruct (materials_keyed m Hm) as [mat Hmat].
  assert (Hb : m ∈ keys budgets) by now rewrite Hbud.
  apply dict_get_keys in Hb as [budget Hb].
  pose proof Hm as Ho. apply dict_get_keys in Ho as [orders Ho].
  apply (returns_bind (fun x => x = sr));
    [now apply (returns_lookup _ _ _ sr)|].
  intros ? ->.
  apply (returns_bind (fun _ => True));
    [now apply (returns_lookup _ _ _ mat)|].
  intros mat' _.
  destruct (Qltb threshold (spread_value sr)) eqn:E.
  - apply (returns_bind (fun x => x = budget));
      [now apply (returns_lookup _ _ _ budget)|].
    intros ? ->.
    destruct (Qltb 0 (py_min _ budget)); [|now apply returns_ret].
    destruct (best_ask sr) as [ask|] eqn:Hask.
    + apply (returns_bind (fun _ => True));
        [now apply (returns_lookup _ _ _ ask)|].
      intros ask' _. apply returns_ret. simpl.
      rewrite keys_dict_set_in; [exact Hbud|].
      apply dict_get_keys. eauto.
    + exfalso. apply Qltb_lt in E.
      apply dict_get_elem in Hsr.
      rewrite Forall_forall in spreads_priced.
      pose proof (spreads_priced _ Hsr Hask) as Hzero. simpl in Hzero.
      rewrite Hzero in E. lra.
  - apply (returns_bind (fun _ => True));
      [now apply (returns_lookup _ _ _ orders)|].
    intros orders' _.
    apply (returns_bind (fun _ => True)); [now apply returns_call|].
    intros sold _. now apply returns_ret.
Qed.

Lemma sell_materials_returns (mat_ids : list Z) :
  forall (cg cc : Q) (so : dict (list order_record)) (budgets : dict Q),
    (forall m, m ∈ mat_ids -> m ∈ keys buy_orders_of) ->
    keys budgets = keys buy_orders_of ->
    returns (fun r => keys (snd r) = keys buy_orders_of)
            (safe_sales mat_ids cg cc so budgets).
Proof.
  induction mat_ids as [|m mat_ids IH]; intros cg cc so budgets Hin Hbud;
    simpl.
  - now apply returns_ret.
  - apply (returns_bind (fun r => keys (snd r) = keys buy_orders_of)).
    + apply sell_material_returns; [|exact Hbud].
      apply Hin, list_elem_of_here.
    + intros [[limit_sell sold] budgets'] Hbud'. simpl in Hbud'.
      destruct sold as [|x sold]; [now apply returns_ret|].
      apply IH; [|exact Hbud'].
      intros m' Hm'. apply Hin. now apply list_elem_of_further.
Qed.

Lemma attempt_round_returns (budgets : dict Q) :
  keys budgets = keys buy_orders_of ->
  returns (fun r =>
             match r with
             | Profitable _ _ _ _ bud => keys bud = keys buy_orders_of
             | _ => True
             end)
          (safe_round budgets).
Proof.
  intros Hbud. unfold attempt_round.
  apply (returns_bind (fun _ => True)); [now apply returns_call|].
  intros [|x bought] _; [now apply returns_ret|].
  apply (returns_bind (fun r => keys (snd r) = keys buy_orders_of)).
  - now apply sell_materials_returns.
  - intros [[[[cg cc] so]|] budgets'] Hbud'; [|now apply returns_ret].
    destruct so as [|kv so]; [now apply returns_ret|].
    destruct (Qltb cc cg); now apply returns_ret.
Qed.

Lemma extend_all_some (s : dict (list order_record)) :
  forall a : dict (list order_record),
    (forall k, k ∈ keys s -> k ∈ keys a) ->
    exists a', extend_all a s = Some a' /\ keys a' = keys a.
Proof.
  clear. induction s as [|[i sold] s IH]; intros a Hin; simpl; [eauto|].
  assert (Hi : i ∈ keys a) by (apply Hin; apply list_elem_of_here).
  pose proof Hi as Hi'. apply dict_get_keys in Hi' as [l Hl]. rewrite Hl.
  destruct (IH (dict_set a i (l ++ sold))) as (a' & Ha' & Hkeys).
  - intros k Hk. rewrite keys_dict_set_in by exact Hi.
    apply Hin. now apply list_elem_of_further.
  - exists a'. split; [exact Ha'|].
    rewrite Hkeys. now apply keys_dict_set_in.
Qed.

Lemma rounds_returns (fuel : nat) :
  forall l : locals,
    keys (limit_order_max l) = keys buy_orders_of ->
    keys (all_sell_orders l) = keys buy_orders_of ->
    returns (fun _ => True) (safe_rounds fuel l).
Proof.
  induction fuel as [|fuel IH]; intros l Hmax Hsell h; [exact I|].
  simpl. unfold bind at 1.
  pose proof (attempt_round_returns (limit_order_max l) Hmax h) as Hround.
  destruct (safe_round (limit_order_max l) h) as [[r|e|] h1] eqn:Hr;
    simpl in Hround; try easy.
  destruct r as [| | |b s g c bud]; try exact I.
  apply attempt_round_accounts in Hr as (Hkeys & _);
    [|exact materials_distinct].
  unfold commit, bind at 1.
  destruct (extend_all_some s (all_sell_orders l)) as (a' & Ha' & Hkeys').
  { intros k Hk. now rewrite Hsell, <- Hkeys. }
  rewrite Ha'. simpl.
  apply IH; simpl; [exact Hround | congruence].
Qed.

End SafetyRounds.

Lemma attempt_loop_returns (fuel : nat) :
  (0 <= limit_threshold tax_rate broker_fee)%Q ->
  ~ (1 - tax_rate - broker_fee == 0)%Q ->
  dict_get type_map type_id = Some source ->
  (forall mat, mat ∈ values (material_map source) ->
     (exists mat', dict_get (material_map source) (materialTypeID mat)
                   = Some mat') /\
     (exists row,
        head (filter (fun r => summary_type_id r = materialTypeID mat)
                     market_summary) = Some row)) ->
  returns (fun _ => True)
          (attempt_loop snapshot type_id region_id station_id type_map
                        tax_rate efficiency station_tax broker_fee
                        market_summary volume_limit fuel).
Proof.
  intros Hthreshold Hrate Hsource Hmats. unfold attempt_loop.
  destruct (Qeq_bool (1 - tax_rate - broker_fee) 0) eqn:E.
  { apply Qeq_bool_iff in E. contradiction. }
  apply (returns_bind (fun x => x = source));
    [now apply (returns_lookup _ _ _ source)|].
  intros ? ->.
  apply (returns_bind (fun _ => True)); [now apply returns_call|].
  intros sell_order_list _.
  apply (returns_bind (ready source)).
  - apply setup_materials_returns; [exact Hmats|].
    repeat split; try reflexivity.
    + apply NoDup_nil_2.
    + apply Forall_nil_2.
    + intros k Hk. now apply elem_of_nil in Hk.
  - intros l (Hks & Hkm & Hka & Hnd & Hsp & Hmat).
    now apply rounds_returns.
Qed.

End Safety.

Lemma head_filter_some {A : Type} (P : A -> Prop)
    `{forall x, Decision (P x)} (l : list A) (a : A) :
  a ∈ l -> P a -> exists b, head (filter P l) = Some b.
Proof.
  clear check_range. intros Ha HP.
  assert (Hin : a ∈ filter P l) by now apply list_elem_of_filter.
  destruct (filter P l) as [|b rest]; [now apply elem_of_nil in Hin|].
  now exists b.
Qed.

End Strategy.

(** ** Deduplicator *)

Lemma stamp_loop_run_starts (times : list Z) :
  forall (last : option Z) (stamp_list : list Z),
    stamp_loop times last stamp_list = stamp_list ++ run_starts last times.
Proof.
  induction times as [|i rest IH]; intros last acc; simpl.
  - now rewrite app_nil_r.
  - destruct last as [l|].
    + destruct (five_minutes <? i - l); rewrite IH; [|reflexivity].
      now rewrite <- app_assoc.
    + rewrite IH. now rewrite <- app_assoc.
Qed.

Lemma build_stamp_map_lookup (opps : list found) (o : found) :
  o ∈ opps ->
  build_stamp_map opps !! type o
  = Some (run_starts None (times_of (type o) opps)).
Proof.
  intros Ho. unfold build_stamp_map.
  apply elem_of_list_to_map.
  - rewrite <- list_fmap_compose.
    replace (fst ∘ _) with (@id string) by reflexivity.
    rewrite list_fmap_id. apply NoDup_elements.
  - replace (run_starts None (times_of (type o) opps))
      with (stamp_loop (times_of (type o) opps) None [])
      by apply stamp_loop_run_starts.
    apply (list_elem_of_fmap_2
             (fun next_type =>
                (next_type, stamp_loop (times_of next_type opps) None []))).
    apply elem_of_elements, elem_of_list_to_set.
    now apply list_elem_of_fmap_2.
Qed.

Lemma rebuild_filter (stamp_map : gmap string (list Z))
    (stamps : string -> list Z) (opps : list found) :
  forall new_opps : list found,
    (forall o, o ∈ opps -> stamp_map !! type o = Some (stamps (type o))) ->
    rebuild stamp_map opps new_opps
    = Ok (new_opps ++ filter (fun o => time o ∈ stamps (type o)) opps).
Proof.
  induction opps as [|o opps IH]; intros acc H; simpl.
  - now rewrite app_nil_r.
  - rewrite (H o) by apply list_elem_of_here.
    rewrite filter_cons.
    destruct (decide (time o ∈ stamps (type o))) as [Hin|Hout].
    + rewrite bool_decide_eq_true_2 by assumption.
      rewrite IH; [now rewrite <- app_assoc|].
      intros o' Ho'. apply H. now apply list_elem_of_further.
    + rewrite bool_decide_eq_false_2 by assumption.
      apply IH. intros o' Ho'. apply H. now apply list_elem_of_further.
Qed.

(** What [clean_opportunities] keeps, on every list: the opportunities whose
    time is one of the run starts of their type. *)
Lemma clean_opportunities_filter (opps : list found) :
  clean_opportunities opps
  = Ok (filter (fun o => time o ∈ run_starts None (times_of (type o) opps))
               opps).
Proof.
  unfold clean_opportunities.
  rewrite (rebuild_filter _ (fun ty => run_starts None (times_of ty opps))).
  - reflexivity.
  - intros o Ho. now apply build_stamp_map_lookup.
Qed.

Lemma run_starts_subset (times : list Z) :
  forall (prev : option Z) (x : Z), x ∈ run_starts prev times -> x ∈ times.
Proof.
  induction times as [|i rest IH]; intros prev x; simpl.
  - intros H. exact H.
  - intros H. destruct prev as [l|].
    + destruct (five_minutes <? i - l).
      * apply elem_of_cons in H as [->|H];
          [apply list_elem_of_here | apply list_elem_of_further; eauto].
      * apply list_elem_of_further; eauto.
    + apply elem_of_cons in H as [->|H];
        [apply list_elem_of_here | apply list_elem_of_further; eauto].
Qed.

Lemma time_before_cons (prev : option Z) (i : Z) (rest : list Z) :
  time_before prev (i :: rest) = time_before (Some i) rest.
Proof.
  unfold time_before. destruct rest as [|j rest]; [reflexivity|].
  change (last (i :: j :: rest)) with (last (j :: rest)).
  destruct (last (j :: rest)) eqn:E; [reflexivity|].
  now apply last_None in E.
Qed.

Lemma run_starts_app (a : list Z) :
  forall (prev : option Z) (b : list Z),
    run_starts prev (a ++ b)
    = run_starts prev a ++ run_starts (time_before prev a) b.
Proof.
  induction a as [|i a IH]; intros prev b.
  - reflexivity.
  - rewrite time_before_cons. simpl. destruct prev as [l|].
    + destruct (five_minutes <? i - l); rewrite IH; reflexivity.
    + rewrite IH. reflexivity.
Qed.

(** Whether a time starts a run, given the time before it. *)
Lemma run_start_here (a b : list Z) (t : Z) :
  NoDup (a ++ t :: b) ->
  t ∈ run_starts None (a ++ t :: b) <->
  match last a with
  | Some l => five_minutes < t - l
  | None => True
  end.
Proof.
  intros Hnd. apply NoDup_app in Hnd as (_ & Ha & Hb).
  apply NoDup_cons in Hb as [Hb _].
  assert (Hta : t ∉ run_starts None a).
  { intros H. apply run_starts_subset in H. apply (Ha t H).
    apply list_elem_of_here. }
  assert (Htb : t ∉ run_starts (Some t) b).
  { intros H. now apply run_starts_subset in H. }
  rewrite run_starts_app, elem_of_app. unfold time_before. simpl.
  destruct (last a) as [l|].
  - destruct (five_minutes <? t - l) eqn:E.
    + apply Z.ltb_lt in E. rewrite elem_of_cons. tauto.
    + apply Z.ltb_ge in E. split; [tauto | lia].
  - rewrite elem_of_cons. tauto.
Qed.

Lemma times_of_app (ty : string) (a b : list found) :
  times_of ty (a ++ b) = times_of ty a ++ times_of ty b.
Proof. unfold times_of. now rewrite filter_app, map_app. Qed.

Lemma times_of_cons_same (o : found) (l : list found) :
  times_of (type o) (o :: l) = time o :: times_of (type o) l.
Proof. unfold times_of. now rewrite filter_cons_True. Qed.

Lemma times_of_cons_other (ty : string) (o : found) (l : list found) :
  type o <> ty -> times_of ty (o :: l) = times_of ty l.
Proof. intros H. unfold times_of. now rewrite filter_cons_False. Qed.

Lemma dedup_after_previous_filter (suf : list found) :
  forall (pre : list found) (last_seen : gmap string Z),
    (forall ty, last_seen !! ty = last (times_of ty pre)) ->
    (forall ty, NoDup (times_of ty (pre ++ suf))) ->
    filter (fun o =>
              time o ∈ run_starts None (times_of (type o) (pre ++ suf))) suf
    = dedup_after_previous last_seen suf.
Proof.
  induction suf as [|o suf IH]; intros pre m Hm Hnd; [reflexivity|].
  assert (Hstep :
    filter (fun o' =>
              time o' ∈ run_starts None (times_of (type o') (pre ++ o :: suf)))
           suf
    = dedup_after_previous (<[type o := time o]> m) suf).
  { replace (pre ++ o :: suf) with ((pre ++ [o]) ++ suf)
      by now rewrite <- app_assoc.
    apply IH.
    - intros ty. rewrite times_of_app.
      destruct (decide (type o = ty)) as [<-|Hne].
      + rewrite lookup_insert_eq, times_of_cons_same.
        change (times_of (type o) []) with (@nil Z).
        now rewrite last_snoc.
      + rewrite lookup_insert_ne by assumption.
        rewrite times_of_cons_other by assumption.
        change (times_of ty []) with (@nil Z).
        rewrite app_nil_r. apply Hm.
    - intros ty. rewrite <- app_assoc. apply Hnd. }
  pose proof (Hnd (type o)) as Hnd_o.
  rewrite times_of_app, times_of_cons_same in Hnd_o.
  pose proof (run_start_here _ _ _ Hnd_o) as Hhere.
  rewrite <- times_of_cons_same, <- times_of_app, <- Hm in Hhere.
  rewrite filter_cons. simpl dedup_after_previous.
  destruct (m !! type o) as [t|].
  - destruct (five_minutes <? time o - t) eqn:E.
    + apply Z.ltb_lt in E. rewrite decide_True by tauto. now rewrite Hstep.
    + apply Z.ltb_ge in E. rewrite decide_False by (rewrite Hhere; lia).
      exact Hstep.
  - rewrite decide_True by tauto. now rewrite Hstep.
Qed.

Lemma run_starts_after (times : list Z) :
  forall (l y : Z),
    Forall (Z.lt l) times -> StronglySorted Z.lt times ->
    y ∈ run_starts (Some l) times -> five_minutes < y - l.
Proof.
  induction times as [|i rest IH]; intros l y Hl Hs; simpl.
  - intros H. now apply elem_of_nil in H.
  - apply Forall_cons in Hl as [Hli Hl].
    apply StronglySorted_inv in Hs as [Hs Hi].
    assert (Hrest : y ∈ run_starts (Some i) rest -> five_minutes < y - l).
    { intros H. apply IH in H; try assumption. lia. }
    destruct (five_minutes <? i - l) eqn:E; [|exact Hrest].
    apply Z.ltb_lt in E. intros H.
    apply elem_of_cons in H as [->|H]; [exact E | now apply Hrest].
Qed.

Lemma run_starts_gap (times : list Z) :
  forall (prev : option Z) (x y : Z),
    StronglySorted Z.lt times ->
    x ∈ run_starts prev times -> y ∈ run_starts prev times -> x < y ->
    five_minutes < y - x.
Proof.
  induction times as [|i rest IH]; intros prev x y Hs; simpl.
  - intros H. now apply elem_of_nil in H.
  - apply StronglySorted_inv in Hs as [Hs Hi].
    assert (Hhead : forall x y,
              x ∈ i :: run_starts (Some i) rest ->
              y ∈ i :: run_starts (Some i) rest ->
              x < y -> five_minutes < y - x).
    { intros a b Ha Hb Hab.
      apply elem_of_cons in Ha as [->|Ha];
        apply elem_of_cons in Hb as [->|Hb].
      - lia.
      - now apply (run_starts_after rest).
      - apply run_starts_subset in Ha.
        rewrite Forall_forall in Hi. apply Hi in Ha. lia.
      - now apply (IH (Some i)). }
    destruct prev as [l|]; [|apply Hhead].
    destruct (five_minutes <? i - l); [apply Hhead|].
    now apply IH.
Qed.

Lemma StronglySorted_lt_NoDup (l : list Z) : StronglySorted Z.lt l -> NoDup l.
Proof.
  induction 1 as [|x l Hs IH Hx]; constructor; [|exact IH].
  intros Hin. rewrite Forall_forall in Hx. apply Hx in Hin. lia.
Qed.

Lemma increasing_sorted (times : list Z) :
  increasing times = true -> StronglySorted Z.lt times.
Proof.
  intros H. apply Sorted_StronglySorted; [intros x y z; lia|].
  induction times as [|x rest IH]; [constructor|].
  destruct rest as [|y rest]; [repeat constructor|].
  simpl in H. apply andb_prop in H as [Hxy H]. apply Z.ltb_lt in Hxy.
  constructor; [now apply IH | now constructor].
Qed.

Lemma times_of_absent (ty : string) (opps : list found) :
  ty ∉ map type opps -> times_of ty opps = [].
Proof.
  induction opps as [|o opps IH]; intros H; [reflexivity|].
  simpl in H. apply not_elem_of_cons in H as [Hne H].
  rewrite times_of_cons_other by congruence. now apply IH.
Qed.

Lemma increasing_per_type_sorted (opps : list found) :
  increasing_per_type opps = true ->
  forall ty, StronglySorted Z.lt (times_of ty opps).
Proof.
  unfold increasing_per_type. rewrite forallb_forall. intros H ty.
  destruct (decide (ty ∈ map type opps)) as [Hin|Hout].
  - apply increasing_sorted, H. now apply list_elem_of_In.
  - rewrite times_of_absent by assumption. constructor.
Qed.

Lemma dedup_of_sorted (opps : list found) :
  (forall ty, StronglySorted Z.lt (times_of ty opps)) ->
  clean_opportunities opps = Ok (dedup_after_previous ∅ opps) /\
  (forall a b,
     a ∈ dedup_after_previous ∅ opps -> b ∈ dedup_after_previous ∅ opps ->
     type a = type b -> time a < time b ->
     five_minutes < time b - time a).
Proof.
  intros Hs.
  assert (Heq :
    filter (fun o => time o ∈ run_starts None (times_of (type o) opps)) opps
    = dedup_after_previous ∅ opps).
  { apply (dedup_after_previous_filter opps []).
    - intros ty. apply lookup_empty.
    - intros ty. apply StronglySorted_lt_NoDup, Hs. }
  split.
  - now rewrite clean_opportunities_filter, Heq.
  - rewrite <- Heq. intros a b Ha Hb Hty Hlt.
    apply list_elem_of_filter in Ha as [Ha _].
    apply list_elem_of_filter in Hb as [Hb _].
    rewrite <- Hty in Hb.
    exact (run_starts_gap _ None _ _ (Hs (type a)) Ha Hb Hlt).
Qed.

(** C5, as the code has it.  On a list whose opportunities of each type are
    in strictly increasing time order, the deduplicator drops exactly the
    opportunities whose time is within five minutes of the opportunity of
    the same type just before them in the list, retained or not, and no two
    retained opportunities of one type are within five minutes of each
    other. *)
Theorem dedup_collapses_runs :
  forall opps : list found,
    increasing_per_type opps = true ->
    clean_opportunities opps = Ok (dedup_after_previous ∅ opps) /\
    (forall a b,
       a ∈ dedup_after_previous ∅ opps -> b ∈ dedup_after_previous ∅ opps ->
       type a = type b -> time a < time b ->
       five_minutes < time b - time a).
Proof.
  intros opps H. apply dedup_of_sorted.
  now apply increasing_per_type_sorted.
Qed.


(** ** Order compression *)

Lemma filled_volume_perm (a b : list order_record) :
  a ≡ₚ b -> (filled_volume a == filled_volume b)%Q.
Proof.
  induction 1 as [|x a b _ IH|x y a|a b c _ IH1 _ IH2]; simpl.
  - reflexivity.
  - now rewrite IH.
  - ring.
  - now rewrite IH1.
Qed.

Lemma order_value_perm (a b : list order_record) :
  a ≡ₚ b -> (order_value a == order_value b)%Q.
Proof.
  induction 1 as [|x a b _ IH|x y a|a b c _ IH1 _ IH2]; simpl.
  - reflexivity.
  - now rewrite IH.
  - ring.
  - now rewrite IH1.
Qed.

Lemma insert_by_price_perm (reverse : bool) (x : order_record)
    (l : list order_record) :
  insert_by_price reverse x l ≡ₚ x :: l.
Proof.
  induction l as [|y l IH]; simpl; [reflexivity|].
  destruct (if reverse then Qle_bool (rec_price y) (rec_price x)
            else Qle_bool (rec_price x) (rec_price y)); [reflexivity|].
  rewrite IH. apply Permutation_swap.
Qed.

Lemma sorted_by_price_perm (reverse : bool) (l : list order_record) :
  sorted_by_price reverse l ≡ₚ l.
Proof.
  unfold sorted_by_price. induction l as [|x l IH]; simpl; [reflexivity|].
  now rewrite insert_by_price_perm, IH.
Qed.

(** The records built from [order_map.items()]. *)
Lemma order_map_add_totals (flag : bool) (m : list (Q * Q)) (p v : Q) :
  (filled_volume (map (fun kv => mkRecord (fst kv) (snd kv) flag)
                      (order_map_add m p v))
   == filled_volume (map (fun kv => mkRecord (fst kv) (snd kv) flag) m) + v)%Q
  /\
  (order_value (map (fun kv => mkRecord (fst kv) (snd kv) flag)
                    (order_map_add m p v))
   == order_value (map (fun kv => mkRecord (fst kv) (snd kv) flag) m)
      + p * v)%Q.
Proof.
  induction m as [|[k w] m [IHv IHo]]; simpl.
  - split; ring.
  - destruct (Qeq_bool k p) eqn:E; simpl.
    + apply Qeq_bool_iff in E. split; [ring|]. rewrite <- E. ring.
    + rewrite IHv, IHo. split; ring.
Qed.

Lemma order_map_fold_totals (flag : bool) (l : list order_record) :
  forall m : list (Q * Q),
    let order_map :=
      fold_left (fun m o => order_map_add m (rec_price o) (rec_volume o))
                l m in
    (filled_volume (map (fun kv => mkRecord (fst kv) (snd kv) flag) order_map)
     == filled_volume (map (fun kv => mkRecord (fst kv) (snd kv) flag) m)
        + filled_volume l)%Q /\
    (order_value (map (fun kv => mkRecord (fst kv) (snd kv) flag) order_map)
     == order_value (map (fun kv => mkRecord (fst kv) (snd kv) flag) m)
        + order_value l)%Q.
Proof.
  induction l as [|x l IH]; intros m; simpl.
  - split; ring.
  - destruct (IH (order_map_add m (rec_price x) (rec_volume x)))
      as [IHv IHo].
    destruct (order_map_add_totals flag m (rec_price x) (rec_volume x))
      as [Hv Ho].
    simpl in IHv, IHo. rewrite IHv, IHo, Hv, Ho. split; ring.
Qed.

Lemma compress_order_list_preserves_totals_lemma (l : list order_record)
    (ascending : bool) :
  (filled_volume (compress_order_list l ascending) == filled_volume l)%Q /\
  (order_value (compress_order_list l ascending) == order_value l)%Q.
Proof.
  unfold compress_order_list.
  destruct (order_map_fold_totals (forallb market l) l []) as [Hv Ho].
  simpl in Hv, Ho.
  rewrite (filled_volume_perm _ _ (sorted_by_price_perm _ _)).
  rewrite (order_value_perm _ _ (sorted_by_price_perm _ _)).
  rewrite Hv, Ho. split; ring.
Qed.

(** X1.  Compressing an order list changes neither the volume nor the
    value it stands for: the volumes and the [price * volume] products of
    the compressed list add up to those of the list it was built from,
    whatever the direction of the sort. *)
Theorem compress_order_list_preserves_totals :
  forall (order_list : list order_record) (ascending : bool),
    (filled_volume (compress_order_list order_list ascending)
     == filled_volume order_list)%Q /\
    (order_value (compress_order_list order_list ascending)
     == order_value order_list)%Q.
Proof. exact compress_order_list_preserves_totals_lemma. Qed.

(** The order in which [sorted] lists two records of different prices. *)
Lemma insert_by_price_sorted (reverse : bool) (x : order_record)
    (l : list order_record) :
  StronglySorted (price_before reverse) l ->
  Forall (fun y => ~ (rec_price x == rec_price y)%Q) l ->
  StronglySorted (price_before reverse) (insert_by_price reverse x l).
Proof.
  intros Hs Hd. induction l as [|y l IH]; simpl.
  - repeat constructor.
  - apply StronglySorted_inv in Hs as [Hs Hy].
    apply Forall_cons in Hd as [Hxy Hd].
    destruct (if reverse then Qle_bool (rec_price y) (rec_price x)
              else Qle_bool (rec_price x) (rec_price y)) eqn:E.
    + assert (Hb : price_before reverse x y).
      { unfold price_before. destruct reverse; apply Qle_bool_iff in E;
          apply Qle_lt_or_eq in E as [E|E]; try exact E;
          contradiction Hxy; now rewrite E. }
      constructor; [now constructor|]. constructor; [exact Hb|].
      eapply Forall_impl; [exact Hy|]. intros z Hz.
      unfold price_before in *. destruct reverse; eapply Qlt_trans; eauto.
    + constructor; [now apply IH|].
      apply (Permutation_Forall (Permutation_sym
               (insert_by_price_perm reverse x l))).
      constructor; [|exact Hy].
      unfold price_before. destruct reverse;
        apply Qnot_le_lt; intros Hle; apply Qle_bool_iff in Hle;
        congruence.
Qed.

Lemma sorted_by_price_sorted (reverse : bool) (l : list order_record) :
  StronglySorted (fun x y => ~ (rec_price x == rec_price y)%Q) l ->
  StronglySorted (price_before reverse) (sorted_by_price reverse l).
Proof.
  unfold sorted_by_price. induction 1 as [|x l Hs IH Hx]; simpl.
  - constructor.
  - apply insert_by_price_sorted; [exact IH|].
    now apply (Permutation_Forall (Permutation_sym
                 (sorted_by_price_perm reverse l))).
Qed.

Lemma order_map_add_keys (P : Q -> Prop) (m : list (Q * Q)) (p v : Q) :
  Forall (fun kv => P (fst kv)) m -> P p ->
  Forall (fun kv => P (fst kv)) (order_map_add m p v).
Proof.
  intros Hm Hp. induction m as [|[k w] m IH]; simpl.
  - now repeat constructor.
  - apply Forall_cons in Hm as [Hk Hm].
    destruct (Qeq_bool k p); constructor; auto.
Qed.

Lemma order_map_add_distinct (m : list (Q * Q)) (p v : Q) :
  StronglySorted (fun a b => ~ (fst a == fst b)%Q) m ->
  StronglySorted (fun a b => ~ (fst a == fst b)%Q) (order_map_add m p v).
Proof.
  induction 1 as [|[k w] m Hs IH Hk]; simpl.
  - repeat constructor.
  - destruct (Qeq_bool k p) eqn:E.
    + constructor; assumption.
    + constructor; [exact IH|].
      apply (order_map_add_keys (fun q => ~ (k == q)%Q)); [exact Hk|].
      now apply Qeq_bool_neq.
Qed.

Lemma order_map_fold_distinct (l : list order_record) :
  forall m : list (Q * Q),
    StronglySorted (fun a b => ~ (fst a == fst b)%Q) m ->
    StronglySorted (fun a b => ~ (fst a == fst b)%Q)
      (fold_left (fun m o => order_map_add m (rec_price o) (rec_volume o))
                 l m).
Proof.
  induction l as [|x l IH]; intros m Hm; simpl; [exact Hm|].
  apply IH. now apply order_map_add_distinct.
Qed.

Lemma records_distinct (flag : bool) (m : list (Q * Q)) :
  StronglySorted (fun a b => ~ (fst a == fst b)%Q) m ->
  StronglySorted (fun x y => ~ (rec_price x == rec_price y)%Q)
    (map (fun kv => mkRecord (fst kv) (snd kv) flag) m).
Proof.
  induction 1 as [|kv m Hs IH Hk]; simpl; constructor; [exact IH|].
  apply Forall_map. exact Hk.
Qed.

(** The prices of [order_map] are those of the orders. *)
Lemma order_map_add_has (m : list (Q * Q)) (p v : Q) :
  Exists (fun kv => (fst kv == p)%Q) (order_map_add m p v).
Proof.
  induction m as [|[k w] m IH]; simpl.
  - now repeat constructor.
  - destruct (Qeq_bool k p) eqn:E.
    + apply Exists_cons_hd. now apply Qeq_bool_iff.
    + now apply Exists_cons_tl.
Qed.

Lemma order_map_add_keeps (m : list (Q * Q)) (p v q : Q) :
  Exists (fun kv => (fst kv == q)%Q) m ->
  Exists (fun kv => (fst kv == q)%Q) (order_map_add m p v).
Proof.
  induction 1 as [[k w] m Hk|[k w] m Hm IH]; simpl.
  - destruct (Qeq_bool k p); apply Exists_cons_hd; exact Hk.
  - destruct (Qeq_bool k p); apply Exists_cons_tl; assumption.
Qed.

Lemma order_map_fold_has (l : list order_record) :
  forall (m : list (Q * Q)) (q : Q),
    Exists (fun kv => (fst kv == q)%Q) m \/
    Exists (fun y => (rec_price y == q)%Q) l ->
    Exists (fun kv => (fst kv == q)%Q)
      (fold_left (fun m o => order_map_add m (rec_price o) (rec_volume o))
                 l m).
Proof.
  induction l as [|x l IH]; intros m q H; simpl.
  - destruct H as [H|H]; [exact H | inversion H].
  - apply IH. destruct H as [H|H].
    + left. now apply order_map_add_keeps.
    + inversion H as [? ? Hx|? ? Hl]; subst.
      * left. eapply Exists_impl; [apply order_map_add_has|].
        intros kv Hkv. simpl in Hkv. now rewrite Hkv.
      * now right.
Qed.

Lemma order_map_fold_from (l : list order_record) :
  forall m : list (Q * Q),
    Forall (fun kv =>
              Exists (fun kv' => fst kv' = fst kv) m \/
              Exists (fun y => rec_price y = fst kv) l)
      (fold_left (fun m o => order_map_add m (rec_price o) (rec_volume o))
                 l m).
Proof.
  induction l as [|x l IH]; intros m; simpl.
  - apply Forall_forall. intros kv Hkv. left.
    apply Exists_exists. exists kv. split; [first [assumption | now apply list_elem_of_In]|].
    reflexivity.
  - eapply Forall_impl; [apply IH|]. intros kv [H|H].
    + assert (Hadd : Forall (fun kv' =>
                 Exists (fun kv'' => fst kv'' = fst kv') m \/
                 rec_price x = fst kv')
               (order_map_add m (rec_price x) (rec_volume x))).
      { clear. induction m as [|[k w] m IHm]; simpl.
        - constructor; [now right | constructor].
        - destruct (Qeq_bool k (rec_price x)).
          + constructor; [left; now apply Exists_cons_hd|].
            apply Forall_forall. intros kv Hkv. left.
            apply Exists_cons_tl, Exists_exists. exists kv.
            split; [first [assumption | now apply list_elem_of_In] | reflexivity].
          + constructor; [left; now apply Exists_cons_hd|].
            eapply Forall_impl; [exact IHm|]. intros kv [Hkv|Hkv].
            * left. now apply Exists_cons_tl.
            * now right. }
      apply Exists_exists in H as (kv' & Hin & Heq).
      rewrite Forall_forall in Hadd.
      destruct (Hadd kv' Hin) as [Hm|Hx].
      * left. eapply Exists_impl; [exact Hm|]. simpl. congruence.
      * right. apply Exists_cons_hd. congruence.
    + right. now apply Exists_cons_tl.
Qed.

(** What a compressed list is: the records of [order_map], sorted. *)
Lemma compress_order_list_sorted_lemma (l : list order_record)
    (ascending : bool) :
  StronglySorted (price_before (negb ascending))
                 (compress_order_list l ascending) /\
  Forall (fun x => market x = forallb market l)
         (compress_order_list l ascending) /\
  compress_order_list l ascending
  ≡ₚ map (fun kv => mkRecord (fst kv) (snd kv) (forallb market l))
         (fold_left (fun m o => order_map_add m (rec_price o) (rec_volume o))
                    l []).
Proof.
  unfold compress_order_list.
  set (recs := map _ (fold_left _ l [])).
  pose proof (sorted_by_price_perm (negb ascending) recs) as Hperm.
  repeat split.
  - apply sorted_by_price_sorted, records_distinct.
    apply order_map_fold_distinct. constructor.
  - apply (Permutation_Forall (Permutation_sym Hperm)).
    apply Forall_map. now apply Forall_forall.
  - exact Hperm.
Qed.

(** X2.  A compressed list has one record for each price of the orders and
    no other record, in strictly increasing price order when [ascending]
    and strictly decreasing order otherwise; every record carries the
    conjunction of the [market] flags of the orders. *)
Theorem compress_order_list_sorted :
  forall (order_list : list order_record) (ascending : bool),
    StronglySorted (price_before (negb ascending))
                   (compress_order_list order_list ascending) /\
    Forall (fun x => market x = forallb market order_list)
           (compress_order_list order_list ascending) /\
    (forall x, x ∈ compress_order_list order_list ascending ->
       exists y, y ∈ order_list /\ rec_price y = rec_price x) /\
    (forall y, y ∈ order_list ->
       exists x, x ∈ compress_order_list order_list ascending /\
                 (rec_price x == rec_price y)%Q).
Proof.
  intros l asc. unfold compress_order_list.
  set (m := fold_left _ l []).
  set (recs := map (fun kv => mkRecord (fst kv) (snd kv) (forallb market l))
                   m).
  pose proof (sorted_by_price_perm (negb asc) recs) as Hperm.
  repeat split.
  - apply sorted_by_price_sorted, records_distinct.
    apply order_map_fold_distinct. constructor.
  - apply (Permutation_Forall (Permutation_sym Hperm)).
    apply Forall_map. now apply Forall_forall.
  - intros x Hx. rewrite Hperm in Hx. unfold recs in Hx.
    apply list_elem_of_fmap in Hx as (kv & -> & Hkv).
    pose proof (order_map_fold_from l []) as Hfrom.
    rewrite Forall_forall in Hfrom.
    destruct (Hfrom kv Hkv) as [H|H]; [inversion H|].
    apply Exists_exists in H as (y & Hy & Hp).
    exists y. split; [first [assumption | now apply list_elem_of_In] | exact Hp].
  - intros y Hy.
    assert (Hex : Exists (fun kv => (fst kv == rec_price y)%Q) m).
    { apply order_map_fold_has. right. apply Exists_exists.
      exists y. split; [first [assumption | now apply list_elem_of_In] | reflexivity]. }
    apply Exists_exists in Hex as (kv & Hkv & Hp).
    exists (mkRecord (fst kv) (snd kv) (forallb market l)).
    split; [|exact Hp]. rewrite Hperm. unfold recs.
    apply list_elem_of_fmap. exists kv.
    split; [reflexivity | first [assumption | now apply list_elem_of_In]].
Qed.

(** A list sorted strictly by price is determined by its records. *)
Lemma price_before_asym (reverse : bool) (x y : order_record) :
  price_before reverse x y -> price_before reverse y x -> False.
Proof.
  unfold price_before. destruct reverse; intros H1 H2;
    exact (Qlt_irrefl _ (Qlt_trans _ _ _ H1 H2)).
Qed.

Lemma sorted_by_price_unique (reverse : bool) (a : list order_record) :
  forall b : list order_record,
    a ≡ₚ b ->
    StronglySorted (price_before reverse) a ->
    StronglySorted (price_before reverse) b -> a = b.
Proof.
  induction a as [|x a IH]; intros b Hp Ha Hb.
  - now apply Permutation_nil_l in Hp.
  - destruct b as [|y b]; [now apply Permutation_nil_r in Hp|].
    apply StronglySorted_inv in Ha as [Ha Hx].
    apply StronglySorted_inv in Hb as [Hb Hy].
    rewrite Forall_forall in Hx, Hy.
    assert (x = y) as ->.
    { assert (Hxin : x ∈ y :: b) by (rewrite <- Hp; apply list_elem_of_here).
      assert (Hyin : y ∈ x :: a) by (rewrite Hp; apply list_elem_of_here).
      apply elem_of_cons in Hxin as [Hxy|Hxin]; [exact Hxy|].
      apply elem_of_cons in Hyin as [Hyx|Hyin]; [now symmetry|].
      exfalso. exact (price_before_asym reverse x y (Hx y Hyin) (Hy x Hxin)). }
    f_equal. apply IH; try assumption. now apply Permutation_cons_inv in Hp.
Qed.

Lemma price_before_distinct (reverse : bool) (l : list order_record) :
  StronglySorted (price_before reverse) l ->
  StronglySorted (fun x y => ~ (rec_price x == rec_price y)%Q) l.
Proof.
  induction 1 as [|x l Hs IH Hx]; constructor; [exact IH|].
  eapply Forall_impl; [exact Hx|]. intros y Hy Heq.
  unfold price_before in Hy. destruct reverse; rewrite Heq in Hy;
    exact (Qlt_irrefl _ Hy).
Qed.

Lemma order_map_add_fresh (m : list (Q * Q)) (p v : Q) :
  Forall (fun kv => ~ (fst kv == p)%Q) m ->
  order_map_add m p v = m ++ [(p, v)].
Proof.
  induction 1 as [|[k w] m Hk Hm IH]; simpl; [reflexivity|].
  destruct (Qeq_bool k p) eqn:E.
  - apply Qeq_bool_iff in E. contradiction.
  - now rewrite IH.
Qed.

Lemma order_map_fold_fresh (l : list order_record) :
  forall m : list (Q * Q),
    StronglySorted (fun x y => ~ (rec_price x == rec_price y)%Q) l ->
    Forall (fun kv => Forall (fun y => ~ (fst kv == rec_price y)%Q) l) m ->
    fold_left (fun m o => order_map_add m (rec_price o) (rec_volume o)) l m
    = m ++ map (fun x => (rec_price x, rec_volume x)) l.
Proof.
  induction l as [|x l IH]; intros m Hl Hm; simpl.
  - now rewrite app_nil_r.
  - apply StronglySorted_inv in Hl as [Hl Hx].
    rewrite order_map_add_fresh.
    + rewrite IH, <- app_assoc; [reflexivity | exact Hl|].
      apply Forall_app. split.
      * eapply Forall_impl; [exact Hm|]. intros kv Hkv.
        now apply Forall_cons in Hkv as [_ Hkv].
      * repeat constructor. exact Hx.
    + eapply Forall_impl; [exact Hm|]. intros kv Hkv.
      now apply Forall_cons in Hkv as [Hkv _].
Qed.

Lemma records_rebuilt (flag : bool) (l : list order_record) :
  Forall (fun x => market x = flag) l ->
  map (fun kv => mkRecord (fst kv) (snd kv) flag)
      (map (fun x => (rec_price x, rec_volume x)) l) = l.
Proof.
  induction 1 as [|[p v f] l Hx Hl IH]; simpl; [reflexivity|].
  simpl in Hx. subst f. now rewrite IH.
Qed.

Lemma forallb_market_const (flag : bool) (l : list order_record) :
  l <> [] -> Forall (fun x => market x = flag) l -> forallb market l = flag.
Proof.
  intros Hne H. induction H as [|x l Hx Hl IH]; [now contradiction Hne|].
  simpl. rewrite Hx. destruct l as [|y l]; [now destruct flag|].
  rewrite IH by discriminate. now destruct flag.
Qed.

(** Compressing a list of distinct prices that carry one flag sorts it. *)
Lemma compress_of_compressed (l : list order_record) (flag ascending : bool) :
  StronglySorted (fun x y => ~ (rec_price x == rec_price y)%Q) l ->
  Forall (fun x => market x = flag) l ->
  compress_order_list l ascending = sorted_by_price (negb ascending) l.
Proof.
  intros Hd Hf. unfold compress_order_list.
  rewrite (order_map_fold_fresh l []) by (assumption || constructor).
  simpl app. destruct l as [|x l]; [reflexivity|].
  rewrite (forallb_market_const flag) by (assumption || discriminate).
  now rewrite records_rebuilt.
Qed.

(** X3.  Compression is idempotent, and compressing a compressed list in
    the other direction gives what compressing the original list in that
    direction gives: the result depends on the orders and the direction
    only. *)
Theorem compress_order_list_idempotent :
  forall (order_list : list order_record) (first_pass ascending : bool),
    compress_order_list (compress_order_list order_list first_pass) ascending
    = compress_order_list order_list ascending.
Proof.
  intros l a b.
  destruct (compress_order_list_sorted_lemma l a) as (Hsorted & Hflag & Hperm).
  rewrite (compress_of_compressed _ (forallb market l));
    [|now apply (price_before_distinct (negb a)) | exact Hflag].
  destruct (compress_order_list_sorted_lemma l b) as (Hsorted' & _ & Hperm').
  apply (sorted_by_price_unique (negb b)).
  - now rewrite sorted_by_price_perm, Hperm, <- Hperm'.
  - apply sorted_by_price_sorted.
    now apply (price_before_distinct (negb a)).
  - exact Hsorted'.
Qed.

(** ** Deduplicator: what holds on every list *)

Lemma run_starts_first (i : Z) (rest : list Z) :
  i ∈ run_starts None (i :: rest).
Proof. simpl. apply list_elem_of_here. Qed.

(** X4.  On every list, in any order, [clean_opportunities] returns without
    a KeyError; what it returns is the list with some opportunities left
    out, the others in their order; and the first opportunity of each type
    is always kept, so a list that is not empty is never cleaned to an
    empty one. *)
Theorem clean_opportunities_selects :
  forall opps : list found,
    exists kept : list found,
      clean_opportunities opps = Ok kept /\
      kept `sublist_of` opps /\
      (forall pre o suf,
         opps = pre ++ o :: suf -> type o ∉ map type pre -> o ∈ kept) /\
      (opps <> [] -> kept <> []).
Proof.
  intros opps. eexists. split; [apply clean_opportunities_filter|].
  assert (Hfirst : forall pre o suf,
            opps = pre ++ o :: suf -> type o ∉ map type pre ->
            o ∈ filter (fun o => time o ∈ run_starts None
                                   (times_of (type o) opps)) opps).
  { intros pre o suf -> Hpre. apply list_elem_of_filter. split.
    - rewrite times_of_app, times_of_cons_same.
      rewrite (times_of_absent _ pre Hpre). apply run_starts_first.
    - apply elem_of_app. right. apply list_elem_of_here. }
  split; [apply sublist_filter|]. split; [exact Hfirst|].
  intros Hne. destruct opps as [|o opps]; [now contradiction Hne|].
  intros Hnil. specialize (Hfirst [] o opps eq_refl).
  rewrite Hnil in Hfirst. eapply not_elem_of_nil, Hfirst.
  simpl. apply not_elem_of_nil.
Qed.

Lemma times_of_filter_type (ty : string) (opps : list found) :
  times_of ty (filter (fun o => type o = ty) opps) = times_of ty opps.
Proof.
  unfold times_of. now rewrite list_filter_filter_l by auto.
Qed.

(** X5.  The types do not interfere: cleaning the opportunities of one type
    alone gives the opportunities of that type in the cleaned list. *)
Theorem clean_opportunities_by_type :
  forall (opps : list found) (ty : string),
    exists kept : list found,
      clean_opportunities opps = Ok kept /\
      clean_opportunities (filter (fun o => type o = ty) opps)
      = Ok (filter (fun o => type o = ty) kept).
Proof.
  intros opps ty. eexists. split; [apply clean_opportunities_filter|].
  rewrite clean_opportunities_filter. f_equal.
  rewrite (filter_agree _
             (fun o => time o ∈ run_starts None (times_of (type o) opps))).
  - rewrite !list_filter_filter. apply filter_agree. tauto.
  - intros o Ho. apply list_elem_of_filter in Ho as [<- _].
    now rewrite times_of_filter_type.
Qed.

(** Times more than five minutes apart, the first one from [prev]. *)
Lemma spaced_run_starts (times : list Z) :
  forall prev : option Z,
    spaced prev times = true -> run_starts prev times = times.
Proof.
  induction times as [|i rest IH]; intros prev H; [reflexivity|].
  simpl in *. destruct prev as [l|].
  - apply andb_prop in H as [-> H]. now rewrite IH.
  - now rewrite IH.
Qed.

Lemma spaced_earlier (times : list Z) (l l' : Z) :
  l' <= l -> spaced (Some l) times = true -> spaced (Some l') times = true.
Proof.
  destruct times as [|i rest]; [reflexivity|]. simpl. intros Hle H.
  apply andb_prop in H as [Hi H]. apply Z.ltb_lt in Hi.
  rewrite H, andb_true_r. apply Z.ltb_lt. lia.
Qed.

Lemma run_starts_spaced (times : list Z) :
  forall prev : option Z,
    StronglySorted Z.lt times ->
    match prev with Some l => Forall (Z.lt l) times | None => True end ->
    spaced prev (run_starts prev times) = true.
Proof.
  induction times as [|i rest IH]; intros prev Hs Hp; [now destruct prev|].
  apply StronglySorted_inv in Hs as [Hs Hi]. simpl.
  destruct prev as [l|].
  - apply Forall_cons in Hp as [Hli Hp].
    destruct (five_minutes <? i - l) eqn:E; simpl.
    + rewrite E. simpl. now apply (IH (Some i)).
    + apply (spaced_earlier _ i); [lia|]. now apply (IH (Some i)).
  - now apply (IH (Some i)).
Qed.

Lemma filter_run_starts (times : list Z) :
  forall prev : option Z,
    StronglySorted Z.lt times ->
    filter (fun t => t ∈ run_starts prev times) times
    = run_starts prev times.
Proof.
  induction times as [|i rest IH]; intros prev Hs; [reflexivity|].
  apply StronglySorted_inv in Hs as [Hs Hi].
  assert (Hrest : forall x, x ∈ rest -> x <> i).
  { intros x Hx ->. rewrite Forall_forall in Hi. apply Hi in Hx. lia. }
  assert (Hkeep :
    filter (fun t => t ∈ i :: run_starts (Some i) rest) (i :: rest)
    = i :: run_starts (Some i) rest).
  { rewrite filter_cons_True by apply list_elem_of_here. f_equal.
    transitivity (filter (fun t => t ∈ run_starts (Some i) rest) rest);
      [|now apply IH].
    apply filter_agree. intros x Hx. rewrite elem_of_cons.
    specialize (Hrest x Hx). tauto. }
  assert (Hdrop :
    filter (fun t => t ∈ run_starts (Some i) rest) (i :: rest)
    = run_starts (Some i) rest).
  { rewrite filter_cons_False; [now apply IH|].
    intros Hin. apply run_starts_subset in Hin.
    now apply (Hrest i Hin). }
  simpl. destruct prev as [l|]; [|exact Hkeep].
  destruct (five_minutes <? i - l); [exact Hkeep | exact Hdrop].
Qed.

Lemma times_of_filter (stamps : string -> list Z) (ty : string)
    (opps : list found) :
  times_of ty (filter (fun o => time o ∈ stamps (type o)) opps)
  = filter (fun t => t ∈ stamps ty) (times_of ty opps).
Proof.
  unfold times_of. induction opps as [|o opps IH]; [reflexivity|].
  destruct (decide (type o = ty)) as [Hty|Hty].
  - rewrite (filter_cons_True (fun x => type x = ty)) by exact Hty.
    destruct (decide (time o ∈ stamps (type o))) as [HP|HP].
    + rewrite (filter_cons_True (fun o => time o ∈ stamps (type o)))
        by exact HP.
      rewrite (filter_cons_True (fun x => type x = ty)) by exact Hty.
      simpl. rewrite filter_cons_True by (rewrite <- Hty; exact HP).
      f_equal. exact IH.
    + rewrite (filter_cons_False (fun o => time o ∈ stamps (type o)))
        by exact HP.
      simpl. rewrite filter_cons_False by (rewrite <- Hty; exact HP).
      exact IH.
  - rewrite (filter_cons_False (fun x => type x = ty)) by exact Hty.
    destruct (decide (time o ∈ stamps (type o))) as [HP|HP].
    + rewrite (filter_cons_True (fun o => time o ∈ stamps (type o)))
        by exact HP.
      rewrite (filter_cons_False (fun x => type x = ty)) by exact Hty.
      exact IH.
    + rewrite (filter_cons_False (fun o => time o ∈ stamps (type o)))
        by exact HP.
      exact IH.
Qed.

(** X6.  On a list whose opportunities of each type are in strictly
    increasing time order, cleaning is idempotent: the cleaned list is left
    as it is by a second cleaning. *)
Theorem clean_opportunities_idempotent :
  forall opps kept : list found,
    increasing_per_type opps = true ->
    clean_opportunities opps = Ok kept ->
    clean_opportunities kept = Ok kept.
Proof.
  intros opps kept Hinc Hclean.
  pose proof (increasing_per_type_sorted opps Hinc) as Hs.
  rewrite clean_opportunities_filter in Hclean.
  injection Hclean as <-.
  set (kept := filter _ opps).
  assert (Htimes : forall ty,
            times_of ty kept = run_starts None (times_of ty opps)).
  { intros ty. unfold kept.
    rewrite <- (filter_run_starts (times_of ty opps) None) by apply Hs.
    exact (times_of_filter
             (fun ty => run_starts None (times_of ty opps)) ty opps). }
  rewrite clean_opportunities_filter. f_equal.
  rewrite (filter_agree _ (fun _ => True)).
  - clear. induction kept as [|o l IH]; [reflexivity|].
    now rewrite filter_cons_True, IH.
  - intros o Ho. split; [trivial|]. intros _.
    rewrite Htimes, spaced_run_starts by now apply run_starts_spaced.
    unfold kept in Ho. now apply list_elem_of_filter in Ho as [Ho _].
Qed.

(** ** Range check failures *)

Lemma sell_accepts_swallow (check_range : Z -> Z -> Z -> string -> range_check)
    (region location v : Z) (o : Order) :
  sell_accepts (fun a b c d => swallow (check_range a b c d)) region location
               v o
  = sell_accepts check_range region location v o.
Proof.
  unfold sell_accepts.
  now destruct (check_range region location (location_id o) (order_range o)).
Qed.

Lemma sell_loop_swallow (check_range : Z -> Z -> Z -> string -> range_check)
    (region location : Z) (l : list ref) :
  forall (v : Z) (pot : list order_record) (h : heap),
    sell_loop check_range region location l v pot h
    = sell_loop (fun a b c d => swallow (check_range a b c d)) region location
                l v pot h.
Proof.
  induction l as [|r l IH]; intros v pot h; [reflexivity|].
  rewrite !sell_loop_cons, sell_accepts_swallow.
  destruct (sell_accepts check_range region location v (deref h r));
    cbv zeta.
  - destruct (v - Z.min v (volume (deref h r)) =? 0); [reflexivity|].
    apply IH.
  - destruct (v =? 0); [reflexivity | apply IH].
Qed.

Lemma best_bid_loop_swallow
    (check_range : Z -> Z -> Z -> string -> range_check)
    (region station : Z) (l : list ref) (h : heap) :
  best_bid_loop check_range region station l h
  = best_bid_loop (fun a b c d => swallow (check_range a b c d)) region
                  station l h.
Proof.
  induction l as [|r l IH]; simpl; [reflexivity|].
  unfold bid_try.
  destruct (check_range region station (location_id (deref h r))
                        (order_range (deref h r))); simpl; auto.
Qed.

Lemma spread_return_swallow
    (check_range : Z -> Z -> Z -> string -> range_check)
    (snapshot : DataFrame) (type_id station region : Z) (h : heap) :
  spread_return check_range snapshot type_id station region h
  = spread_return (fun a b c d => swallow (check_range a b c d)) snapshot
                  type_id station region h.
Proof.
  unfold spread_return. rewrite !bind_call.
  destruct (fst (extract_sell_orders snapshot type_id station h))
    as [|first rest]; [reflexivity|].
  unfold bind at 1 3. unfold read at 1 3. rewrite !bind_call.
  unfold bind, read. now rewrite best_bid_loop_swallow.
Qed.

(** C8.  A range check that raises is never fatal.  In the sell side
    matcher the order is left as it is and the loop goes on with the next
    order; in the best bid search the order is passed over and the search
    goes on.  Both functions, and [spread_return] with them, return what
    they return when every failing check answers "not in range" instead,
    and [spread_return] never raises the error of a range check. *)
Theorem range_failure_is_not_fatal :
  forall (check_range : Z -> Z -> Z -> string -> range_check)
         (region location : Z),
    let quiet := fun a b c d => swallow (check_range a b c d) in
    (forall v l h,
       attempt_sell_type_list check_range region location v l h
       = attempt_sell_type_list quiet region location v l h) /\
    (forall r l v pot h,
       sell_try check_range region location r v pot h
       = Raise RangeCheckError ->
       v <> 0 ->
       sell_loop check_range region location (r :: l) v pot h
       = sell_loop check_range region location l v pot h) /\
    (forall l h,
       best_bid_loop check_range region location l h
       = best_bid_loop quiet region location l h) /\
    (forall r l h,
       bid_try check_range region location r h = Raise RangeCheckError ->
       best_bid_loop check_range region location (r :: l) h
       = best_bid_loop check_range region location l h) /\
    (forall snapshot type_id h,
       spread_return check_range snapshot type_id location region h
       = spread_return quiet snapshot type_id location region h /\
       fst (spread_return check_range snapshot type_id location region h)
       <> Raise RangeCheckError).
Proof.
  intros check_range region location quiet.
  split; [|split; [|split; [|split]]].
  - intros v l h. apply sell_loop_swallow.
  - intros r l v pot h Htry Hv. simpl. rewrite Htry.
    apply Z.eqb_neq in Hv. now rewrite Hv.
  - intros l h. apply best_bid_loop_swallow.
  - intros r l h Htry. simpl. now rewrite Htry.
  - intros snapshot type_id h. split; [apply spread_return_swallow|].
    destruct (spread_return check_range snapshot type_id location region h)
      as [[sr|e|] h'] eqn:E; simpl; try discriminate.
    apply spread_return_raises in E. subst e. discriminate.
Qed.

Lemma range_failure_is_not_fatal_witness :
  sell_try example_check 10 60 0%nat 30 [] [citadel_bid; station_bid]
  = Raise RangeCheckError /\
  attempt_sell_type_list example_check 10 60 30 [0%nat; 1%nat]
                         [citadel_bid; station_bid]
  = attempt_sell_type_list example_check 10 60 30 [1%nat]
                           [citadel_bid; station_bid] /\
  bid_try example_check 10 60 0%nat [citadel_bid; station_bid]
  = Raise RangeCheckError /\
  best_bid_loop example_check 10 60 [0%nat; 1%nat] [citadel_bid; station_bid]
  = best_bid_loop example_check 10 60 [1%nat] [citadel_bid; station_bid].
Proof.
  pose proof (range_failure_is_not_fatal example_check 10 60)
    as (_ & Hsell & _ & Hbid & _).
  split; [reflexivity|]. split.
  - apply (Hsell 0%nat [1%nat] 30 [] [citadel_bid; station_bid]).
    + reflexivity.
    + lia.
  - split; [reflexivity|].
    apply (Hbid 0%nat [1%nat] [citadel_bid; station_bid]). reflexivity.
Defined.

(** ** The matcher on a list that cannot fill the volume *)

(** C9.  The order matcher does not undo what it consumed.  On a list that
    offers a positive volume smaller than the required one,
    [attempt_buy_type_list] returns the empty list and yet leaves an order
    of the list with less volume than it had; so does
    [attempt_sell_type_list]. *)
Theorem order_matcher_is_not_atomic :
  (exists (v : Z) (orders : list ref) (h : heap),
     0 < available h orders < v /\
     fst (attempt_buy_type_list v orders h) = [] /\
     exists r, r ∈ orders /\
       volume (deref (snd (attempt_buy_type_list v orders h)) r)
       < volume (deref h r)) /\
  (exists (check_range : Z -> Z -> Z -> string -> range_check)
          (region location v : Z) (orders : list ref) (h : heap),
     0 < available h orders < v /\
     fst (attempt_sell_type_list check_range region location v orders h)
     = [] /\
     exists r, r ∈ orders /\
       volume (deref (snd (attempt_sell_type_list check_range region location
                                                  v orders h)) r)
       < volume (deref h r)).
Proof.
  split.
  - exists 60, [0%nat], [ore_order]. split; [vm_compute; split; reflexivity|].
    split; [reflexivity|]. exists 0%nat. split; [apply list_elem_of_here|].
    vm_compute. reflexivity.
  - exists example_check, 10, 60, 60, [0%nat], [station_bid].
    split; [vm_compute; split; reflexivity|].
    split; [reflexivity|]. exists 0%nat. split; [apply list_elem_of_here|].
    vm_compute. reflexivity.
Qed.

(** The examples of the specification: the order of price 100 and volume 50
    fills a request for 50 and gives nothing for a request of 60, and the
    order is left without volume either way. *)
Example matcher_fills_fifty :
  attempt_buy_type_list 50 [0%nat] [ore_order]
  = ([mkRecord 100 50 true], [set_volume ore_order 0]).
Proof. reflexivity. Qed.

Example matcher_refuses_sixty :
  attempt_buy_type_list 60 [0%nat] [ore_order]
  = ([], [set_volume ore_order 0]).
Proof. reflexivity. Qed.

(** The material of the specification, best ask 105 and best bid 100: its
    spread return is 0.05; the bid of the citadel is passed over. *)
Example spread_of_example :
  fst (spread_return example_check example_snapshot 34 60 10 [])
  = Ok (mkSpread ((105 - 100) / 100) (Some 100%Q) (Some 105%Q)).
Proof. reflexivity. Qed.

(** ** The theorems at work on the example data *)

Lemma order_matcher_all_or_nothing_witness :
  (filled_volume (fst (attempt_buy_type_list 50 [0%nat] [ore_order]))
   == inject_Z 50)%Q /\
  0 < buy_remaining [0%nat] 60 [ore_order] /\
  available [ore_order] [0%nat] < 60 /\
  fst (attempt_buy_type_list 60 [0%nat] [ore_order]) = [] /\
  (filled_volume
     (fst (attempt_sell_type_list example_check 10 60 50 [0%nat]
                                  [station_bid]))
   == inject_Z 50)%Q /\
  0 < sell_remaining example_check 10 60 [0%nat] 60 [station_bid] /\
  fst (attempt_sell_type_list example_check 10 60 60 [0%nat] [station_bid])
  = [].
Proof.
  destruct (order_matcher_all_or_nothing example_check 10 60 50 [0%nat]
              [ore_order]) as (Hbuy & _).
  destruct (order_matcher_all_or_nothing example_check 10 60 60 [0%nat]
              [ore_order]) as (_ & Hleft & Hshort & _).
  destruct (order_matcher_all_or_nothing example_check 10 60 50 [0%nat]
              [station_bid]) as (_ & _ & _ & Hsell & _).
  destruct (order_matcher_all_or_nothing example_check 10 60 60 [0%nat]
              [station_bid]) as (_ & _ & _ & _ & Hsell0 & _).
  split; [apply Hbuy; vm_compute; discriminate|].
  split; [vm_compute; reflexivity|].
  split; [vm_compute; reflexivity|].
  split; [apply Hshort; vm_compute; reflexivity|].
  split; [apply Hsell; vm_compute; discriminate|].
  split; [vm_compute; reflexivity|].
  apply Hsell0; vm_compute; reflexivity.
Defined.

Lemma opportunity_record_invariant_witness :
  (exists o h',
     attempt_opportunity example_check example_snapshot 1 10 60 example_types
                         (1 # 100) (1 # 2) (4 # 100) (25 # 1000)
                         example_summary (1 # 100) 251 []
     = (Ok (Some o), h') /\
     profit o = (gross o - cost o)%Q /\
     margin o = np_div (profit o) (cost o) /\
     (cost o < gross o)%Q) /\
  fst (attempt_opportunity example_check example_snapshot 1 10 60
                           example_types (1 # 100) (1 # 2) (4 # 100)
                           (25 # 1000) example_summary (1 # 100) 251 [])
  <> OutOfFuel.
Proof.
  destruct (opportunity_record_invariant example_check example_snapshot 1 10
              60 example_types (1 # 100) (1 # 2) (4 # 100) (25 # 1000)
              example_summary (1 # 100)) as (Hrecord & _ & Hends).
  split.
  - eexists. eexists. split; [vm_compute; reflexivity|].
    eapply (Hrecord 251%nat []). vm_compute. reflexivity.
  - apply (Hends example_source 251%nat []).
    + reflexivity.
    + reflexivity.
    + vm_compute. lia.
Defined.

Lemma never_commits_unprofitable_round_witness :
  exists b s g c bud h',
    attempt_round example_check 10 60 (1 # 100) (1 # 2) (4 # 100) (25 # 1000)
                  (5 # 193) example_source 100 [0%nat] [(34, [1%nat])]
                  example_spreads [(34, 1000%Q)] example_store
    = (Ok (Profitable b s g c bud), h') /\ (c < g)%Q.
Proof.
  destruct (never_commits_unprofitable_round example_check 10 60 (1 # 100)
              (1 # 2) (4 # 100) (25 # 1000) (5 # 193) example_source 100
              [0%nat] [(34, [1%nat])] example_spreads) as (Hprofit & _).
  do 6 eexists. split; [vm_compute; reflexivity|].
  eapply (Hprofit [(34, 1000%Q)] example_store). vm_compute. reflexivity.
Defined.

Lemma limit_mode_iff_spread_exceeds_threshold_witness :
  exists sold budgets',
    sell_material example_check 10 60 (1 # 2)
                  (limit_threshold (1 # 100) (25 # 1000)) example_source
                  [(34, [1%nat])] example_spreads 34 [(34, 1000%Q)]
                  example_store
    = (Ok (true, sold, budgets'), example_store) /\
    Forall (fun x => market x = false) sold.
Proof.
  destruct (limit_mode_iff_spread_exceeds_threshold example_check)
    as (Hmode & _).
  do 2 eexists. split; [vm_compute; reflexivity|].
  refine (proj1 (proj2
    (Hmode 10 60 (1 # 2) (limit_threshold (1 # 100) (25 # 1000))
           example_source [(34, [1%nat])] example_spreads 34 [(34, 1000%Q)]
           (mkSpread (5 # 100) (Some 100%Q) (Some 105%Q)) example_store true
           _ _ example_store eq_refl _))).
  vm_compute. reflexivity.
Defined.

Lemma dedup_collapses_runs_witness :
  clean_opportunities scanned_opportunities
  = Ok (dedup_after_previous ∅ scanned_opportunities).
Proof.
  apply (dedup_collapses_runs scanned_opportunities). vm_compute. reflexivity.
Defined.

Lemma zero_cost_is_not_guarded_witness :
  exists o, report free_ore_totals = Some o /\ margin o = DivByZero.
Proof.
  destruct zero_cost_is_not_guarded as (Hmargin & _).
  eexists. split; [vm_compute; reflexivity|].
  apply (Hmargin free_ore_totals); vm_compute; reflexivity.
Defined.

Lemma attempt_fails_without_summary_row_witness :
  exists h',
    attempt_opportunity example_check example_snapshot 1 10 60 example_types
                        (1 # 100) (1 # 2) (4 # 100) (25 # 1000) []
                        (1 # 100) 251 []
    = (Raise IndexError, h').
Proof.
  assert (Hmissing :
    exists mat, mat ∈ values (material_map example_source) /\
      filter (fun r => summary_type_id r = materialTypeID mat)
             (@nil SummaryRow) = []).
  { exists (mkMaterial 34 4). split; [apply list_elem_of_here | reflexivity]. }
  destruct (attempt_fails_without_summary_row example_check example_snapshot
              1 10 60 example_types (1 # 100) (1 # 2) (4 # 100) (25 # 1000)
              [] (1 # 100) example_source 251 [] eq_refl Hmissing)
    as (_ & Hfirst).
  apply (Hfirst (mkMaterial 34 4) []).
  - reflexivity.
  - reflexivity.
  - vm_compute. discriminate.
Defined.

(** ** Where the code departs from the specification *)

(** Of three opportunities five minutes apart the deduplicator keeps the
    first only.  The third is ten minutes after the one retained before it,
    so the rule of the specification keeps it.  And on a list that is not
    in time order it retains two opportunities three minutes apart. *)
Lemma dedup_is_not_against_last_retained :
  clean_opportunities three_in_a_row
  = Ok [mkFound example_opportunity 0 "Veldspar"] /\
  dedup_after_retained ∅ three_in_a_row
  = [mkFound example_opportunity 0 "Veldspar";
     mkFound example_opportunity 600 "Veldspar"] /\
  clean_opportunities three_in_a_row
  <> Ok (dedup_after_retained ∅ three_in_a_row) /\
  clean_opportunities out_of_order
  = Ok [mkFound example_opportunity 600 "Veldspar";
        mkFound example_opportunity 420 "Veldspar"].
Proof.
  split; [vm_compute; reflexivity|].
  split; [vm_compute; reflexivity|].
  split; [vm_compute; discriminate|].
  vm_compute. reflexivity.
Qed.

(** With a tax rate of 0.01 and a broker fee of 0.025 the threshold is
    5/193: it is more than 0.0003 above 0.0256 and does not round to it. *)
Lemma limit_threshold_is_not_0_0256 :
  (limit_threshold (1 # 100) (25 # 1000) == 5 # 193)%Q /\
  ((256 # 10000) + (3 # 10000) < limit_threshold (1 # 100) (25 # 1000))%Q /\
  ~ ((256 # 10000) - (5 # 100000) <= limit_threshold (1 # 100) (25 # 1000)
     /\ limit_threshold (1 # 100) (25 # 1000)
        < (256 # 10000) + (5 # 100000))%Q.
Proof.
  split; [reflexivity|]. split; [reflexivity|].
  intros [_ H]. revert H. apply Qle_not_lt. discriminate.
Qed.

(** Ore bought for nothing at a station without tax: the attempt returns an
    opportunity of cost zero whose margin is the outcome of a division by
    zero; and the aggregate return of a day without opportunities divides
    zero by zero. *)
Lemma zero_cost_divides_by_zero :
  (exists o h',
     attempt_opportunity example_check free_ore_snapshot 1 10 60
                         example_types (1 # 100) (1 # 2) 0 (25 # 1000)
                         example_summary (1 # 100) 251 []
     = (Ok (Some o), h') /\
     (cost o == 0)%Q /\ margin o = DivByZero) /\
  (total_cost [] == 0)%Q /\
  total_return [] = DivByZero.
Proof.
  split.
  - eexists. eexists. split; [vm_compute; reflexivity|].
    split; vm_compute; reflexivity.
  - split; vm_compute; reflexivity.
Qed.

(** ** Snapshot extractor *)

Lemma sell_rows_filter (snapshot : DataFrame) (t s : Z) :
  sell_rows snapshot t s
  = filter (fun o => order_type_id o = t /\ location_id o = s /\
                     buy o = false) snapshot.
Proof.
  unfold sell_rows. rewrite !list_filter_filter.
  apply filter_agree. tauto.
Qed.

Lemma buy_rows_filter (snapshot : DataFrame) (t : Z) :
  buy_rows snapshot t
  = filter (fun o => order_type_id o = t /\ buy o = true) snapshot.
Proof.
  unfold buy_rows. rewrite list_filter_filter.
  apply filter_agree. tauto.
Qed.

(** X11.  The extractors return new objects and read the snapshot only.
    The list of [extract_sell_orders] denotes, in the order of the
    snapshot, exactly the rows of the type that are sell orders at the
    station; the list of [extract_buy_orders] exactly the rows of the type
    that are buy orders, wherever they are.  The objects are added after
    the ones that exist, which are left as they are, and no object is
    listed twice. *)
Theorem extracted_orders_are_fresh_copies :
  forall (snapshot : DataFrame) (type_id station_id : Z) (h : heap),
    let sells := extract_sell_orders snapshot type_id station_id h in
    let buys := extract_buy_orders snapshot type_id h in
    let asks :=
      filter (fun o => order_type_id o = type_id /\
                       location_id o = station_id /\ buy o = false)
             snapshot in
    let bids :=
      filter (fun o => order_type_id o = type_id /\ buy o = true) snapshot in
    snd sells = h ++ asks /\ map (deref (snd sells)) (fst sells) = asks /\
    snd buys = h ++ bids /\ map (deref (snd buys)) (fst buys) = bids /\
    NoDup (fst sells) /\ NoDup (fst buys) /\
    Forall (fun r => (length h <= r)%nat) (fst sells ++ fst buys).
Proof.
  intros snapshot t s h. cbv zeta.
  rewrite <- sell_rows_filter, <- buy_rows_filter.
  unfold extract_sell_orders, extract_buy_orders, iterrows. cbn [fst snd].
  fold (sell_rows snapshot t s). fold (buy_rows snapshot t).
  repeat split; try apply map_deref_fresh; try apply NoDup_seq.
  apply Forall_app. split; apply Forall_forall; intros r Hr;
    apply elem_of_seq in Hr; lia.
Qed.


(** ** Order matcher: both sides *)

(** The buy side matcher does what the sell side matcher does when every
    order is in range. *)
Lemma buy_loop_as_sell_loop (l : list ref) :
  forall (v : Z) (pot : list order_record) (h : heap),
    buy_loop l v pot h = sell_loop everywhere 0 0 l v pot h.
Proof.
  induction l as [|r l IH]; intros v pot h; [reflexivity|].
  simpl. unfold sell_try, everywhere.
  destruct ((min_volume (deref h r) <=? v) && (0 <? volume (deref h r)));
    simpl.
  - destruct (v - Z.min v (volume (deref h r)) =? 0); [reflexivity|].
    apply IH.
  - destruct (v =? 0); [reflexivity | apply IH].
Qed.

Lemma fills_of_matcher (pot fills result : list order_record)
    (P : list order_record -> Prop) :
  result = [] \/ result = [] ++ fills -> P [] -> P fills -> P result.
Proof. intros [->| ->]; auto. Qed.

(** X7.  The fills follow the book.  The prices of the records either
    matcher returns are prices of the orders of the list, in the order of
    the list: on a book sorted by price the best prices are taken first.
    Every record is a market order, and when the requested volume is
    positive every record has a positive volume. *)
Theorem matcher_fills_follow_book :
  forall (check_range : Z -> Z -> Z -> string -> range_check)
         (region location required : Z) (orders : list ref) (h : heap),
    let bought := fst (attempt_buy_type_list required orders h) in
    let sold :=
      fst (attempt_sell_type_list check_range region location required
                                  orders h) in
    let book := map (fun r => price (deref h r)) orders in
    map rec_price bought `sublist_of` book /\
    map rec_price sold `sublist_of` book /\
    Forall (fun x => market x = true) (bought ++ sold) /\
    (0 < required ->
     Forall (fun x => (0 < rec_volume x)%Q) (bought ++ sold)).
Proof.
  intros check_range region location v l h bought sold book.
  unfold attempt_buy_type_list, attempt_sell_type_list in *.
  destruct (sell_loop_fills everywhere 0 0 l v [] h)
    as (fb & Hb & Hbsub & Hbm & Hbpos).
  destruct (sell_loop_fills check_range region location l v [] h)
    as (fs & Hs & Hssub & Hsm & Hspos).
  rewrite <- buy_loop_as_sell_loop in Hb. fold bought in Hb.
  fold sold in Hs. fold book in Hbsub, Hssub.
  split; [|split; [|split]].
  - apply (fills_of_matcher [] fb bought
             (fun l => map rec_price l `sublist_of` book) Hb);
      [apply sublist_nil_l | exact Hbsub].
  - apply (fills_of_matcher [] fs sold
             (fun l => map rec_price l `sublist_of` book) Hs);
      [apply sublist_nil_l | exact Hssub].
  - apply Forall_app. split.
    + now apply (fills_of_matcher [] fb bought
                   (Forall (fun x => market x = true)) Hb).
    + now apply (fills_of_matcher [] fs sold
                   (Forall (fun x => market x = true)) Hs).
  - intros Hv. apply Forall_app. split.
    + apply (fills_of_matcher [] fb bought
               (Forall (fun x => (0 < rec_volume x)%Q)) Hb); auto.
    + apply (fills_of_matcher [] fs sold
               (Forall (fun x => (0 < rec_volume x)%Q)) Hs); auto.
Qed.

(** X8.  A matcher asked for a volume that is not negative only lowers
    volumes.  Whether it fills the request or not, every object of the store
    is afterwards what it was before but for its volume, which is not
    larger and, unless it already was, not negative; objects that are not
    in the order list are left as they are; and no object is added or
    removed. *)
Theorem matcher_only_lowers_volumes :
  forall (check_range : Z -> Z -> Z -> string -> range_check)
         (region location required : Z) (orders : list ref) (h : heap)
         (r : ref),
    0 <= required ->
    let after_buy := snd (attempt_buy_type_list required orders h) in
    let after_sell :=
      snd (attempt_sell_type_list check_range region location required
                                  orders h) in
    lowered (deref h r) (deref after_buy r) /\
    lowered (deref h r) (deref after_sell r) /\
    (r ∉ orders ->
     deref after_buy r = deref h r /\ deref after_sell r = deref h r) /\
    length after_buy = length h /\ length after_sell = length h.
Proof.
  intros check_range region location v l h r Hv.
  unfold attempt_buy_type_list, attempt_sell_type_list. cbv zeta.
  split; [|split; [|split; [|split]]].
  - rewrite buy_loop_as_sell_loop. now apply sell_loop_lowers.
  - now apply sell_loop_lowers.
  - intros Hr. split; [now apply buy_loop_other | now apply sell_loop_other].
  - apply buy_loop_length.
  - apply sell_loop_length.
Qed.

(** X9.  A filled request takes from the book what it fills and no more:
    when the orders of the list are distinct objects and the requested
    volume is positive, a matcher that returns fills leaves the orders of
    the list offering exactly the requested volume less than before. *)
Theorem matcher_takes_what_it_fills :
  forall (check_range : Z -> Z -> Z -> string -> range_check)
         (region location required : Z) (orders : list ref) (h : heap),
    NoDup orders -> 0 < required ->
    (fst (attempt_buy_type_list required orders h) <> [] ->
     available (snd (attempt_buy_type_list required orders h)) orders
     = available h orders - required) /\
    (fst (attempt_sell_type_list check_range region location required
                                 orders h) <> [] ->
     available (snd (attempt_sell_type_list check_range region location
                                            required orders h)) orders
     = available h orders - required).
Proof.
  intros check_range region location v l h Hnd Hv.
  unfold attempt_buy_type_list, attempt_sell_type_list.
  split; intros H.
  - now apply buy_loop_available.
  - now apply sell_loop_available.
Qed.

(** X10.  Orders that cannot take part in a match are never touched: an
    order whose minimum volume is above the requested volume, or that has
    no volume left, is left as it is by both matchers, and so is, on the
    sell side, an order whose range check does not answer that the seller
    is in range (it answers no, or it raises). *)
Theorem matcher_skips_orders_out_of_reach :
  forall (check_range : Z -> Z -> Z -> string -> range_check)
         (region location required : Z) (orders : list ref) (h : heap)
         (r : ref),
    0 <= required ->
    (required < min_volume (deref h r) \/ volume (deref h r) <= 0 ->
     deref (snd (attempt_buy_type_list required orders h)) r = deref h r) /\
    (out_of_reach check_range region location required (deref h r) ->
     deref (snd (attempt_sell_type_list check_range region location required
                                        orders h)) r
     = deref h r).
Proof.
  intros check_range region location v l h r Hv.
  unfold attempt_buy_type_list, attempt_sell_type_list. split; intros H.
  - rewrite buy_loop_as_sell_loop.
    apply (sell_loop_skips everywhere 0 0 l v [] h r v); try lia.
    unfold out_of_reach. tauto.
  - apply (sell_loop_skips check_range region location l v [] h r v);
      try lia. exact H.
Qed.

(** ** Opportunity attempter: the report *)

Lemma proceeds_compress (tax fee : Q) (flag ascending : bool)
    (l : list order_record) :
  Forall (fun x => market x = flag) l ->
  (proceeds tax fee (compress_order_list l ascending)
   == proceeds tax fee l)%Q.
Proof.
  intros Hf. destruct l as [|x l]; [reflexivity|].
  destruct (compress_order_list_sorted_lemma (x :: l) ascending)
    as (_ & Hflag & _).
  rewrite (forallb_market_const flag) in Hflag by (assumption || discriminate).
  rewrite (proceeds_flagged tax fee flag _ Hflag).
  rewrite (proceeds_flagged tax fee flag _ Hf).
  destruct (compress_order_list_preserves_totals_lemma (x :: l) ascending)
    as [_ Hv].
  now rewrite Hv.
Qed.

Lemma compress_flags (flag ascending : bool) (l : list order_record) :
  Forall (fun x => market x = flag) l ->
  Forall (fun x => market x = flag) (compress_order_list l ascending).
Proof.
  intros Hf. destruct l as [|x l]; [constructor|].
  destruct (compress_order_list_sorted_lemma (x :: l) ascending)
    as (_ & Hflag & _).
  now rewrite (forallb_market_const flag) in Hflag
    by (assumption || discriminate).
Qed.

Lemma report_sales (tax fee threshold : Q) (spreads : dict spread)
    (d : dict (list order_record)) :
  flagged threshold spreads d ->
  let reported :=
    map (fun kv => (fst kv, compress_order_list (snd kv) false)) d in
  flagged threshold spreads reported /\
  (sales_value reported == sales_value d)%Q /\
  (sales_proceeds tax fee reported == sales_proceeds tax fee d)%Q.
Proof.
  unfold flagged, sales_value, sales_proceeds, dict_sum.
  induction 1 as [|[k v] d Hv _ (IH1 & IH2 & IH3)]; simpl in *.
  - repeat split; try constructor.
  - split; [constructor; [now apply compress_flags | exact IH1]|].
    destruct (compress_order_list_preserves_totals_lemma v false)
      as [_ Hval].
    rewrite IH2, IH3, Hval, (proceeds_compress tax fee _ false v Hv).
    split; reflexivity.
Qed.


Lemma report_get (d : dict (list order_record)) (m : Z)
    (recs : list order_record) :
  dict_get (map (fun kv => (fst kv, compress_order_list (snd kv) false)) d) m
  = Some recs ->
  exists raw, dict_get d m = Some raw /\
              recs = compress_order_list raw false.
Proof.
  induction d as [|[k v] d IH]; simpl; [discriminate|].
  destruct (k =? m); [|exact IH].
  intros H. injection H as <-. now exists v.
Qed.

Lemma report_keys (d : dict (list order_record)) :
  keys (map (fun kv => (fst kv, compress_order_list (snd kv) false)) d)
  = keys d.
Proof.
  unfold keys. rewrite map_map. reflexivity.
Qed.

(** What a run that reports an opportunity has recorded. *)
Lemma reported_volumes
    (check_range : Z -> Z -> Z -> string -> range_check)
    (snapshot : DataFrame) (type_id region_id station_id : Z)
    (type_map : dict SourceType)
    (tax_rate efficiency station_tax broker_fee : Q)
    (market_summary : list SummaryRow) (volume_limit : Q)
    (fuel : nat) (h : heap) (o : Opportunity) (h' : heap) :
  attempt_opportunity check_range snapshot type_id region_id station_id
                      type_map tax_rate efficiency station_tax broker_fee
                      market_summary volume_limit fuel h
  = (Ok (Some o), h') ->
  exists (source : SourceType) (n : nat),
    dict_get type_map type_id = Some source /\ (0 < n)%nat /\
    (filled_volume (buy_orders o)
     == inject_Z (Z.of_nat n * portionSize source))%Q /\
    (0 < portionSize source ->
     Z.of_nat n * portionSize source
     <= offered (sell_rows snapshot type_id station_id)) /\
    sell_orders o <> [] /\
    (forall m, m ∈ keys (sell_orders o) <->
               exists mat, mat ∈ values (material_map source) /\
                           materialTypeID mat = m) /\
    (forall m recs,
       dict_get (sell_orders o) m = Some recs ->
       (filled_volume recs
        <= inject_Z (Z.of_nat n * sell_volume_of source efficiency m))%Q /\
       (Exists (fun x => market x = true) recs ->
        (filled_volume recs
         == inject_Z (Z.of_nat n * sell_volume_of source efficiency m))%Q) /\
       (Exists (fun x => market x = false) recs ->
        exists row,
          head (filter (fun r => summary_type_id r = m) market_summary)
          = Some row /\
          (filled_volume recs
           <= inject_Z (summary_volume row) * volume_limit)%Q)).
Proof.
  intros H. unfold attempt_opportunity in H.
  apply bind_ok in H as (l & h1 & Hloop & H). apply ret_ok in H as [H _].
  apply attempt_loop_volumes in Hloop
    as (source & spreads & n & Hsource & Hfl & Hbuy & Hzero & Hsome & Hmats
        & Hmat & Hsupply).
  unfold report in H.
  destruct (Qltb (cost_total l) (gross_total l)) eqn:Hprofit;
    [|discriminate H].
  injection H as <-. cbn [buy_orders sell_orders].
  assert (Hn : (0 < n)%nat).
  { destruct n as [|n]; [|lia]. destruct (Hzero eq_refl) as [Hg Hc].
    rewrite Hg, Hc in Hprofit. discriminate Hprofit. }
  exists source, n. split; [exact Hsource|]. split; [exact Hn|].
  destruct (compress_order_list_preserves_totals_lemma (all_buy_orders l)
              true) as [Hvb _].
  split; [rewrite Hvb, Hbuy, inject_Z_mult; reflexivity|].
  split; [exact Hsupply|]. split.
  { intros Hnil. apply Hsome; [lia|].
    now destruct (all_sell_orders l). }
  split; [intros m; rewrite report_keys; apply Hmats|].
  intros m recs Hrecs. apply report_get in Hrecs as (raw & Hraw & ->).
  destruct (compress_order_list_preserves_totals_lemma raw false)
    as [Hv _].
  pose proof (compress_flags _ false _ (flagged_get _ _ _ _ _ Hfl Hraw))
    as Hflags.
  assert (Hm : m ∈ keys (all_sell_orders l))
    by (apply dict_get_keys; eauto).
  specialize (Hmat m Hm). cbv zeta in Hmat.
  unfold sold_volume in Hmat. rewrite Hraw in Hmat.
  rewrite Hv, inject_Z_mult. rewrite Forall_forall in Hflags.
  destruct (sells_with_limit _ spreads m).
  - destruct Hmat as [Hle Hcap]. split; [exact Hle|]. split.
    + intros Hex. apply Exists_exists in Hex as (x & Hx & Hmarket).
      rewrite (Hflags x Hx) in Hmarket. discriminate Hmarket.
    + intros _. destruct Hcap as (cap & Hcap & Hle'); [lia|].
      unfold volume_cap in Hcap.
      destruct (head (filter _ market_summary)) as [row|];
        [|discriminate Hcap].
      injection Hcap as <-. exists row. split; [reflexivity|].
      now rewrite Hv.
  - split; [rewrite Hmat; apply Qle_refl|]. split; [now intros _|].
    intros Hex. apply Exists_exists in Hex as (x & Hx & Hmarket).
    rewrite (Hflags x Hx) in Hmarket. discriminate Hmarket.
Qed.


(** X15.  Limit orders stay within the volume limit.  In a report, the
    limit orders listed for a material add up to no more than
    [volume_limit] times the volume of the first row of the material in the
    market summary. *)
Theorem limit_orders_stay_within_volume_limit :
  forall (check_range : Z -> Z -> Z -> string -> range_check)
         (snapshot : DataFrame) (type_id region_id station_id : Z)
         (type_map : dict SourceType)
         (tax_rate efficiency station_tax broker_fee : Q)
         (market_summary : list SummaryRow) (volume_limit : Q)
         (fuel : nat) (h : heap) (o : Opportunity) (h' : heap)
         (m : Z) (recs : list order_record),
    attempt_opportunity check_range snapshot type_id region_id station_id
                        type_map tax_rate efficiency station_tax broker_fee
                        market_summary volume_limit fuel h
    = (Ok (Some o), h') ->
    dict_get (sell_orders o) m = Some recs ->
    Exists (fun x => market x = false) recs ->
    exists row,
      head (filter (fun r => summary_type_id r = m) market_summary)
      = Some row /\
      (filled_volume recs <= inject_Z (summary_volume row) * volume_limit)%Q.
Proof.
  intros check_range snapshot type_id region_id station_id type_map tax_rate
    efficiency station_tax broker_fee market_summary volume_limit fuel h o
    h' m recs H Hrecs Hlimit.
  apply reported_volumes in H
    as (source & n & _ & _ & _ & _ & _ & _ & Hsales).
  now apply (Hsales m recs).
Qed.

(** X18.  No opportunity without supply or without materials.  An attempt
    that returns for a source type returns [None] when the type refines to
    no material, and when its portion size is positive and the sell orders
    of the snapshot for the type at the station offer less than one
    portion. *)
Theorem no_opportunity_without_supply_or_materials :
  forall (check_range : Z -> Z -> Z -> string -> range_check)
         (snapshot : DataFrame) (type_id region_id station_id : Z)
         (type_map : dict SourceType)
         (tax_rate efficiency station_tax broker_fee : Q)
         (market_summary : list SummaryRow) (volume_limit : Q)
         (fuel : nat) (h : heap) (r : option Opportunity) (h' : heap)
         (source : SourceType),
    attempt_opportunity check_range snapshot type_id region_id station_id
                        type_map tax_rate efficiency station_tax broker_fee
                        market_summary volume_limit fuel h
    = (Ok r, h') ->
    dict_get type_map type_id = Some source ->
    (material_map source = [] -> r = None) /\
    (0 < portionSize source ->
     offered (sell_rows snapshot type_id station_id) < portionSize source ->
     r = None).
Proof.
  intros check_range snapshot type_id region_id station_id type_map tax_rate
    efficiency station_tax broker_fee market_summary volume_limit fuel h r
    h' source H Hsource.
  destruct r as [o|]; [|split; reflexivity].
  apply reported_volumes in H
    as (source' & n & Hsource' & Hn & _ & Hsupply & Hsome & Hmats & _).
  rewrite Hsource in Hsource'. injection Hsource' as <-.
  split.
  - intros Hnone. exfalso. destruct (sell_orders o) as [|[m recs] rest];
      [now contradiction Hsome|].
    destruct (proj1 (Hmats m)) as (mat & Hmat & _);
      [apply list_elem_of_here|].
    rewrite Hnone in Hmat. now apply elem_of_nil in Hmat.
  - intros Hpos Hshort. specialize (Hsupply Hpos). nia.
Qed.

Lemma limit_threshold_not_negative (tax_rate broker_fee : Q) :
  (0 <= broker_fee)%Q -> (tax_rate + broker_fee < 1)%Q ->
  (0 <= limit_threshold tax_rate broker_fee)%Q.
Proof.
  intros Hfee Hsum. unfold limit_threshold, Qdiv.
  apply Qmult_le_0_compat; [exact Hfee|].
  apply Qlt_le_weak, Qinv_lt_0_compat. lra.
Qed.

Section WellFormed.

Variable check_range : Z -> Z -> Z -> string -> range_check.
Variable snapshot : DataFrame.
Variables type_id region_id station_id : Z.
Variable type_map : dict SourceType.
Variables tax_rate efficiency station_tax broker_fee : Q.
Variable market_summary : list SummaryRow.
Variable volume_limit : Q.
Variable source : SourceType.

Hypothesis fee_not_negative : (0 <= broker_fee)%Q.
Hypothesis rates_below_one : (tax_rate + broker_fee < 1)%Q.
Hypothesis type_known : dict_get type_map type_id = Some source.
Hypothesis materials_known :
  forall mat, mat ∈ values (material_map source) ->
    materialTypeID mat ∈ keys (material_map source) /\
    exists row, row ∈ market_summary /\
                summary_type_id row = materialTypeID mat.
Hypothesis bids_priced :
  forall o, o ∈ snapshot -> buy o = true -> ~ (price o == 0)%Q.

Lemma attempt_loop_safe (fuel : nat) :
  returns (fun _ => True)
    (attempt_loop check_range snapshot type_id region_id station_id
                  type_map tax_rate efficiency station_tax broker_fee
                  market_summary volume_limit fuel).
Proof.
  apply (attempt_loop_returns check_range snapshot type_id region_id
           station_id type_map tax_rate efficiency station_tax broker_fee
           market_summary volume_limit source bids_priced).
  - now apply limit_threshold_not_negative.
  - intros Hzero. lra.
  - exact type_known.
  - intros mat Hmat.
    destruct (materials_known mat Hmat) as (Hkey & row & Hrow & Hty).
    split; [now apply dict_get_keys|].
    now apply (head_filter_some _ _ row).
Qed.

Lemma attempt_opportunity_runs (fuel : nat) :
  0 < portionSize source ->
  (enough_fuel snapshot type_id station_id <= fuel)%nat ->
  completes
    (attempt_opportunity check_range snapshot type_id region_id station_id
                         type_map tax_rate efficiency station_tax broker_fee
                         market_summary volume_limit fuel).
Proof.
  intros Hportion Hfuel h.
  pose proof (attempt_loop_safe fuel h) as Hloop.
  pose proof (attempt_loop_finishes check_range snapshot type_id region_id
                station_id type_map tax_rate efficiency station_tax
                broker_fee market_summary volume_limit fuel source type_known
                Hportion Hfuel h) as Hfin.
  unfold attempt_opportunity, bind.
  destruct (attempt_loop _ _ _ _ _ _ _ _ _ _ _ _ fuel h) as [[l|e'|] h1];
    simpl in *; try easy.
  now exists (report l), h1.
Qed.

End WellFormed.


(** ** Opportunity scanner: the order of the list *)

Lemma insert_key_elem (k x : Z) (ks : list Z) :
  x ∈ insert_key k ks <-> x = k \/ x ∈ ks.
Proof.
  induction ks as [|k' ks IH]; simpl.
  - rewrite list_elem_of_singleton, elem_of_nil. tauto.
  - destruct (k <? k') eqn:Hlt; [rewrite !elem_of_cons; tauto|].
    destruct (k =? k') eqn:Heq.
    + apply Z.eqb_eq in Heq. subst k'. rewrite elem_of_cons. tauto.
    + rewrite !elem_of_cons, IH. tauto.
Qed.

Lemma insert_key_sorted (k : Z) (ks : list Z) :
  StronglySorted Z.lt ks -> StronglySorted Z.lt (insert_key k ks).
Proof.
  induction 1 as [|k' ks Hs IH Hk]; simpl.
  - repeat constructor.
  - destruct (k <? k') eqn:Hlt.
    + apply Z.ltb_lt in Hlt. constructor; [now constructor|].
      constructor; [exact Hlt|].
      eapply Forall_impl; [exact Hk|]. intros x Hx. simpl in Hx. lia.
    + destruct (k =? k') eqn:Heq; [now constructor|].
      apply Z.ltb_ge in Hlt. apply Z.eqb_neq in Heq.
      constructor; [exact IH|]. apply Forall_forall. intros x Hx.
      apply insert_key_elem in Hx as [->|Hx]; [lia|].
      rewrite Forall_forall in Hk. now apply Hk.
Qed.

(** The snapshots of [groupby] come in strictly increasing time order,
    one for each time of the book, with the rows of that time. *)
Lemma groupby_keys (order_book : list (Z * Order)) :
  StronglySorted Z.lt (map fst (groupby order_book)) /\
  (forall t, t ∈ map fst (groupby order_book) <-> t ∈ map fst order_book) /\
  (forall g, g ∈ groupby order_book ->
     snd g = map snd (filter (fun r => fst r = fst g) order_book)).
Proof.
  unfold groupby. rewrite map_map. simpl. rewrite map_id.
  split; [|split].
  - induction (map fst order_book) as [|k ks IH]; simpl; [constructor|].
    now apply insert_key_sorted.
  - intros t. induction (map fst order_book) as [|k ks IH]; simpl;
      [reflexivity|].
    rewrite insert_key_elem, elem_of_cons, IH. reflexivity.
  - intros g Hg. apply list_elem_of_fmap in Hg as (k & -> & _). reflexivity.
Qed.

Lemma StronglySorted_append {A : Type} (R : A -> A -> Prop) (a b : list A) :
  StronglySorted R a -> StronglySorted R b ->
  (forall x y, x ∈ a -> y ∈ b -> R x y) ->
  StronglySorted R (a ++ b).
Proof.
  intros Ha Hb Hab. induction Ha as [|x a Ha IH Hx]; simpl; [exact Hb|].
  constructor.
  - apply IH. intros x' y Hx' Hy. apply Hab; [|exact Hy].
    now apply list_elem_of_further.
  - apply Forall_app. split; [exact Hx|]. apply Forall_forall.
    intros y Hy. apply Hab; [apply list_elem_of_here | exact Hy].
Qed.

Lemma sorted_increasing (times : list Z) :
  StronglySorted Z.lt times -> increasing times = true.
Proof.
  induction 1 as [|x rest Hs IH Hx]; [reflexivity|].
  destruct rest as [|y rest]; [reflexivity|].
  change (increasing (x :: y :: rest))
    with ((x <? y) && increasing (y :: rest)).
  rewrite IH, andb_true_r. apply Z.ltb_lt.
  now apply Forall_cons in Hx as [Hx _].
Qed.

Lemma sorted_increasing_per_type (opps : list found) :
  (forall ty, StronglySorted Z.lt (times_of ty opps)) ->
  increasing_per_type opps = true.
Proof.
  intros H. unfold increasing_per_type. apply forallb_forall.
  intros ty _. apply sorted_increasing, H.
Qed.

(** The times of one type among the entries of one snapshot. *)
Lemma times_of_entries (ty : string) (t : Z) (l : list found) :
  Forall (fun f => time f = t) l -> NoDup (map type l) ->
  times_of ty l = [] \/ times_of ty l = [t].
Proof.
  induction 1 as [|f l Hf _ IH]; simpl; intros Hnd; [now left|].
  apply NoDup_cons in Hnd as [Hout Hnd].
  destruct (decide (type f = ty)) as [<-|Hne].
  - right. rewrite times_of_cons_same, (times_of_absent _ l Hout).
    now rewrite Hf.
  - rewrite times_of_cons_other by assumption. now apply IH.
Qed.

Section ListsOfSnapshots.

Variable entries : Z * DataFrame -> list found.
Variable names : list string.
Hypothesis entries_time :
  forall g, Forall (fun f => time f = fst g) (entries g).
Hypothesis entries_type :
  forall g, map type (entries g) `sublist_of` names.

Lemma scanned_from (groups : list (Z * DataFrame)) (f : found) :
  f ∈ concat (map entries groups) ->
  time f ∈ map fst groups /\ type f ∈ names.
Proof.
  induction groups as [|g groups IH]; simpl.
  - intros H. now apply elem_of_nil in H.
  - rewrite elem_of_app, elem_of_cons. intros [H|H].
    + pose proof (entries_time g) as Ht. rewrite Forall_forall in Ht.
      split; [left; now apply Ht|].
      apply (elem_of_sublist (map type (entries g)));
        [|apply entries_type].
      apply list_elem_of_fmap. exists f. split; [reflexivity | exact H].
    + apply IH in H. tauto.
Qed.

Lemma scanned_in_time_order (groups : list (Z * DataFrame)) :
  StronglySorted Z.lt (map fst groups) ->
  StronglySorted Z.le (map time (concat (map entries groups))).
Proof.
  induction groups as [|g groups IH]; simpl; intros Hs; [constructor|].
  apply StronglySorted_inv in Hs as [Hs Hg].
  rewrite map_app. apply StronglySorted_append; [|now apply IH|].
  - pose proof (entries_time g) as Ht.
    induction Ht as [|f l Hf Hl IHl]; simpl; constructor; [exact IHl|].
    apply Forall_map. eapply Forall_impl; [exact Hl|].
    intros f' Hf'. simpl in *. lia.
  - intros x y Hx Hy.
    apply list_elem_of_fmap in Hx as (fx & -> & Hx).
    apply list_elem_of_fmap in Hy as (fy & -> & Hy).
    pose proof (entries_time g) as Ht. rewrite Forall_forall in Ht.
    rewrite (Ht fx Hx). apply scanned_from in Hy as [Hy _].
    rewrite Forall_forall in Hg. specialize (Hg _ Hy). lia.
Qed.

Lemma scanned_per_type (groups : list (Z * DataFrame)) (ty : string) :
  NoDup names -> StronglySorted Z.lt (map fst groups) ->
  StronglySorted Z.lt (times_of ty (concat (map entries groups))).
Proof.
  intros Hnames. induction groups as [|g groups IH]; simpl; intros Hs;
    [constructor|].
  apply StronglySorted_inv in Hs as [Hs Hg].
  rewrite times_of_app. apply StronglySorted_append; [|now apply IH|].
  - destruct (times_of_entries ty (fst g) (entries g) (entries_time g))
      as [-> | ->];
      [eapply sublist_NoDup; [exact Hnames | apply entries_type]
      |constructor|repeat constructor].
  - intros x y Hx Hy.
    assert (x = fst g) as ->.
    { unfold times_of in Hx.
      apply list_elem_of_fmap in Hx as (fx & -> & Hx).
      apply list_elem_of_filter in Hx as [_ Hx].
      pose proof (entries_time g) as Ht. rewrite Forall_forall in Ht.
      now apply Ht. }
    unfold times_of in Hy.
    apply list_elem_of_fmap in Hy as (fy & -> & Hy).
    apply list_elem_of_filter in Hy as [_ Hy].
    apply scanned_from in Hy as [Hy _].
    rewrite Forall_forall in Hg. exact (Hg _ Hy).
Qed.

End ListsOfSnapshots.

Lemma attempt_some_profit
    (check_range : Z -> Z -> Z -> string -> range_check)
    (snapshot : DataFrame) (type_id region_id station_id : Z)
    (type_map : dict SourceType)
    (tax_rate efficiency station_tax broker_fee : Q)
    (market_summary : list SummaryRow) (volume_limit : Q)
    (fuel : nat) (h : heap) (o : Opportunity) :
  fst (attempt_opportunity check_range snapshot type_id region_id station_id
                           type_map tax_rate efficiency station_tax
                           broker_fee market_summary volume_limit fuel h)
  = Ok (Some o) ->
  (cost o < gross o)%Q.
Proof.
  destruct (attempt_opportunity _ _ _ _ _ _ _ _ _ _ _ _ _ h) as [r h']
    eqn:H.
  simpl. intros ->. unfold attempt_opportunity in H.
  apply bind_ok in H as (l & h1 & _ & H). apply ret_ok in H as [H _].
  apply report_some in H. tauto.
Qed.

(** X16.  The scanner lists what the attempts return.  A scan that returns
    has run one attempt for every snapshot of the book and every source
    type of the type map, none of which raised: an attempt that raises
    aborts the scan.  Its list holds, snapshot by snapshot in time order
    and type by type in the order of the type map, the opportunities these
    attempts returned, each with the time of its snapshot and the name of
    its type, and each with a gross above its cost. *)
Theorem scanner_collects_the_attempts :
  forall (check_range : Z -> Z -> Z -> string -> range_check)
         (order_book : list (Z * Order)) (type_map : dict SourceType)
         (station_id region_id : Z)
         (efficiency sales_tax station_tax broker_fee : Q)
         (market_summary : list SummaryRow) (volume_limit : Q) (fuel : nat)
         (h : heap) (opps : list found) (h' : heap),
    find_opportunities check_range order_book type_map station_id region_id
                       efficiency sales_tax station_tax broker_fee
                       market_summary volume_limit fuel h
    = (Ok opps, h') ->
    opps
    = concat
        (map (fun g =>
                omap (scan_entry check_range type_map station_id region_id
                                 efficiency sales_tax station_tax broker_fee
                                 market_summary volume_limit fuel g)
                     (values type_map))
             (groupby order_book)) /\
    (forall g st,
       g ∈ groupby order_book -> st ∈ values type_map ->
       exists r,
         fst (attempt_opportunity check_range (snd g) (typeID st) region_id
                station_id type_map sales_tax efficiency station_tax
                broker_fee market_summary volume_limit fuel [])
         = Ok r) /\
    Forall (fun f =>
              time f ∈ map fst order_book /\
              type f ∈ map typeName (values type_map) /\
              (cost (opp f) < gross (opp f))%Q) opps.
Proof.
  intros check_range order_book type_map station_id region_id efficiency
    sales_tax station_tax broker_fee market_summary volume_limit fuel h opps
    h' H.
  unfold find_opportunities in H.
  apply scan_snapshots_entries in H as [Hlist Hall]. simpl in Hlist.
  split; [exact Hlist|]. split.
  - intros g st Hg Hst. rewrite Forall_forall in Hall.
    specialize (Hall g Hg). rewrite Forall_forall in Hall.
    exact (Hall st Hst).
  - apply Forall_forall. intros f Hf.
    assert (Hfrom : time f ∈ map fst (groupby order_book) /\
                    type f ∈ map typeName (values type_map)).
    { rewrite Hlist in Hf. revert Hf.
      apply scanned_from; intros g; apply entries_of_snapshot. }
    destruct Hfrom as [Ht Hty]. apply groupby_keys in Ht.
    split; [exact Ht|]. split; [exact Hty|].
    rewrite Hlist in Hf. apply list_elem_of_In in Hf.
    apply in_concat in Hf as (l & Hl & Hf).
    apply in_map_iff in Hl as (g & <- & _).
    apply list_elem_of_In in Hf.
    apply list_elem_of_omap in Hf as (st & _ & Hentry).
    unfold scan_entry in Hentry.
    destruct (fst (attempt_opportunity _ _ _ _ _ _ _ _ _ _ _ _ _ []))
      as [[o|]| |] eqn:Hatt; try discriminate Hentry.
    injection Hentry as <-. simpl.
    exact (attempt_some_profit _ _ _ _ _ _ _ _ _ _ _ _ _ _ _ Hatt).
Qed.

(** X17.  The scanner feeds the deduplicator.  The list of a scan that
    returns is in time order; when no two source types of the type map
    share a name, the opportunities of each type are in strictly increasing
    time order, which is what [clean_opportunities] needs to collapse runs:
    it then drops exactly the opportunities within five minutes of the one
    of the same type just before them. *)
Theorem scanner_output_feeds_the_deduplicator :
  forall (check_range : Z -> Z -> Z -> string -> range_check)
         (order_book : list (Z * Order)) (type_map : dict SourceType)
         (station_id region_id : Z)
         (efficiency sales_tax station_tax broker_fee : Q)
         (market_summary : list SummaryRow) (volume_limit : Q) (fuel : nat)
         (h : heap) (opps : list found) (h' : heap),
    find_opportunities check_range order_book type_map station_id region_id
                       efficiency sales_tax station_tax broker_fee
                       market_summary volume_limit fuel h
    = (Ok opps, h') ->
    StronglySorted Z.le (map time opps) /\
    (NoDup (map typeName (values type_map)) ->
     increasing_per_type opps = true /\
     clean_opportunities opps = Ok (dedup_after_previous ∅ opps)).
Proof.
  intros check_range order_book type_map station_id region_id efficiency
    sales_tax station_tax broker_fee market_summary volume_limit fuel h opps
    h' H.
  unfold find_opportunities in H.
  apply scan_snapshots_entries in H as [Hlist _]. simpl in Hlist.
  destruct (groupby_keys order_book) as (Hsorted & _ & _).
  split.
  - rewrite Hlist.
    apply (scanned_in_time_order _ (map typeName (values type_map)));
      try assumption; intros g; apply entries_of_snapshot.
  - intros Hnames.
    assert (Hs : forall ty, StronglySorted Z.lt (times_of ty opps)).
    { intros ty. rewrite Hlist.
      apply (scanned_per_type _ (map typeName (values type_map)));
        try assumption; intros g; apply entries_of_snapshot. }
    split; [now apply sorted_increasing_per_type|].
    now apply dedup_of_sorted.
Qed.

(** ** Opportunity scanner: scans that return *)

Lemma completes_ret {A : Type} (a : A) : completes (ret a).
Proof. intros h. now exists a, h. Qed.

Lemma completes_bind {A B : Type} (c : M A) (k : A -> M B) :
  completes c -> (forall a, completes (k a)) -> completes (bind c k).
Proof.
  intros Hc Hk h. unfold bind. destruct (Hc h) as (a & h1 & ->). apply Hk.
Qed.

Lemma offered_filter (P : Order -> Prop) `{forall o, Decision (P o)}
    (rows : DataFrame) :
  offered (filter P rows) <= offered rows.
Proof.
  induction rows as [|o rows IH]; [reflexivity|].
  destruct (decide (P o)).
  - rewrite filter_cons_True by assumption. simpl. lia.
  - rewrite filter_cons_False by assumption. simpl. lia.
Qed.

Lemma offered_snapshot (P : Z * Order -> Prop)
    `{forall r, Decision (P r)} (order_book : list (Z * Order)) :
  offered (map snd (filter P order_book)) <= offered (map snd order_book).
Proof.
  induction order_book as [|r order_book IH]; [reflexivity|].
  destruct (decide (P r)).
  - rewrite filter_cons_True by assumption. simpl. lia.
  - rewrite filter_cons_False by assumption. simpl. lia.
Qed.

Lemma groupby_snapshot (order_book : list (Z * Order)) (g : Z * DataFrame) :
  g ∈ groupby order_book ->
  snd g = map snd (filter (fun r => fst r = fst g) order_book).
Proof.
  unfold groupby. intros Hg.
  apply list_elem_of_fmap in Hg as (k & -> & _). reflexivity.
Qed.

Section ScanWellFormed.

Variable check_range : Z -> Z -> Z -> string -> range_check.
Variable order_book : list (Z * Order).
Variable type_map : dict SourceType.
Variables station_id region_id : Z.
Variables efficiency sales_tax station_tax broker_fee : Q.
Variable market_summary : list SummaryRow.
Variable volume_limit : Q.
Variable fuel : nat.

Hypothesis fee_not_negative : (0 <= broker_fee)%Q.
Hypothesis rates_below_one : (sales_tax + broker_fee < 1)%Q.
Hypothesis types_known :
  forall source, source ∈ values type_map ->
    dict_get type_map (typeID source) = Some source /\
    0 < portionSize source /\
    forall mat, mat ∈ values (material_map source) ->
      materialTypeID mat ∈ keys (material_map source) /\
      exists row, row ∈ market_summary /\
                  summary_type_id row = materialTypeID mat.
Hypothesis bids_priced :
  forall r, r ∈ order_book -> buy (snd r) = true -> ~ (price (snd r) == 0)%Q.
Hypothesis fuel_for_the_book :
  (S (Z.to_nat (offered (map snd order_book))) <= fuel)%nat.

Lemma scan_types_completes (g : Z * DataFrame)
    (source_types : list SourceType) :
  g ∈ groupby order_book ->
  (forall st, st ∈ source_types -> st ∈ values type_map) ->
  forall opportunities,
    completes (scan_types check_range type_map station_id region_id
                          efficiency sales_tax station_tax broker_fee
                          market_summary volume_limit fuel (fst g) (snd g)
                          source_types opportunities).
Proof.
  intros Hg. pose proof (groupby_snapshot order_book g Hg) as Hrows.
  induction source_types as [|st sts IH]; intros Hin opps; simpl.
  - apply completes_ret.
  - destruct (types_known st (Hin st (list_elem_of_here _ _)))
      as (Hkey & Hportion & Hmats).
    apply completes_bind.
    + apply (attempt_opportunity_runs check_range (snd g) (typeID st)
               region_id station_id type_map sales_tax efficiency
               station_tax broker_fee market_summary volume_limit st);
        try assumption.
      * intros o Ho Hbuy. rewrite Hrows in Ho.
        apply list_elem_of_fmap in Ho as (r & -> & Hr).
        apply list_elem_of_filter in Hr as [_ Hr].
        now apply bids_priced.
      * unfold enough_fuel.
        pose proof (offered_snapshot (fun r => fst r = fst g) order_book)
          as Hbook.
        rewrite <- Hrows in Hbook.
        pose proof (offered_nonneg (sell_rows (snd g) (typeID st) station_id)).
        unfold sell_rows in *.
        etransitivity; [|exact fuel_for_the_book].
        apply le_n_S, Z2Nat.inj_le; [assumption | apply offered_nonneg |].
        etransitivity; [apply offered_filter|].
        etransitivity; [apply offered_filter|].
        etransitivity; [apply offered_filter|]. exact Hbook.
    + intros [o|]; apply IH; intros st' Hst'; apply Hin;
        now apply list_elem_of_further.
Qed.

Lemma scan_snapshots_completes (groups : list (Z * DataFrame)) :
  (forall g, g ∈ groups -> g ∈ groupby order_book) ->
  forall opportunities,
    completes (scan_snapshots check_range type_map station_id region_id
                              efficiency sales_tax station_tax broker_fee
                              market_summary volume_limit fuel groups
                              opportunities).
Proof.
  induction groups as [|g groups IH]; intros Hin opps; simpl.
  - apply completes_ret.
  - apply completes_bind.
    + apply scan_types_completes; [apply Hin, list_elem_of_here | auto].
    + intros opps'. apply IH. intros g' Hg'. apply Hin.
      now apply list_elem_of_further.
Qed.

End ScanWellFormed.


(** ** The further theorems at work on the example data *)

Lemma clean_opportunities_idempotent_witness :
  exists kept,
    clean_opportunities scanned_opportunities = Ok kept /\
    clean_opportunities kept = Ok kept.
Proof.
  eexists. split; [vm_compute; reflexivity|].
  apply (clean_opportunities_idempotent scanned_opportunities);
    vm_compute; reflexivity.
Defined.

Lemma matcher_only_lowers_volumes_witness :
  lowered ore_order
          (deref (snd (attempt_buy_type_list 60 [0%nat] [ore_order])) 0) /\
  volume (deref (snd (attempt_buy_type_list 60 [0%nat] [ore_order])) 0) = 0.
Proof.
  split; [|vm_compute; reflexivity].
  apply (matcher_only_lowers_volumes example_check 10 60 60 [0%nat]
           [ore_order] 0%nat).
  lia.
Defined.

Lemma matcher_takes_what_it_fills_witness :
  available (snd (attempt_buy_type_list 30 [0%nat; 1%nat]
                                        [ore_order; ore_order]))
            [0%nat; 1%nat]
  = available [ore_order; ore_order] [0%nat; 1%nat] - 30.
Proof.
  apply (matcher_takes_what_it_fills example_check 10 60 30 [0%nat; 1%nat]
           [ore_order; ore_order]).
  - exact (NoDup_seq 0 2).
  - lia.
  - vm_compute. discriminate.
Defined.

Lemma matcher_skips_orders_out_of_reach_witness :
  deref (snd (attempt_buy_type_list 60 [0%nat; 1%nat; 2%nat]
                [block_order; spent_order; ore_order])) 0
  = block_order /\
  deref (snd (attempt_sell_type_list example_check 10 60 40
                [0%nat; 1%nat] [citadel_bid; station_bid])) 0
  = citadel_bid.
Proof.
  split.
  - apply (matcher_skips_orders_out_of_reach example_check 10 60 60
             [0%nat; 1%nat; 2%nat] [block_order; spent_order; ore_order]
             0%nat); [lia|].
    left. vm_compute. reflexivity.
  - apply (matcher_skips_orders_out_of_reach example_check 10 60 40
             [0%nat; 1%nat] [citadel_bid; station_bid] 0%nat); [lia|].
    right. right. vm_compute. discriminate.
Defined.



Lemma limit_orders_stay_within_volume_limit_witness :
  exists o h' recs row,
    attempt_opportunity example_check example_snapshot 1 10 60 example_types
                        (1 # 100) (1 # 2) (4 # 100) (25 # 1000)
                        example_summary (1 # 100) 251 []
    = (Ok (Some o), h') /\
    dict_get (sell_orders o) 34 = Some recs /\
    head (filter (fun r => summary_type_id r = 34) example_summary)
    = Some row /\
    (filled_volume recs <= inject_Z (summary_volume row) * (1 # 100))%Q.
Proof.
  pose proof (fun o h' =>
                limit_orders_stay_within_volume_limit example_check
                  example_snapshot 1 10 60 example_types (1 # 100) (1 # 2)
                  (4 # 100) (25 # 1000) example_summary (1 # 100) 251 [] o h'
                  34) as Hlimit.
  edestruct Hlimit as (row & Hrow & Hle).
  { vm_compute. reflexivity. }
  { vm_compute. reflexivity. }
  { apply Exists_cons_hd. vm_compute. reflexivity. }
  do 3 eexists. exists row. split; [vm_compute; reflexivity|].
  split; [vm_compute; reflexivity|]. split; [exact Hrow | exact Hle].
Defined.

Lemma scanner_collects_the_attempts_witness :
  exists opps h',
    find_opportunities example_check example_book example_types 60 10
                       (1 # 2) (1 # 100) (4 # 100) (25 # 1000)
                       example_summary (1 # 100) 251 []
    = (Ok opps, h') /\
    map time opps = [0; 300] /\
    Forall (fun f => (cost (opp f) < gross (opp f))%Q) opps.
Proof.
  edestruct (scanner_collects_the_attempts example_check example_book
               example_types 60 10 (1 # 2) (1 # 100) (4 # 100) (25 # 1000)
               example_summary (1 # 100) 251 [])
    as (_ & _ & Hall).
  { vm_compute. reflexivity. }
  do 2 eexists. split; [vm_compute; reflexivity|].
  split; [vm_compute; reflexivity|].
  eapply Forall_impl; [exact Hall|]. intros f Hf. apply Hf.
Defined.

Lemma scanner_output_feeds_the_deduplicator_witness :
  exists opps h',
    find_opportunities example_check example_book example_types 60 10
                       (1 # 2) (1 # 100) (4 # 100) (25 # 1000)
                       example_summary (1 # 100) 251 []
    = (Ok opps, h') /\
    increasing_per_type opps = true /\
    clean_opportunities opps = Ok (dedup_after_previous ∅ opps).
Proof.
  edestruct (scanner_output_feeds_the_deduplicator example_check example_book
               example_types 60 10 (1 # 2) (1 # 100) (4 # 100) (25 # 1000)
               example_summary (1 # 100) 251 [])
    as (_ & Hclean).
  { vm_compute. reflexivity. }
  do 2 eexists. split; [vm_compute; reflexivity|].
  apply Hclean. apply NoDup_singleton.
Defined.

Lemma no_opportunity_without_supply_or_materials_witness :
  exists r h',
    attempt_opportunity example_check [ore_order; station_bid] 1 10 60
                        example_types (1 # 100) (1 # 2) (4 # 100) (25 # 1000)
                        example_summary (1 # 100) 251 []
    = (Ok r, h') /\
    offered (sell_rows [ore_order; station_bid] 1 60)
    < portionSize example_source /\
    r = None.
Proof.
  do 2 eexists. split; [vm_compute; reflexivity|].
  split; [vm_compute; reflexivity|].
  refine (proj2
    (no_opportunity_without_supply_or_materials example_check
       [ore_order; station_bid] 1 10 60 example_types (1 # 100) (1 # 2)
       (4 # 100) (25 # 1000) example_summary (1 # 100) 251 [] _ _
       example_source _ eq_refl) _ _).
  - vm_compute. reflexivity.
  - vm_compute. reflexivity.
  - vm_compute. reflexivity.
Defined.


